(** * ResizeObserver polyfill: observations, observer instances and the
      controller, embedded as state-passing functions over an explicit store.

    Objects that the TypeScript code shares by reference (ResizeObservation
    objects are held both by the [observations_] map and by the
    [activeObservations_] array of an observer) live in heaps indexed by
    references, so that aliasing is visible.  Methods that can throw run in a
    small state-and-exception monad; a thrown exception keeps every mutation
    made before it, as in JavaScript. *)

From Stdlib Require Import ZArith String List Bool Lia.
From stdpp Require Import base decidable list.
Import ListNotations.

Set Warnings "-register-all".

Local Open Scope Z_scope.

(** ** Values *)

(** DOM nodes are identified by a number; a consumer may pass any value as a
    target, the host decides which identities are Elements. *)
Definition NodeId := nat.
Definition Element := NodeId.

(** JavaScript numbers are modelled by integers (no NaN, no fractions) and a
    [number|undefined] property by [option Z], [None] being [undefined]. *)
Definition number := option Z.

(** [a !== b] on [number|undefined]. *)
Definition strict_ne (a b : number) : bool := negb (bool_decide (a = b)).

Module Rect.
(** DOMRectInit: every member is optional in the DOM typings. *)
Record t := mk { x : number; y : number; width : number; height : number }.
End Rect.
Abbreviation DOMRectInit := Rect.t.

#[global] Instance DOMRectInit_eq_dec : EqDecision DOMRectInit.
Proof. solve_decision. Defined.

(** [createRectInit(x, y, width, height)] of geometry.js, which is not among
    the sources: taken to build the DOMRectInit with these four members.  It
    only provides the initial [contentRect_]. *)
Definition createRectInit (x y width height : Z) : DOMRectInit :=
  Rect.mk (Some x) (Some y) (Some width) (Some height).

(** ** ResizeObservation *)

Record ResizeObservation := mkObservation {
  target : Element;
  broadcastWidth : number;
  broadcastHeight : number;
  contentRect_ : DOMRectInit
}.

#[global] Instance ResizeObservation_eq_dec : EqDecision ResizeObservation.
Proof. solve_decision. Defined.

(** [new ResizeObservation(target)] *)
Definition ResizeObservation_new (target : Element) : ResizeObservation :=
  {| target := target;
     broadcastWidth := Some 0;
     broadcastHeight := Some 0;
     contentRect_ := createRectInit 0 0 0 0 |}.

#[global] Instance ResizeObservation_inhabited : Inhabited ResizeObservation :=
  populate (ResizeObservation_new 0%nat).

Section Observation.
(** [getContentRect] of geometry.js: the content rectangle the host
    currently reports for an element. *)
Variable getContentRect : Element -> DOMRectInit.

(** [isActive()]: the returned pair is the result and the object after the
    call. *)
Definition isActive (this : ResizeObservation) : bool * ResizeObservation :=
  let rect := getContentRect (target this) in
  let this' := {| target := target this;
                  broadcastWidth := broadcastWidth this;
                  broadcastHeight := broadcastHeight this;
                  contentRect_ := rect |} in
  (strict_ne (Rect.width rect) (broadcastWidth this') ||
   strict_ne (Rect.height rect) (broadcastHeight this'), this').
End Observation.

(** [broadcastRect()] *)
Definition broadcastRect (this : ResizeObservation) : DOMRectInit * ResizeObservation :=
  let rect := contentRect_ this in
  (rect, {| target := target this;
            broadcastWidth := Rect.width rect;
            broadcastHeight := Rect.height rect;
            contentRect_ := contentRect_ this |}).

(** ** ResizeObserverEntry *)

(** The entry handed to the consumer.  [createReadOnlyRect] (geometry.js)
    derives the read-only rectangle from the DOMRectInit it is given; the
    entry keeps that DOMRectInit. *)
Record ResizeObserverEntry := mkEntry {
  entry_target : Element;
  contentRect : DOMRectInit
}.

#[global] Instance ResizeObserverEntry_eq_dec : EqDecision ResizeObserverEntry.
Proof. solve_decision. Defined.

(** ** The MapShim of shims/es6-collections (same observable behaviour as the
       native Map on the operations used here) *)

Definition MapShim (V : Type) := list (Element * V).

(** [~n] and the truthiness of a number. *)
Definition bitnot (n : Z) : Z := Z.lnot n.
Definition truthy (n : Z) : bool := negb (n =? 0).

Fixpoint getIndex_from {V} (arr : MapShim V) (key : Element) (index : Z) : Z :=
  match arr with
  | [] => -1
  | entry :: rest =>
      if bool_decide (fst entry = key) then index
      else getIndex_from rest key (index + 1)
  end.

Definition getIndex {V} (arr : MapShim V) (key : Element) : Z :=
  getIndex_from arr key 0.

Definition map_size {V} (m : MapShim V) : nat := length m.

Definition map_has {V} (m : MapShim V) (key : Element) : bool :=
  negb (negb (truthy (bitnot (getIndex m key)))).

Definition map_set {V} (m : MapShim V) (key : Element) (value : V) : MapShim V :=
  let index := getIndex m key in
  if truthy (bitnot index) then <[Z.to_nat index := (key, value)]> m
  else m ++ [(key, value)].

Definition map_delete {V} (m : MapShim V) (key : Element) : MapShim V :=
  let index := getIndex m key in
  if truthy (bitnot index) then delete (Z.to_nat index) m else m.

Definition map_clear {V} (m : MapShim V) : MapShim V := [].

(** [Array.prototype.indexOf] *)
Fixpoint indexOf_from {A} `{EqDecision A} (l : list A) (a : A) (index : Z) : Z :=
  match l with
  | [] => -1
  | b :: rest => if bool_decide (b = a) then index else indexOf_from rest a (index + 1)
  end.

Definition indexOf {A} `{EqDecision A} (l : list A) (a : A) : Z := indexOf_from l a 0.

(** ** Consumers *)

Definition ObsRef := nat.   (* reference to a ResizeObservation object *)
Definition SpiRef := nat.   (* reference to a ResizeObserverSPI object *)

(** What a consumer callback does, as far as this library can see it: calls
    of the public ResizeObserver methods (which delegate one to one to the
    SPI object), changes of the layout, and throwing. *)
Inductive Action :=
  | ActObserve (observer : SpiRef) (target : Element)
  | ActUnobserve (observer : SpiRef) (target : Element)
  | ActDisconnect (observer : SpiRef)
  | ActLayout (target : Element) (rect : DOMRectInit)
  | ActThrow.

(** A callback receives the entries and the observer and runs a script. *)
Definition ResizeObserverCallback := list ResizeObserverEntry -> SpiRef -> list Action.

(** ** ResizeObserverSPI *)

(** [callbackCtx_] is the public wrapper, identified with the reference of
    the SPI object it wraps; [controller_] is the singleton controller. *)
Record ResizeObserverSPI := mkSPI {
  activeObservations_ : list ObsRef;
  callback_ : ResizeObserverCallback;
  observations_ : MapShim ObsRef
}.

#[global] Instance ResizeObserverSPI_inhabited : Inhabited ResizeObserverSPI :=
  populate (mkSPI [] (fun _ _ => []) []).

(** ** ResizeObserverController *)

Definition REFRESH_DELAY : nat := 20.

Definition transitionKeys : list string :=
  ["top"; "right"; "bottom"; "left"; "width"; "height"; "size"; "weight"]%string.

Record ResizeObserverController := mkController {
  connected_ : bool;
  mutationEventsAdded_ : bool;
  mutationsObserver_ : option nat;
  observers_ : list SpiRef
}.

(** ** The host *)

Inductive DomNode := MkNode (id : NodeId) (shadow : option DomNode) (children : list DomNode).

Definition node_id (n : DomNode) : NodeId := let 'MkNode id _ _ := n in id.

Inductive EventTarget := TDocument | TWindow.
Inductive Handler := HRefresh | HOnTransitionEnd.

(** What the controller has installed in the host.  Registrations are kept
    as a list with repetitions, so that a double subscription would show. *)
Inductive Subscription :=
  | Listener (on : EventTarget) (type : string) (handler : Handler)
  | MutationWatch (observer : nat) (node : NodeId).

#[global] Instance js_string_eq_dec : EqDecision string := string_dec.
#[global] Instance js_char_eq_dec : EqDecision Ascii.ascii := Ascii.ascii_dec.
#[global] Instance EventTarget_eq_dec : EqDecision EventTarget.
Proof. solve_decision. Defined.
#[global] Instance Handler_eq_dec : EqDecision Handler.
Proof. solve_decision. Defined.
#[global] Instance Subscription_eq_dec : EqDecision Subscription.
Proof. solve_decision. Defined.

Record Host := mkHost {
  isBrowser : bool;                     (* utils/isBrowser *)
  mutationObserverSupported : bool;     (* typeof MutationObserver !== 'undefined' *)
  origAttachShadow : bool;              (* a native attachShadow was found *)
  elementInterface : bool;              (* typeof Element !== 'undefined' && Element instanceof Object *)
  instanceofElement : Element -> bool;  (* target instanceof getWindowOf(target).Element *)
  getContentRect : Element -> DOMRectInit;
  document : DomNode;
  subscriptions : list Subscription;
  attachShadowPatched : bool;           (* HTMLElement.prototype.attachShadow is the wrapper *)
  mutationObserversCreated : nat;
  clock : nat                           (* Date.now() *)
}.

(** ** Events of a run (instrumentation only) *)

Inductive Event :=
  | EvGatherCall (observer : SpiRef)
  | EvGatherReturn (observer : SpiRef)
  | EvBroadcastCall (observer : SpiRef)
  | EvCallback (observer : SpiRef) (entries : list ResizeObserverEntry)
  | EvThrottledRefresh.

#[global] Instance Event_eq_dec : EqDecision Event.
Proof. solve_decision. Defined.

(** ** The world *)

Record World := mkWorld {
  host : Host;
  controller : ResizeObserverController;   (* ResizeObserverController.instance_ *)
  spis : list ResizeObserverSPI;
  heap : list ResizeObservation;
  refreshScheduled : option nat;           (* state of the throttled refresh *)
  log : list Event
}.

Definition set_host (f : Host -> Host) (w : World) : World :=
  mkWorld (f (host w)) (controller w) (spis w) (heap w) (refreshScheduled w) (log w).
Definition set_controller (f : ResizeObserverController -> ResizeObserverController)
    (w : World) : World :=
  mkWorld (host w) (f (controller w)) (spis w) (heap w) (refreshScheduled w) (log w).
Definition set_spis (f : list ResizeObserverSPI -> list ResizeObserverSPI) (w : World) : World :=
  mkWorld (host w) (controller w) (f (spis w)) (heap w) (refreshScheduled w) (log w).
Definition set_heap (f : list ResizeObservation -> list ResizeObservation) (w : World) : World :=
  mkWorld (host w) (controller w) (spis w) (f (heap w)) (refreshScheduled w) (log w).
Definition set_refreshScheduled (s : option nat) (w : World) : World :=
  mkWorld (host w) (controller w) (spis w) (heap w) s (log w).
Definition emit (e : Event) (w : World) : World :=
  mkWorld (host w) (controller w) (spis w) (heap w) (refreshScheduled w) (log w ++ [e]).

(** Dereferencing.  A reference that does not point into its heap does not
    occur in a JavaScript run; the model reads a default object there. *)
Definition spi (r : SpiRef) (w : World) : ResizeObserverSPI := spis w !!! r.
Definition observation (r : ObsRef) (w : World) : ResizeObservation := heap w !!! r.

Definition update_spi (r : SpiRef) (f : ResizeObserverSPI -> ResizeObserverSPI) : World -> World :=
  set_spis (alter f r).
Definition update_observation (r : ObsRef) (f : ResizeObservation -> ResizeObservation)
    : World -> World :=
  set_heap (alter f r).

(** ** State and exceptions *)

Inductive Exn :=
  | TypeError (message : string)
  | ConsumerError.

Inductive Res (A : Type) :=
  | Ok (a : A) (w : World)
  | Throw (e : Exn) (w : World).
Arguments Ok {A} a w.
Arguments Throw {A} e w.

Definition M (A : Type) := World -> Res A.

Definition ret {A} (a : A) : M A := fun w => Ok a w.
Definition throw {A} (e : Exn) : M A := fun w => Throw e w.
Definition bind {A B} (m : M A) (k : A -> M B) : M B :=
  fun w => match m w with
           | Ok a w' => k a w'
           | Throw e w' => Throw e w'
           end.
(** A method that cannot throw. *)
Definition lift (f : World -> World) : M unit := fun w => Ok tt (f w).
Definition gets {A} (f : World -> A) : M A := fun w => Ok (f w) w.

Declare Scope js_scope.
Delimit Scope js_scope with js.
Notation "x <- m ;; k" := (bind m (fun x => k))
  (at level 100, m at next level, right associativity) : js_scope.
Notation "m ;; k" := (bind m (fun _ => k))
  (at level 100, right associativity) : js_scope.

Definition world_of {A} (r : Res A) : World :=
  match r with Ok _ w => w | Throw _ w => w end.

Fixpoint forEach {A} (l : list A) (f : A -> M unit) : M unit :=
  match l with
  | [] => ret tt
  | a :: rest => (f a ;; forEach rest f)%js
  end.

(** ** ResizeObserverController: subscriptions *)

Definition addEventListener (on : EventTarget) (type : string) (h : Handler) : World -> World :=
  set_host (fun hst =>
    mkHost (isBrowser hst) (mutationObserverSupported hst) (origAttachShadow hst)
      (elementInterface hst) (instanceofElement hst) (getContentRect hst) (document hst)
      (subscriptions hst ++ [Listener on type h])
      (attachShadowPatched hst) (mutationObserversCreated hst) (clock hst)).

Fixpoint remove_first {A} `{EqDecision A} (a : A) (l : list A) : list A :=
  match l with
  | [] => []
  | b :: rest => if bool_decide (b = a) then rest else b :: remove_first a rest
  end.

Definition set_subscriptions (f : list Subscription -> list Subscription) : World -> World :=
  set_host (fun hst =>
    mkHost (isBrowser hst) (mutationObserverSupported hst) (origAttachShadow hst)
      (elementInterface hst) (instanceofElement hst) (getContentRect hst) (document hst)
      (f (subscriptions hst))
      (attachShadowPatched hst) (mutationObserversCreated hst) (clock hst)).

Definition removeEventListener (on : EventTarget) (type : string) (h : Handler) : World -> World :=
  set_subscriptions (remove_first (Listener on type h)).

(** [new MutationObserver(this.refresh)]: the host hands out a new observer. *)
Definition newMutationObserver (w : World) : nat * World :=
  let n := mutationObserversCreated (host w) in
  (n, set_host (fun hst =>
        mkHost (isBrowser hst) (mutationObserverSupported hst) (origAttachShadow hst)
          (elementInterface hst) (instanceofElement hst) (getContentRect hst) (document hst)
          (subscriptions hst)
          (attachShadowPatched hst) (S (mutationObserversCreated hst)) (clock hst)) w).

(** [mo.observe(node, options)] *)
Definition mutationObserve (mo : nat) (node : NodeId) : World -> World :=
  set_subscriptions (fun l => l ++ [MutationWatch mo node]).

Definition is_watch_of (mo : nat) (s : Subscription) : bool :=
  match s with
  | MutationWatch mo' _ => bool_decide (mo' = mo)
  | Listener _ _ _ => false
  end.

(** [mo.disconnect()] *)
Definition mutationDisconnect (mo : nat) : World -> World :=
  set_subscriptions (List.filter (fun s => negb (is_watch_of mo s))).

Definition set_attachShadowPatched (b : bool) : World -> World :=
  set_host (fun hst =>
    mkHost (isBrowser hst) (mutationObserverSupported hst) (origAttachShadow hst)
      (elementInterface hst) (instanceofElement hst) (getContentRect hst) (document hst)
      (subscriptions hst) b (mutationObserversCreated hst) (clock hst)).

(** The shadow roots that [observeExistingShadowRoots] puts under mutation
    observation, in the order in which it visits them. *)
Fixpoint observeExistingShadowRoots (node : DomNode) : list NodeId :=
  match node with
  | MkNode _ shadowRoot children =>
      match shadowRoot with
      | Some s => node_id s :: observeExistingShadowRoots s
      | None => []
      end ++
      flat_map observeExistingShadowRoots children
  end.

Definition set_connected_ (b : bool) : World -> World :=
  set_controller (fun c =>
    mkController b (mutationEventsAdded_ c) (mutationsObserver_ c) (observers_ c)).
Definition set_mutationEventsAdded_ (b : bool) : World -> World :=
  set_controller (fun c =>
    mkController (connected_ c) b (mutationsObserver_ c) (observers_ c)).
Definition set_mutationsObserver_ (m : option nat) : World -> World :=
  set_controller (fun c =>
    mkController (connected_ c) (mutationEventsAdded_ c) m (observers_ c)).
Definition set_observers_ (f : list SpiRef -> list SpiRef) : World -> World :=
  set_controller (fun c =>
    mkController (connected_ c) (mutationEventsAdded_ c) (mutationsObserver_ c)
      (f (observers_ c))).

(** [connect_()] *)
Definition connect_ (w : World) : World :=
  if negb (isBrowser (host w)) || connected_ (controller w) then w
  else
    let w := addEventListener TDocument "transitionend" HOnTransitionEnd w in
    let w := addEventListener TWindow "resize" HRefresh w in
    let w :=
      if mutationObserverSupported (host w) then
        let (mo, w) := newMutationObserver w in
        let w := set_mutationsObserver_ (Some mo) w in
        let w := mutationObserve mo (node_id (document (host w))) w in
        if origAttachShadow (host w) then
          let w := fold_left (fun w root => mutationObserve mo root w)
                     (observeExistingShadowRoots (document (host w))) w in
          set_attachShadowPatched true w
        else w
      else
        let w := addEventListener TDocument "DOMSubtreeModified" HRefresh w in
        set_mutationEventsAdded_ true w in
    set_connected_ true w.

(** [disconnect_()] *)
Definition disconnect_ (w : World) : World :=
  if negb (isBrowser (host w)) || negb (connected_ (controller w)) then w
  else
    let w := removeEventListener TDocument "transitionend" HOnTransitionEnd w in
    let w := removeEventListener TWindow "resize" HRefresh w in
    let w :=
      match mutationsObserver_ (controller w) with
      | Some mo =>
          let w := mutationDisconnect mo w in
          if origAttachShadow (host w) then set_attachShadowPatched false w else w
      | None => w
      end in
    let w :=
      if mutationEventsAdded_ (controller w)
      then removeEventListener TDocument "DOMSubtreeModified" HRefresh w
      else w in
    let w := set_mutationsObserver_ None w in
    let w := set_mutationEventsAdded_ false w in
    set_connected_ false w.

(** [addObserver(observer)] *)
Definition addObserver (observer : SpiRef) (w : World) : World :=
  let w :=
    if negb (truthy (bitnot (indexOf (observers_ (controller w)) observer)))
    then set_observers_ (fun l => l ++ [observer]) w
    else w in
  if negb (connected_ (controller w)) then connect_ w else w.

(** [removeObserver(observer)] *)
Definition removeObserver (observer : SpiRef) (w : World) : World :=
  let index := indexOf (observers_ (controller w)) observer in
  let w :=
    if truthy (bitnot index)
    then set_observers_ (delete (Z.to_nat index)) w
    else w in
  if negb (0 <? length (observers_ (controller w)))%nat && connected_ (controller w)
  then disconnect_ w
  else w.

(** ** The throttled [refresh] *)

(** Modelled from the spec: utils/throttle.js is not among the sources.  The
    spec (4.3) asks of the throttled entry point that "repeated trigger events
    within a fixed minimum interval ... collapse to at most one execution, with
    a guaranteed trailing execution after the interval if triggers occurred
    during the throttle window, and a guarantee that an execution in progress
    is never re-entered concurrently".  A call of the wrapper therefore never
    runs the wrapped function itself: it schedules one execution [delay] after
    the first trigger of a window, and further triggers of that window are
    served by the execution already scheduled. *)
Definition throttle_call (delay : nat) (w : World) : World :=
  match refreshScheduled w with
  | Some _ => w
  | None => set_refreshScheduled (Some (clock (host w) + delay)%nat) w
  end.

(** What [this.refresh] denotes on the controller: its constructor assigns
    [this.refresh = throttle(this.refresh.bind(this), REFRESH_DELAY)], an own
    property that hides the method of the prototype.  The method itself is
    [prototype_refresh] below. *)
Definition refresh (w : World) : World :=
  throttle_call REFRESH_DELAY (emit EvThrottledRefresh w).

(** ** ResizeObserverSPI *)

(** [new ResizeObserverSPI(callback, controller, callbackCtx)]; [None] is a
    callback that is not a function. *)
Definition ResizeObserverSPI_new (callback : option ResizeObserverCallback) : M SpiRef :=
  match callback with
  | None => throw (TypeError "The callback provided as parameter 1 is not a function.")
  | Some cb => fun w => Ok (length (spis w)) (set_spis (fun l => l ++ [mkSPI [] cb []]) w)
  end.

(** [clearActive()] *)
Definition clearActive (this : SpiRef) : World -> World :=
  update_spi this (fun s => mkSPI [] (callback_ s) (observations_ s)).

(** [hasActive()] *)
Definition hasActive (this : SpiRef) (w : World) : bool :=
  (0 <? length (activeObservations_ (spi this w)))%nat.

Definition set_observations_ (this : SpiRef) (f : MapShim ObsRef -> MapShim ObsRef)
    : World -> World :=
  update_spi this (fun s => mkSPI (activeObservations_ s) (callback_ s) (f (observations_ s))).

Definition push_active (this : SpiRef) (r : ObsRef) : World -> World :=
  update_spi this (fun s => mkSPI (activeObservations_ s ++ [r]) (callback_ s) (observations_ s)).

(** [new ResizeObservation(target)] *)
Definition alloc_observation (target : Element) (w : World) : ObsRef * World :=
  (length (heap w), set_heap (fun h => h ++ [ResizeObservation_new target]) w).

(** The message of the TypeError for a target that is not an Element:
    [parameter 1 is not of type "Element".], with the name of the interface in
    double quotes (character 34). *)
Definition not_an_Element : string :=
  let quote := Ascii.ascii_of_nat 34 in
  ("parameter 1 is not of type " ++ String quote ("Element" ++ String quote "."))%string.

(** [observe(target)]; [None] is a call without argument. *)
Definition observe (this : SpiRef) (arg : option Element) : M unit :=
  match arg with
  | None => throw (TypeError "1 argument required, but only 0 present.")
  | Some target =>
      (elementInterface <- gets (fun w => elementInterface (host w)) ;;
       if negb elementInterface then ret tt
       else
         isElement <- gets (fun w => instanceofElement (host w) target) ;;
         if negb isElement then throw (TypeError not_an_Element)
         else
           observations <- gets (fun w => observations_ (spi this w)) ;;
           if map_has observations target then ret tt
           else
             lift (fun w =>
               let (r, w) := alloc_observation target w in
               set_observations_ this (fun m => map_set m target r) w) ;;
             lift (addObserver this) ;;
             lift refresh)%js
  end.

(** [unobserve(target)] *)
Definition unobserve (this : SpiRef) (arg : option Element) : M unit :=
  match arg with
  | None => throw (TypeError "1 argument required, but only 0 present.")
  | Some target =>
      (elementInterface <- gets (fun w => elementInterface (host w)) ;;
       if negb elementInterface then ret tt
       else
         isElement <- gets (fun w => instanceofElement (host w) target) ;;
         if negb isElement then throw (TypeError not_an_Element)
         else
           observations <- gets (fun w => observations_ (spi this w)) ;;
           if negb (map_has observations target) then ret tt
           else
             lift (set_observations_ this (fun m => map_delete m target)) ;;
             size <- gets (fun w => map_size (observations_ (spi this w))) ;;
             if negb (0 <? size)%nat then lift (removeObserver this) else ret tt)%js
  end.

(** [disconnect()] *)
Definition disconnect (this : SpiRef) (w : World) : World :=
  let w := clearActive this w in
  let w := set_observations_ this map_clear w in
  removeObserver this w.

(** [observation.isActive()] on the object behind a reference. *)
Definition isActive_at (r : ObsRef) (w : World) : bool * World :=
  let (b, o) := isActive (getContentRect (host w)) (observation r w) in
  (b, update_observation r (fun _ => o) w).

(** The [forEach] of [gatherActive]. *)
Fixpoint gather_loop (this : SpiRef) (entries : MapShim ObsRef) (w : World) : World :=
  match entries with
  | [] => w
  | (_, r) :: rest =>
      let (b, w) := isActive_at r w in
      let w := if b then push_active this r w else w in
      gather_loop this rest w
  end.

(** [gatherActive()] *)
Definition gatherActive (this : SpiRef) (w : World) : World :=
  let w := emit (EvGatherCall this) w in
  let w := clearActive this w in
  let w := gather_loop this (observations_ (spi this w)) w in
  emit (EvGatherReturn this) w.

(** The [map] of [broadcastActive]: one entry per active observation, each
    built with [observation.broadcastRect()]. *)
Fixpoint broadcast_entries (active : list ObsRef) (w : World)
    : list ResizeObserverEntry * World :=
  match active with
  | [] => ([], w)
  | r :: rest =>
      let o := observation r w in
      let (rect, o') := broadcastRect o in
      let w := update_observation r (fun _ => o') w in
      let (entries, w) := broadcast_entries rest w in
      (mkEntry (target o) rect :: entries, w)
  end.

Definition set_contentRect (target : Element) (rect : DOMRectInit) : World -> World :=
  set_host (fun hst =>
    mkHost (isBrowser hst) (mutationObserverSupported hst) (origAttachShadow hst)
      (elementInterface hst) (instanceofElement hst)
      (fun e => if bool_decide (e = target) then rect else getContentRect hst e)
      (document hst) (subscriptions hst)
      (attachShadowPatched hst) (mutationObserversCreated hst) (clock hst)).

(** One step of a consumer's script.  The public wrapper passes its
    parameter on, so the SPI method always sees one argument. *)
Definition run_action (a : Action) : M unit :=
  match a with
  | ActObserve o t => observe o (Some t)
  | ActUnobserve o t => unobserve o (Some t)
  | ActDisconnect o => lift (disconnect o)
  | ActLayout t rect => lift (set_contentRect t rect)
  | ActThrow => throw ConsumerError
  end.

(** [broadcastActive()] *)
Definition broadcastActive (this : SpiRef) : M unit :=
  (lift (emit (EvBroadcastCall this)) ;;
   active <- gets (hasActive this) ;;
   if negb active then ret tt
   else
     entries <- (fun w =>
       let (entries, w) := broadcast_entries (activeObservations_ (spi this w)) w in
       Ok entries w) ;;
     callback <- gets (fun w => callback_ (spi this w)) ;;
     lift (emit (EvCallback this entries)) ;;
     forEach (callback entries this) run_action ;;
     lift (clearActive this))%js.

(** ** ResizeObserverController: the update pass *)

(** The [filter] of [updateObservers_]. *)
Fixpoint gather_filter (observers : list SpiRef) (w : World) : list SpiRef * World :=
  match observers with
  | [] => ([], w)
  | observer :: rest =>
      let w := gatherActive observer w in
      let keep := hasActive observer w in
      let (active, w) := gather_filter rest w in
      (if keep then observer :: active else active, w)
  end.

(** [updateObservers_()] *)
Definition updateObservers_ : M bool :=
  (activeObservers <- (fun w =>
     let (active, w) := gather_filter (observers_ (controller w)) w in Ok active w) ;;
   forEach activeObservers broadcastActive ;;
   ret (0 <? length activeObservers)%nat)%js.

(** The method [refresh()] of the prototype, which the constructor binds and
    hands to [throttle].  Its [this.refresh()] is a property lookup on the
    controller and finds the throttled own property. *)
Definition prototype_refresh : M unit :=
  (changesDetected <- updateObservers_ ;;
   if changesDetected then lift refresh else ret tt)%js.

(** Modelled from the spec: the other half of the throttle, also absent from
    the sources.  When the scheduled time has come the pending execution
    takes place: the wrapped function (the bound [prototype_refresh]) runs. *)
Definition throttle_timer : M unit :=
  fun w =>
    match refreshScheduled w with
    | Some due =>
        if (due <=? clock (host w))%nat
        then prototype_refresh (set_refreshScheduled None w)
        else Ok tt w
    | None => Ok tt w
    end.

(** ** ResizeObserverController: transitionend *)

Record TransitionEvent := mkTransitionEvent { propertyName : option string }.

(** [s] starts with [key]. *)
Fixpoint starts_with (key s : string) : bool :=
  match key, s with
  | EmptyString, _ => true
  | String _ _, EmptyString => false
  | String a key', String b s' => bool_decide (a = b) && starts_with key' s'
  end.

(** [String.prototype.indexOf] *)
Fixpoint string_indexOf_from (s key : string) (index : Z) : Z :=
  if starts_with key s then index
  else match s with
       | EmptyString => -1
       | String _ rest => string_indexOf_from rest key (index + 1)
       end.

Definition string_indexOf (s key : string) : Z := string_indexOf_from s key 0.

(** [onTransitionEnd_({propertyName = ''})] *)
Definition onTransitionEnd_ (ev : TransitionEvent) (w : World) : World :=
  let propertyName := default EmptyString (propertyName ev) in
  let isReflowProperty :=
    existsb (fun key => negb (negb (truthy (bitnot (string_indexOf propertyName key)))))
      transitionKeys in
  if isReflowProperty then refresh w else w.

(** ** Initial state and example worlds *)

(** The controller as its constructor leaves it. *)
Definition ResizeObserverController_new : ResizeObserverController :=
  mkController false false None [].

Definition world_new (h : Host) : World :=
  mkWorld h ResizeObserverController_new [] [] None [].

(** A browser with mutation observers and a native attachShadow, an empty
    document and every value an Element. *)
Definition example_host (rects : Element -> DOMRectInit) : Host :=
  mkHost true true true true (fun _ => true) rects (MkNode 0%nat None []) [] false 0 0.

(** One observer created with [callback], not yet observing anything. *)
Definition one_observer (callback : ResizeObserverCallback) (rects : Element -> DOMRectInit)
    : World :=
  world_of (ResizeObserverSPI_new (Some callback) (world_new (example_host rects))).

(** The same after [observe(target)]. *)
Definition observing (callback : ResizeObserverCallback) (rects : Element -> DOMRectInit)
    (target : Element) : World :=
  world_of (observe 0%nat (Some target) (one_observer callback rects)).

Definition quiet : ResizeObserverCallback := fun _ _ => [].

(** [s] contains [key] as a substring. *)
Definition contains (s key : string) : Prop :=
  exists before after, s = (before ++ key ++ after)%string.

(** ** What the controller keeps installed *)

Definition base_listeners : list Subscription :=
  [Listener TDocument "transitionend" HOnTransitionEnd; Listener TWindow "resize" HRefresh].

(** What one run of [connect_] installs in a browser host. *)
Definition installed (h : Host) : list Subscription :=
  base_listeners ++
  (if mutationObserverSupported h then
     MutationWatch (mutationObserversCreated h) (node_id (document h)) ::
     (if origAttachShadow h
      then map (MutationWatch (mutationObserversCreated h))
             (observeExistingShadowRoots (document h))
      else [])
   else [Listener TDocument "DOMSubtreeModified" HRefresh]).

(** The subscriptions that go with the flags of the controller. *)
Definition subscriptions_match (c : ResizeObserverController) (subs : list Subscription) : Prop :=
  if connected_ c then
    match mutationsObserver_ c with
    | Some mo =>
        mutationEventsAdded_ c = false /\
        exists nodes, subs = base_listeners ++ map (MutationWatch mo) nodes
    | None =>
        mutationEventsAdded_ c = true /\
        subs = base_listeners ++ [Listener TDocument "DOMSubtreeModified" HRefresh]
    end
  else subs = [] /\ mutationsObserver_ c = None /\ mutationEventsAdded_ c = false.

(** The invariant of the controller: no observer is listed twice, listeners
    are connected exactly while a browser host has observers, and the host
    holds the subscriptions of one [connect_], or none. *)
Definition controller_inv (w : World) : Prop :=
  NoDup (observers_ (controller w))
  /\ connected_ (controller w) =
       isBrowser (host w) && (0 <? length (observers_ (controller w)))%nat
  /\ subscriptions_match (controller w) (subscriptions (host w)).

(** ** Frames *)

(** The part of the host that the library only reads. *)
Definition environment (h : Host) :=
  (isBrowser h, mutationObserverSupported h, origAttachShadow h, elementInterface h,
   instanceofElement h, getContentRect h, document h, clock h).

(** [w'] differs from [w] at most in the controller and in what the
    controller installs in the host. *)
Definition controller_frame (w w' : World) : Prop :=
  spis w' = spis w
  /\ heap w' = heap w
  /\ log w' = log w
  /\ refreshScheduled w' = refreshScheduled w
  /\ environment (host w') = environment (host w).

(** ** Reading the log *)

(** The events of one gather pass over [observers]: for each of them in
    turn, [gatherActive] is called and returns. *)
Definition gather_events (observers : list SpiRef) : list Event :=
  flat_map (fun o => [EvGatherCall o; EvGatherReturn o]) observers.

Definition is_gather (e : Event) : Prop :=
  match e with
  | EvGatherCall _ | EvGatherReturn _ => True
  | _ => False
  end.

(** From [w] to [w'] the log has only grown, and by no gather event. *)
Definition no_gather_between (w w' : World) : Prop :=
  exists events, log w' = log w ++ events /\ Forall (fun e => ~ is_gather e) events.

(** Whatever [m] does and however it ends, the world it leaves is related by
    [R] to the world it started in. *)
Definition preserves (R : World -> World -> Prop) {A} (m : M A) : Prop :=
  forall w, R w (world_of (m w)).

(** Time passes in the host. *)
Definition elapse (ms : nat) : World -> World :=
  set_host (fun hst =>
    mkHost (isBrowser hst) (mutationObserverSupported hst) (origAttachShadow hst)
      (elementInterface hst) (instanceofElement hst) (getContentRect hst) (document hst)
      (subscriptions hst) (attachShadowPatched hst) (mutationObserversCreated hst)
      (clock hst + ms)%nat).

(** A consumer that answers every notification by making the first reported
    target ten units wider. *)
Definition widening : ResizeObserverCallback :=
  fun entries _ =>
    match entries with
    | e :: _ =>
        let r := contentRect e in
        [ActLayout (entry_target e)
           (Rect.mk (Rect.x r) (Rect.y r) (option_map (Z.add 10) (Rect.width r))
              (Rect.height r))]
    | [] => []
    end.

(** Element 7 measures 100 by 50 and is observed by a [widening] consumer;
    the delay of the throttle has passed and its timer is about to run the
    bound [prototype_refresh]. *)
Definition widening_world : World :=
  set_refreshScheduled None
    (elapse REFRESH_DELAY (observing widening (fun _ => createRectInit 0 0 100 50) 7%nat)).

(** Element 7 measures 0 by 0, which is what a new observation has as its
    broadcast dimensions. *)
Definition still_world : World :=
  set_refreshScheduled None
    (elapse REFRESH_DELAY (observing quiet (fun _ => createRectInit 0 0 0 0) 7%nat)).

(** ** What a callback can and cannot change *)

(** The entries that [broadcastActive] builds from the active observations
    [active] in world [w]. *)
Definition entries_of (active : list ObsRef) (w : World) : list ResizeObserverEntry :=
  map (fun r => mkEntry (target (observation r w)) (contentRect_ (observation r w))) active.




(** Element 7 measures 100 by 50, observer 0 observes it and has just
    gathered it as active. *)
Definition gathered (callback : ResizeObserverCallback) : World :=
  gatherActive 0%nat
    (set_refreshScheduled None
       (elapse REFRESH_DELAY (observing callback (fun _ => createRectInit 0 0 100 50) 7%nat))).

(** ** More of the MapShim *)

(** [get(key)]: [this.__entries__[index]?.[1]], where index -1 reads no
    entry; [None] is [undefined]. *)
Definition map_get {V} (m : MapShim V) (key : Element) : option V :=
  let index := getIndex m key in
  if index <? 0 then None else snd <$> m !! Z.to_nat index.

(** ** Well-formed worlds *)

(** An observer is well formed over a heap when the keys of its registry
    are unique, every registry entry refers to a ResizeObservation of the heap
    whose target is the key, and every active observation is in the heap. *)
Definition spi_wf (h : list ResizeObservation) (s : ResizeObserverSPI) : Prop :=
  NoDup (observations_ s).*1
  /\ (forall t r, (t, r) ∈ observations_ s -> exists o, h !! r = Some o /\ target o = t)
  /\ (forall r, r ∈ activeObservations_ s -> (r < length h)%nat).

Definition world_wf (w : World) : Prop := Forall (spi_wf (heap w)) (spis w).

Definition wf_kept (w w' : World) : Prop := world_wf w -> world_wf w'.

(** Every object of [h] is still there in [h'], with the same target. *)
Definition targets_kept (h h' : list ResizeObservation) : Prop :=
  forall r o, h !! r = Some o -> exists o', h' !! r = Some o' /\ target o' = target o.

(** ** Activity *)

(** Whether the observation behind [r] would be found active in [w]: what
    [isActive()] would return now. *)
Definition changed (w : World) (r : ObsRef) : bool :=
  fst (isActive (getContentRect (host w)) (observation r w)).

(** The observer has a registered observation whose measured width or height
    differs from the broadcast one. *)
Definition has_changes (w : World) (o : SpiRef) : bool :=
  existsb (fun e => changed w (snd e)) (observations_ (spi o w)).

(** From [w] to [w'] the log has only grown, and only by calls of the
    throttled [refresh]. *)
Definition only_refresh_between (w w' : World) : Prop :=
  exists events,
    log w' = log w ++ events /\ Forall (fun e => e = EvThrottledRefresh) events.

(** The observers on which [broadcastActive] is called in a log. *)
Fixpoint broadcast_calls (events : list Event) : list SpiRef :=
  match events with
  | [] => []
  | EvBroadcastCall o :: rest => o :: broadcast_calls rest
  | _ :: rest => broadcast_calls rest
  end.

(** The observers whose callback is invoked in a log. *)
Fixpoint callback_calls (events : list Event) : list SpiRef :=
  match events with
  | [] => []
  | EvCallback o _ :: rest => o :: callback_calls rest
  | _ :: rest => callback_calls rest
  end.

(** ** The patch of attachShadow *)

(** [HTMLElement.prototype.attachShadow] is the wrapper exactly while the
    controller holds a MutationObserver in a host with a native attachShadow. *)
Definition patch_inv (w : World) : Prop :=
  attachShadowPatched (host w) =
  match mutationsObserver_ (controller w) with
  | Some _ => origAttachShadow (host w)
  | None => false
  end.

(** A host without window and document, in which an Element interface is
    nevertheless defined. *)
Definition detached_host : Host :=
  mkHost false false false true (fun _ => true) (fun _ => createRectInit 0 0 0 0)
    (MkNode 0%nat None []) [] false 0 0.

(** ** Arguments that [observe] and [unobserve] reject *)

(** The argument is missing, or the host has an Element interface and the
    target is not an instance of it. *)
Definition invalid_argument (w : World) (arg : option Element) : Prop :=
  arg = None
  \/ exists t, arg = Some t
       /\ elementInterface (host w) = true
       /\ instanceofElement (host w) t = false.

(** ** The observers that the controller lists *)

(** The controller lists exactly the observers whose registry is not empty. *)
Definition observers_inv (w : World) : Prop :=
  forall o, o ∈ observers_ (controller w) <-> observations_ (spi o w) <> [].

(** * Properties *)

(** ** ResizeObservation *)

Lemma strict_ne_true (a b : number) : strict_ne a b = true <-> a <> b.
Proof.
  unfold strict_ne. rewrite negb_true_iff, bool_decide_eq_false. tauto.
Qed.

Lemma strict_ne_false (a b : number) : strict_ne a b = false <-> a = b.
Proof.
  unfold strict_ne. rewrite negb_false_iff, bool_decide_eq_true. tauto.
Qed.

(** C3: [isActive()] stores the rectangle it has just measured as
    [contentRect_] whatever it returns, leaves the broadcast dimensions and the
    target alone, and returns true exactly when the measured width differs from
    [broadcastWidth] or the measured height differs from [broadcastHeight]; the
    position of the rectangle has no influence on the result. *)
Theorem isActive_spec (getContentRect : Element -> DOMRectInit) (o : ResizeObservation) :
  let rect := getContentRect (target o) in
  let result := fst (isActive getContentRect o) in
  let o' := snd (isActive getContentRect o) in
  contentRect_ o' = rect
  /\ broadcastWidth o' = broadcastWidth o
  /\ broadcastHeight o' = broadcastHeight o
  /\ target o' = target o
  /\ (result = true <->
      Rect.width rect <> broadcastWidth o \/ Rect.height rect <> broadcastHeight o)
  /\ (forall x y x' y' w h,
        fst (isActive (fun _ => Rect.mk x y w h) o) =
        fst (isActive (fun _ => Rect.mk x' y' w h) o)).
Proof.
  cbn. repeat split; try reflexivity.
  - rewrite orb_true_iff, !strict_ne_true. tauto.
  - rewrite orb_true_iff, !strict_ne_true. tauto.
Qed.

(** C4: [broadcastRect()] returns the last measured rectangle and sets
    [broadcastWidth] and [broadcastHeight] to its width and height; nothing but
    the last measurement enters the result, and a second call without a
    measurement in between returns the same rectangle and leaves the object as
    the first call left it. *)
Theorem broadcastRect_spec (o : ResizeObservation) :
  let rect := fst (broadcastRect o) in
  let o' := snd (broadcastRect o) in
  rect = contentRect_ o
  /\ broadcastWidth o' = Rect.width (contentRect_ o)
  /\ broadcastHeight o' = Rect.height (contentRect_ o)
  /\ contentRect_ o' = contentRect_ o
  /\ target o' = target o
  /\ broadcastRect o' = (rect, o')
  /\ (forall w h, broadcastRect (mkObservation (target o) w h (contentRect_ o)) = (rect, o')).
Proof.
  cbn. repeat split; reflexivity.
Qed.

(** ** Indices and substrings *)

Lemma truthy_bitnot (n : Z) : truthy (bitnot n) = true <-> n <> -1.
Proof.
  unfold truthy, bitnot, Z.lnot. rewrite negb_true_iff, Z.eqb_neq. lia.
Qed.

Lemma double_negb_truthy (n : Z) : negb (negb (truthy (bitnot n))) = true <-> n <> -1.
Proof. rewrite negb_involutive. apply truthy_bitnot. Qed.

Lemma prefix_spec (key s : string) :
  starts_with key s = true <-> exists after, s = (key ++ after)%string.
Proof.
  revert s. induction key as [|c key IH]; intros s; cbn.
  - split; [intros _; exists s; reflexivity | reflexivity].
  - destruct s as [|d s].
    + split; [discriminate | intros [after H]; discriminate].
    + rewrite andb_true_iff, bool_decide_eq_true, IH. split.
      * intros [-> [after H]]. exists after. now rewrite H.
      * intros [after H]. injection H as -> H. eauto.
Qed.

Lemma string_indexOf_from_spec (s key : string) (i : Z) :
  0 <= i -> (string_indexOf_from s key i <> -1 <-> contains s key).
Proof.
  revert i. induction s as [|c s IH]; intros i Hi.
  - cbn [string_indexOf_from]. destruct (starts_with key EmptyString) eqn:Hp.
    + split; [intros _ | lia].
      apply prefix_spec in Hp as [after H]. exists EmptyString, after. exact H.
    + split; [congruence |]. intros [before [after H]].
      destruct before; [| discriminate].
      assert (starts_with key EmptyString = true) by (apply prefix_spec; eauto).
      congruence.
  - cbn [string_indexOf_from]. destruct (starts_with key (String c s)) eqn:Hp.
    + split; [intros _ | lia].
      apply prefix_spec in Hp as [after H]. exists EmptyString, after. exact H.
    + rewrite IH by lia. split.
      * intros [before [after H]]. exists (String c before), after. cbn. now rewrite H.
      * intros [before [after H]]. destruct before as [|d before].
        -- assert (starts_with key (String c s) = true) by (apply prefix_spec; eauto).
           congruence.
        -- exists before, after. cbn in H. now injection H.
Qed.

Lemma string_indexOf_spec (s key : string) :
  negb (negb (truthy (bitnot (string_indexOf s key)))) = true <-> contains s key.
Proof.
  rewrite double_negb_truthy. apply string_indexOf_from_spec. lia.
Qed.

Lemma refresh_log (w : World) : log (refresh w) = log w ++ [EvThrottledRefresh].
Proof. unfold refresh, throttle_call. cbn. destruct (refreshScheduled w); reflexivity. Qed.

Lemma refresh_changes (w : World) : refresh w <> w.
Proof.
  intros H. apply (f_equal (fun w => length (log w))) in H.
  rewrite refresh_log, length_app in H. cbn in H. lia.
Qed.

(** C8: the transitionend handler calls [refresh] exactly when the property
    name of the event (the empty string when the event has none) contains one
    of the eight keys as a substring, and does nothing otherwise. *)
Theorem onTransitionEnd_spec (ev : TransitionEvent) (w : World) :
  let name := default EmptyString (propertyName ev) in
  let relevant :=
    contains name "top" \/ contains name "right" \/ contains name "bottom" \/
    contains name "left" \/ contains name "width" \/ contains name "height" \/
    contains name "size" \/ contains name "weight" in
  (onTransitionEnd_ ev w = refresh w <-> relevant)
  /\ (onTransitionEnd_ ev w = w <-> ~ relevant).
Proof.
  intros name relevant.
  assert (Hex : existsb (fun key =>
             negb (negb (truthy (bitnot (string_indexOf name key))))) transitionKeys = true
           <-> relevant).
  { unfold transitionKeys, relevant. cbn [existsb].
    rewrite orb_false_r, !orb_true_iff, !string_indexOf_spec. tauto. }
  unfold onTransitionEnd_. fold name.
  destruct (existsb _ transitionKeys) eqn:He.
  - assert (relevant) by (apply Hex; reflexivity).
    split; split; try tauto.
    intros Heq. exfalso. exact (refresh_changes w Heq).
  - assert (~ relevant) by (rewrite <- Hex; congruence).
    split; split; try tauto.
    intros Heq. exfalso. exact (refresh_changes w (eq_sym Heq)).
Qed.

(** ** The list of observers and the subscriptions of the controller *)

Lemma indexOf_from_found {A} `{EqDecision A} (l : list A) (a : A) (i : Z) :
  0 <= i -> (indexOf_from l a i <> -1 <-> a ∈ l).
Proof.
  revert i. induction l as [|b l IH]; intros i Hi; cbn.
  - rewrite elem_of_nil. tauto.
  - rewrite elem_of_cons. case_bool_decide as Hb.
    + subst. split; [auto | lia].
    + rewrite IH by lia. split; [auto |]. intros [->|]; [congruence | assumption].
Qed.

Lemma indexOf_found {A} `{EqDecision A} (l : list A) (a : A) :
  truthy (bitnot (indexOf l a)) = true <-> a ∈ l.
Proof. rewrite truthy_bitnot. apply indexOf_from_found. lia. Qed.

Lemma indexOf_not_found {A} `{EqDecision A} (l : list A) (a : A) :
  truthy (bitnot (indexOf l a)) = false <-> a ∉ l.
Proof. rewrite <- indexOf_found. destruct (truthy _); split; congruence. Qed.

Lemma fold_mutationObserve (mo : nat) (roots : list NodeId) (w : World) :
  fold_left (fun w root => mutationObserve mo root w) roots w =
  set_subscriptions (fun l => l ++ map (MutationWatch mo) roots) w.
Proof.
  revert w. induction roots as [|r roots IH]; intros w; cbn [fold_left map].
  - destruct w as [[] ? ? ? ? ?]. unfold set_subscriptions, set_host. cbn.
    now rewrite app_nil_r.
  - rewrite IH. destruct w as [[] ? ? ? ? ?].
    unfold mutationObserve, set_subscriptions, set_host. cbn.
    now rewrite <- app_assoc.
Qed.

Lemma remove_first_head {A} `{EqDecision A} (a : A) (l : list A) :
  remove_first a (a :: l) = l.
Proof. cbn. now rewrite bool_decide_eq_true_2. Qed.

Lemma filter_watches (mo : nat) (nodes : list NodeId) :
  List.filter (fun s => negb (is_watch_of mo s)) (map (MutationWatch mo) nodes) = [].
Proof.
  induction nodes as [|n nodes IH]; cbn; [reflexivity |].
  now rewrite bool_decide_eq_true_2.
Qed.

(** In a browser host that is not connected, [connect_] adds the
    subscriptions of [installed], each once, and sets the flag. *)
Lemma connect__installs (w : World) :
  isBrowser (host w) = true -> connected_ (controller w) = false ->
  subscriptions (host (connect_ w)) = subscriptions (host w) ++ installed (host w)
  /\ connected_ (controller (connect_ w)) = true
  /\ observers_ (controller (connect_ w)) = observers_ (controller w).
Proof.
  intros Hb Hc. unfold connect_, installed. rewrite Hb, Hc. cbn [negb orb].
  destruct w as [[] [] ? ? ? ?]. cbn in *.
  destruct mutationObserverSupported0; cbn.
  - destruct origAttachShadow0; cbn.
    + rewrite fold_mutationObserve. cbn. repeat split.
      rewrite <- !app_assoc. reflexivity.
    + repeat split. rewrite <- !app_assoc. reflexivity.
  - repeat split. rewrite <- !app_assoc. reflexivity.
Qed.

Lemma connect__inv (w : World) :
  isBrowser (host w) = true -> connected_ (controller w) = false ->
  subscriptions_match (controller w) (subscriptions (host w)) ->
  subscriptions_match (controller (connect_ w)) (subscriptions (host (connect_ w))).
Proof.
  intros Hb Hc Hm. unfold subscriptions_match in Hm. rewrite Hc in Hm.
  destruct Hm as (Hs & Hmo & Hme).
  unfold connect_. rewrite Hb, Hc. cbn [negb orb].
  destruct w as [[] [] ? ? ? ?]. cbn in *. subst.
  unfold subscriptions_match.
  destruct mutationObserverSupported0; cbn.
  - destruct origAttachShadow0; cbn.
    + rewrite fold_mutationObserve. cbn. split; [reflexivity |].
      exists (node_id document0 :: observeExistingShadowRoots document0). reflexivity.
    + split; [reflexivity |]. exists [node_id document0]. reflexivity.
  - split; reflexivity.
Qed.

Lemma disconnect__clears (w : World) :
  isBrowser (host w) = true -> connected_ (controller w) = true ->
  subscriptions_match (controller w) (subscriptions (host w)) ->
  subscriptions (host (disconnect_ w)) = []
  /\ connected_ (controller (disconnect_ w)) = false
  /\ mutationsObserver_ (controller (disconnect_ w)) = None
  /\ mutationEventsAdded_ (controller (disconnect_ w)) = false
  /\ observers_ (controller (disconnect_ w)) = observers_ (controller w).
Proof.
  intros Hb Hc Hm. unfold subscriptions_match in Hm. rewrite Hc in Hm.
  unfold disconnect_. rewrite Hb, Hc. cbn [negb orb].
  destruct w as [[] [] ? ? ? ?]. cbn in *.
  destruct mutationsObserver_0 as [mo|].
  - destruct Hm as [-> [nodes ->]].
    destruct origAttachShadow0; cbn -[remove_first];
      rewrite !remove_first_head, filter_watches; repeat split.
  - destruct Hm as [-> ->]. cbn -[remove_first].
    rewrite !remove_first_head. repeat split.
Qed.

Lemma addObserver_observers (o : SpiRef) (w : World) :
  observers_ (controller (addObserver o w)) =
  if bool_decide (o ∈ observers_ (controller w))
  then observers_ (controller w)
  else observers_ (controller w) ++ [o].
Proof.
  unfold addObserver.
  destruct (truthy (bitnot (indexOf (observers_ (controller w)) o))) eqn:Hi; cbn [negb].
  - apply indexOf_found in Hi. rewrite bool_decide_eq_true_2 by assumption.
    destruct (connected_ (controller w)) eqn:Hc; cbn [negb]; [reflexivity |].
    unfold connect_. rewrite Hc.
    destruct (isBrowser (host w)); cbn [negb orb]; [| reflexivity].
    destruct w as [[] [] ? ? ? ?]; cbn.
    destruct mutationObserverSupported0; [destruct origAttachShadow0 |]; cbn;
      rewrite ?fold_mutationObserve; reflexivity.
  - apply indexOf_not_found in Hi. rewrite bool_decide_eq_false_2 by assumption.
    set (w1 := set_observers_ _ w).
    assert (H1 : observers_ (controller w1) = observers_ (controller w) ++ [o]) by reflexivity.
    rewrite <- H1.
    destruct (connected_ (controller w1)) eqn:Hc; cbn [negb]; [reflexivity |].
    unfold connect_. rewrite Hc.
    destruct (isBrowser (host w1)); cbn [negb orb]; [| reflexivity].
    destruct w1 as [[] [] ? ? ? ?]; cbn.
    destruct mutationObserverSupported0; [destruct origAttachShadow0 |]; cbn;
      rewrite ?fold_mutationObserve; reflexivity.
Qed.

Lemma controller_inv_addObserver (o : SpiRef) (w : World) :
  controller_inv w -> controller_inv (addObserver o w).
Proof.
  intros (Hnd & Hconn & Hsub).
  assert (Hobs := addObserver_observers o w).
  assert (Hnd' : NoDup (observers_ (controller (addObserver o w)))).
  { rewrite Hobs. case_bool_decide as Hin; [assumption |].
    apply NoDup_app. repeat split; [assumption | | apply NoDup_singleton].
    intros x Hx Hx'. apply list_elem_of_singleton in Hx'. congruence. }
  assert (Hlen : (0 <? length (observers_ (controller (addObserver o w))))%nat = true).
  { rewrite Hobs. apply Nat.ltb_lt. case_bool_decide as Hin.
    - destruct (observers_ (controller w)); [now apply elem_of_nil in Hin | cbn; lia].
    - rewrite length_app. cbn. lia. }
  split; [exact Hnd' |]. rewrite Hlen, andb_true_r. clear Hnd' Hlen Hobs.
  unfold addObserver.
  set (w1 := if negb _ then _ else w).
  assert (Hh : host w1 = host w) by (unfold w1; destruct (negb _); reflexivity).
  assert (Hc : connected_ (controller w1) = connected_ (controller w))
    by (unfold w1; destruct (negb _); reflexivity).
  assert (Hs : subscriptions_match (controller w1) (subscriptions (host w1))).
  { unfold w1. destruct (negb _); [| assumption]. exact Hsub. }
  destruct (connected_ (controller w1)) eqn:Hc1; cbn [negb].
  - split; [| assumption]. rewrite Hh. rewrite <- Hc in Hconn.
    symmetry in Hconn. apply andb_true_iff in Hconn as [-> _]. exact Hc1.
  - destruct (isBrowser (host w1)) eqn:Hb.
    + destruct (connect__installs w1 Hb Hc1) as (_ & Hc2 & _).
      split; [| now apply connect__inv].
      rewrite Hc2. unfold connect_. rewrite Hb, Hc1. cbn [negb orb].
      destruct w1 as [[] [] ? ? ? ?]; cbn in *.
      destruct mutationObserverSupported0; [destruct origAttachShadow0 |]; cbn;
        rewrite ?fold_mutationObserve; cbn; congruence.
    + unfold connect_. rewrite Hb. cbn [negb orb]. split; [congruence | assumption].
Qed.

Lemma controller_inv_removeObserver (o : SpiRef) (w : World) :
  controller_inv w -> controller_inv (removeObserver o w).
Proof.
  intros (Hnd & Hconn & Hsub). unfold removeObserver.
  set (index := indexOf (observers_ (controller w)) o).
  set (w1 := if truthy (bitnot index) then _ else w).
  assert (Hh : host w1 = host w) by (unfold w1; destruct (truthy _); reflexivity).
  assert (Hc : connected_ (controller w1) = connected_ (controller w))
    by (unfold w1; destruct (truthy _); reflexivity).
  assert (Hs : subscriptions_match (controller w1) (subscriptions (host w1))).
  { unfold w1. destruct (truthy _); [| assumption]. exact Hsub. }
  assert (Hnd1 : NoDup (observers_ (controller w1))).
  { unfold w1. destruct (truthy _); [| assumption]. cbn.
    eapply sublist_NoDup; [eassumption | apply sublist_delete]. }
  assert (Hne : (0 <? length (observers_ (controller w1)))%nat = true ->
                (0 <? length (observers_ (controller w)))%nat = true).
  { unfold w1. destruct (truthy _); [| auto]. cbn.
    destruct (observers_ (controller w)); [| reflexivity].
    now destruct (Z.to_nat index). }
  destruct (0 <? length (observers_ (controller w1)))%nat eqn:Hl; cbn [negb andb].
  - split; [assumption |]. split; [| assumption].
    rewrite Hl, Hc, Hh, Hconn, Hne by reflexivity. reflexivity.
  - destruct (connected_ (controller w1)) eqn:Hc1.
    + assert (Hb : isBrowser (host w1) = true).
      { rewrite Hh. rewrite <- Hc in Hconn.
        symmetry in Hconn. now apply andb_true_iff in Hconn as [-> _]. }
      destruct (disconnect__clears w1 Hb Hc1 Hs) as (H1 & H2 & H3 & H4 & H5).
      split; [now rewrite H5 |]. split.
      * rewrite H2, H5, Hl. now rewrite andb_false_r.
      * unfold subscriptions_match. rewrite H2. auto.
    + split; [assumption |]. split; [| assumption].
      rewrite Hc1, Hl. now rewrite andb_false_r.
Qed.

Lemma controller_inv_same (w w' : World) :
  controller w' = controller w -> host w' = host w -> controller_inv w -> controller_inv w'.
Proof. unfold controller_inv. intros -> ->. auto. Qed.

Lemma controller_inv_new (h : Host) :
  subscriptions h = [] -> controller_inv (world_new h).
Proof.
  intros Hs. repeat split; cbn; [constructor | now rewrite andb_false_r | assumption].
Qed.

(** ** Removing from the list of observers *)

Lemma indexOf_from_shift {A} `{EqDecision A} (l : list A) (a : A) (k d : Z) :
  0 <= k -> 0 <= d ->
  indexOf_from l a (k + d) =
  if indexOf_from l a k =? -1 then -1 else indexOf_from l a k + d.
Proof.
  revert k. induction l as [|b l IH]; intros k Hk Hd; cbn; [reflexivity |].
  case_bool_decide as Hb.
  - destruct (k =? -1) eqn:E; [apply Z.eqb_eq in E; lia | reflexivity].
  - replace (k + d + 1) with (k + 1 + d) by lia. apply IH; lia.
Qed.

Lemma indexOf_from_bounds {A} `{EqDecision A} (l : list A) (a : A) (k : Z) :
  0 <= k -> indexOf_from l a k = -1 \/ k <= indexOf_from l a k.
Proof.
  revert k. induction l as [|b l IH]; intros k Hk; cbn; [auto |].
  case_bool_decide; [right; lia |].
  destruct (IH (k + 1) ltac:(lia)) as [E|E]; [auto | right; lia].
Qed.

(** [splice(index, 1)] at the [indexOf] of an element removes its first
    occurrence. *)
Lemma splice_indexOf {A} `{EqDecision A} (l : list A) (a : A) :
  (if truthy (bitnot (indexOf l a)) then delete (Z.to_nat (indexOf l a)) l else l) =
  remove_first a l.
Proof.
  induction l as [|b l IH]; [reflexivity |].
  unfold indexOf in *. cbn [indexOf_from remove_first]. case_bool_decide as Hb.
  - reflexivity.
  - rewrite (indexOf_from_shift l a 0 1) by lia. rewrite <- IH.
    destruct (indexOf_from_bounds l a 0 ltac:(lia)) as [E|E].
    + rewrite E. reflexivity.
    + destruct (indexOf_from l a 0 =? -1) eqn:E1; [apply Z.eqb_eq in E1; lia |].
      replace (truthy (bitnot (indexOf_from l a 0 + 1))) with true
        by (symmetry; apply truthy_bitnot; lia).
      replace (truthy (bitnot (indexOf_from l a 0))) with true
        by (symmetry; apply truthy_bitnot; lia).
      replace (Z.to_nat (indexOf_from l a 0 + 1)) with (S (Z.to_nat (indexOf_from l a 0)))
        by lia.
      reflexivity.
Qed.

Lemma remove_first_absent {A} `{EqDecision A} (l : list A) (a : A) :
  a ∉ l -> remove_first a l = l.
Proof.
  induction l as [|b l IH]; intros Hn; [reflexivity |]. cbn.
  rewrite bool_decide_eq_false_2 by (intros ->; apply Hn, elem_of_cons; auto).
  f_equal. apply IH. intros Hin. apply Hn, elem_of_cons. auto.
Qed.

Lemma remove_first_snoc {A} `{EqDecision A} (l : list A) (a : A) :
  a ∉ l -> remove_first a (l ++ [a]) = l.
Proof.
  induction l as [|b l IH]; intros Hn; cbn.
  - now rewrite bool_decide_eq_true_2.
  - rewrite bool_decide_eq_false_2 by (intros ->; apply Hn, elem_of_cons; auto).
    f_equal. apply IH. intros Hin. apply Hn, elem_of_cons. auto.
Qed.

Lemma remove_first_sublist {A} `{EqDecision A} (l : list A) (a : A) :
  remove_first a l `sublist_of` l.
Proof.
  induction l as [|b l IH]; cbn; [reflexivity |].
  case_bool_decide; [now apply sublist_cons | now apply sublist_skip].
Qed.

Lemma remove_first_NoDup {A} `{EqDecision A} (l : list A) (a : A) :
  NoDup l -> a ∉ remove_first a l.
Proof.
  induction l as [|b l IH]; intros Hnd; cbn; [apply not_elem_of_nil |].
  apply NoDup_cons in Hnd as [Hb Hnd]. case_bool_decide as Hd.
  - now subst.
  - rewrite elem_of_cons. intros [->|Hin]; [congruence |]. now apply IH.
Qed.

Lemma remove_first_other {A} `{EqDecision A} (l : list A) (a b : A) :
  b <> a -> b ∈ remove_first a l <-> b ∈ l.
Proof.
  intros Hne. induction l as [|c l IH]; cbn; [reflexivity |].
  case_bool_decide as Hd.
  - subst c. rewrite elem_of_cons. split; [auto |]. intros [Hb | Hb]; [congruence | exact Hb].
  - rewrite !elem_of_cons, IH. reflexivity.
Qed.

Lemma remove_first_elem_of {A} `{EqDecision A} (l : list A) (a b : A) :
  NoDup l -> b ∈ remove_first a l <-> b ∈ l /\ b <> a.
Proof.
  intros Hnd. split.
  - intros Hin. assert (Hne : b <> a).
    { intros ->. revert Hin. now apply remove_first_NoDup. }
    split; [now apply (remove_first_other l a b Hne) | exact Hne].
  - intros [Hin Hne]. now apply remove_first_other.
Qed.

(** Removing the first occurrence cuts the list at the first occurrence and
    joins the two parts. *)
Lemma remove_first_split {A} `{EqDecision A} (l : list A) (a : A) :
  ((a ∉ l) /\ remove_first a l = l)
  \/ exists before after,
       l = before ++ a :: after /\ (a ∉ before) /\ remove_first a l = before ++ after.
Proof.
  induction l as [|b l IH]; [left; split; [apply not_elem_of_nil | reflexivity] |].
  cbn [remove_first]. case_bool_decide as Hd.
  - subst b. right. exists [], l. split; [reflexivity |].
    split; [apply not_elem_of_nil | reflexivity].
  - destruct IH as [[Hn Hr] | (before & after & Hl & Hn & Hr)].
    + left. split; [| now rewrite Hr].
      rewrite elem_of_cons. intros [Heq | Hin]; [congruence | now apply Hn].
    + right. exists (b :: before), after. split; [now rewrite Hl |].
      split; [| now rewrite Hr].
      rewrite elem_of_cons. intros [Heq | Hin]; [congruence | now apply Hn].
Qed.

Lemma disconnect__observers (w : World) :
  observers_ (controller (disconnect_ w)) = observers_ (controller w).
Proof.
  unfold disconnect_. destruct (negb _ || _); [reflexivity |].
  destruct w as [[] [] ? ? ? ?]; cbn -[remove_first].
  destruct mutationsObserver_0; [destruct origAttachShadow0 |];
    destruct mutationEventsAdded_0; reflexivity.
Qed.

Lemma removeObserver_observers (o : SpiRef) (w : World) :
  observers_ (controller (removeObserver o w)) =
  remove_first o (observers_ (controller w)).
Proof.
  rewrite <- splice_indexOf. unfold removeObserver.
  set (w1 := if truthy _ then _ else w).
  assert (H1 : observers_ (controller w1) =
               if truthy (bitnot (indexOf (observers_ (controller w)) o))
               then delete (Z.to_nat (indexOf (observers_ (controller w)) o))
                      (observers_ (controller w))
               else observers_ (controller w)).
  { unfold w1. destruct (truthy _); reflexivity. }
  rewrite <- H1. destruct (_ && _); [apply disconnect__observers | reflexivity].
Qed.

Lemma addObserver_installs (o : SpiRef) (w : World) :
  controller_inv w -> observers_ (controller w) = [] -> isBrowser (host w) = true ->
  subscriptions (host (addObserver o w)) = installed (host w)
  /\ connected_ (controller (addObserver o w)) = true.
Proof.
  intros (_ & Hconn & Hsub) Hnil Hb. rewrite Hb, Hnil in Hconn. cbn in Hconn.
  unfold subscriptions_match in Hsub. rewrite Hconn in Hsub. destruct Hsub as (Hs & _).
  unfold addObserver. rewrite Hnil. cbn [indexOf indexOf_from].
  change (truthy (bitnot (-1))) with false. cbn [negb].
  set (w1 := set_observers_ _ w).
  assert (Hc1 : connected_ (controller w1) = false) by exact Hconn.
  assert (Hb1 : isBrowser (host w1) = true) by exact Hb.
  rewrite Hc1. cbn [negb].
  destruct (connect__installs w1 Hb1 Hc1) as (H1 & H2 & _).
  split; [| exact H2]. rewrite H1. change (host w1) with (host w). now rewrite Hs.
Qed.

(** Without an empty-to-non-empty transition in a browser host, [addObserver]
    changes nothing but the list of observers. *)
Lemma addObserver_quiet (o : SpiRef) (w : World) :
  controller_inv w ->
  observers_ (controller w) <> [] \/ isBrowser (host w) = false ->
  addObserver o w =
    (if bool_decide (o ∈ observers_ (controller w)) then w
     else set_observers_ (fun l => l ++ [o]) w).
Proof.
  intros (_ & Hconn & _) Hcase. unfold addObserver.
  assert (Hw1 : (if negb (truthy (bitnot (indexOf (observers_ (controller w)) o)))
                 then set_observers_ (fun l => l ++ [o]) w else w) =
                (if bool_decide (o ∈ observers_ (controller w)) then w
                 else set_observers_ (fun l => l ++ [o]) w)).
  { destruct (truthy (bitnot (indexOf (observers_ (controller w)) o))) eqn:Hi; cbn [negb].
    - apply indexOf_found in Hi. now rewrite bool_decide_eq_true_2.
    - apply indexOf_not_found in Hi. now rewrite bool_decide_eq_false_2. }
  rewrite Hw1. set (w1 := if bool_decide _ then w else _).
  assert (Hc1 : connected_ (controller w1) = connected_ (controller w))
    by (unfold w1; case_bool_decide; reflexivity).
  assert (Hh1 : host w1 = host w) by (unfold w1; case_bool_decide; reflexivity).
  rewrite Hc1. destruct (connected_ (controller w)) eqn:Hc; cbn [negb]; [reflexivity |].
  unfold connect_. rewrite Hh1, Hc1.
  destruct (isBrowser (host w)) eqn:Hb; cbn [negb orb]; [| reflexivity].
  exfalso. destruct Hcase as [Hne | Hnb]; [| discriminate].
  destruct (observers_ (controller w)); [congruence | discriminate].
Qed.

(** While observers remain, or when the controller is not connected,
    [removeObserver] changes nothing but the list of observers. *)
Lemma removeObserver_quiet (o : SpiRef) (w : World) :
  observers_ (controller (removeObserver o w)) <> [] \/ connected_ (controller w) = false ->
  removeObserver o w = set_observers_ (remove_first o) w.
Proof.
  intros Hcase. rewrite removeObserver_observers in Hcase.
  unfold removeObserver.
  set (w1 := if truthy _ then _ else w).
  assert (Hw1 : w1 = set_observers_ (remove_first o) w).
  { unfold w1. pose proof (splice_indexOf (observers_ (controller w)) o) as Hsp.
    destruct w as [? [] ? ? ? ?]. cbn -[remove_first indexOf] in *.
    unfold set_observers_, set_controller. cbn -[remove_first indexOf].
    rewrite <- Hsp. now destruct (truthy _). }
  rewrite Hw1.
  change (observers_ (controller (set_observers_ (remove_first o) w)))
    with (remove_first o (observers_ (controller w))).
  change (connected_ (controller (set_observers_ (remove_first o) w)))
    with (connected_ (controller w)).
  destruct Hcase as [Hne | Hc].
  - destruct (remove_first o (observers_ (controller w))); [congruence | reflexivity].
  - rewrite Hc. now rewrite andb_false_r.
Qed.

(** C7: on a controller that satisfies its invariant (as every controller
    reached from the constructor does: the invariant holds initially and
    [addObserver] and [removeObserver] keep it), [addObserver] leaves the list
    as it is when the observer is listed and appends the observer otherwise.
    In a browser host it installs the subscriptions of one [connect_] when the
    list was empty; when the list was not empty, or the host is no browser, it
    leaves the host and the flag untouched.  [removeObserver] keeps exactly
    the other observers; when none remains no subscription remains and the
    flag is cleared, and while some remain the host and the flag are
    untouched. *)
Theorem controller_subscriptions (w : World) (o : SpiRef) :
  controller_inv w ->
  let l := observers_ (controller w) in
  let wa := addObserver o w in
  let wr := removeObserver o w in
  controller_inv wa
  /\ controller_inv wr
  /\ (o ∈ l -> observers_ (controller wa) = l)
  /\ (o ∉ l -> observers_ (controller wa) = l ++ [o])
  /\ (l = [] -> isBrowser (host w) = true ->
      subscriptions (host wa) = installed (host w)
      /\ connected_ (controller wa) = true)
  /\ (l <> [] \/ isBrowser (host w) = false ->
      host wa = host w
      /\ connected_ (controller wa) = connected_ (controller w))
  /\ (forall x, x ∈ observers_ (controller wr) <-> x ∈ l /\ x <> o)
  /\ (l = [o] -> observers_ (controller wr) = [])
  /\ (observers_ (controller wr) = [] ->
      subscriptions (host wr) = [] /\ connected_ (controller wr) = false)
  /\ (observers_ (controller wr) <> [] ->
      host wr = host w
      /\ connected_ (controller wr) = connected_ (controller w)).
Proof.
  intros Hinv l wa wr.
  assert (Hwa : controller_inv wa) by now apply controller_inv_addObserver.
  assert (Hwr : controller_inv wr) by now apply controller_inv_removeObserver.
  split; [exact Hwa |]. split; [exact Hwr |].
  split; [| split; [| split; [| split; [| split; [| split; [| split]]]]]].
  - intros Hin. unfold wa. rewrite addObserver_observers.
    now rewrite bool_decide_eq_true_2.
  - intros Hn. unfold wa. rewrite addObserver_observers.
    now rewrite bool_decide_eq_false_2.
  - intros Hnil Hb. now apply addObserver_installs.
  - intros Hcase. unfold wa. rewrite (addObserver_quiet o w Hinv Hcase).
    case_bool_decide; split; reflexivity.
  - intros x. unfold wr. rewrite removeObserver_observers.
    apply remove_first_elem_of, Hinv.
  - intros Hone. unfold wr. rewrite removeObserver_observers. fold l. rewrite Hone.
    apply remove_first_head.
  - intros Hnil. destruct Hwr as (_ & Hconn & Hsub).
    rewrite Hnil in Hconn. cbn [length Nat.ltb Nat.leb] in Hconn.
    rewrite andb_false_r in Hconn.
    unfold subscriptions_match in Hsub. rewrite Hconn in Hsub.
    split; [apply Hsub | exact Hconn].
  - intros Hne. unfold wr. rewrite (removeObserver_quiet o w (or_introl Hne)).
    split; reflexivity.
Qed.

(** The empty-to-non-empty transition of the list in a host that is no
    browser: [connect_] returns at its guard, so no subscription is installed
    and the controller does not become connected. *)
Theorem addObserver_outside_browser :
  let w := world_new detached_host in
  isBrowser (host w) = false
  /\ controller_inv w
  /\ observers_ (controller w) = []
  /\ observers_ (controller (addObserver 0%nat w)) = [0%nat]
  /\ subscriptions (host (addObserver 0%nat w)) = []
  /\ connected_ (controller (addObserver 0%nat w)) = false.
Proof.
  intros w. split; [reflexivity |]. split; [now apply controller_inv_new |].
  repeat split.
Qed.

(** ** What the controller operations leave alone *)

Lemma controller_frame_refl (w : World) : controller_frame w w.
Proof. repeat split. Qed.

Lemma controller_frame_trans (w1 w2 w3 : World) :
  controller_frame w1 w2 -> controller_frame w2 w3 -> controller_frame w1 w3.
Proof.
  intros (A1 & A2 & A3 & A4 & A5) (B1 & B2 & B3 & B4 & B5).
  repeat split; congruence.
Qed.

Lemma connect__frame (w : World) : controller_frame w (connect_ w).
Proof.
  unfold connect_. destruct (negb _ || _); [apply controller_frame_refl |].
  destruct w as [[] [] ? ? ? ?]; cbn.
  destruct mutationObserverSupported0; [destruct origAttachShadow0 |]; cbn;
    rewrite ?fold_mutationObserve; repeat split.
Qed.

Lemma disconnect__frame (w : World) : controller_frame w (disconnect_ w).
Proof.
  unfold disconnect_. destruct (negb _ || _); [apply controller_frame_refl |].
  destruct w as [[] [] ? ? ? ?]; cbn -[remove_first].
  destruct mutationsObserver_0; [destruct origAttachShadow0 |];
    destruct mutationEventsAdded_0; cbn -[remove_first]; repeat split.
Qed.

Lemma addObserver_frame (o : SpiRef) (w : World) : controller_frame w (addObserver o w).
Proof.
  unfold addObserver.
  set (w1 := if negb _ then _ else w).
  assert (H1 : controller_frame w w1) by (unfold w1; destruct (negb _); repeat split).
  destruct (negb (connected_ _)); [| assumption].
  eapply controller_frame_trans; [eassumption | apply connect__frame].
Qed.

Lemma removeObserver_frame (o : SpiRef) (w : World) : controller_frame w (removeObserver o w).
Proof.
  unfold removeObserver.
  set (w1 := if truthy _ then _ else w).
  assert (H1 : controller_frame w w1) by (unfold w1; destruct (truthy _); repeat split).
  destruct (_ && _); [| assumption].
  eapply controller_frame_trans; [eassumption | apply disconnect__frame].
Qed.

(** ** The registry *)

Lemma getIndex_from_found {V} (m : MapShim V) (key : Element) (i : Z) :
  0 <= i -> (getIndex_from m key i <> -1 <-> key ∈ m.*1).
Proof.
  revert i. induction m as [|[k v] m IH]; intros i Hi; cbn.
  - rewrite elem_of_nil. tauto.
  - rewrite elem_of_cons. case_bool_decide as Hk.
    + subst. split; [auto | lia].
    + rewrite IH by lia. split; [auto |]. intros [->|]; [congruence | assumption].
Qed.

Lemma map_has_spec {V} (m : MapShim V) (key : Element) :
  map_has m key = true <-> key ∈ m.*1.
Proof.
  unfold map_has. rewrite double_negb_truthy. apply getIndex_from_found. lia.
Qed.

Lemma map_set_absent {V} (m : MapShim V) (key : Element) (v : V) :
  map_has m key = false -> map_set m key v = m ++ [(key, v)].
Proof.
  unfold map_has, map_set. rewrite negb_involutive. now intros ->.
Qed.

Lemma spi_update_spi (this : SpiRef) (f : ResizeObserverSPI -> ResizeObserverSPI) (w : World) :
  (this < length (spis w))%nat -> spi this (update_spi this f w) = f (spi this w).
Proof. intros H. unfold spi, update_spi. cbn. now apply list_lookup_total_alter_eq. Qed.

Lemma spi_update_spi_ne (this other : SpiRef) (f : ResizeObserverSPI -> ResizeObserverSPI)
    (w : World) :
  other <> this -> spi this (update_spi other f w) = spi this w.
Proof. intros H. unfold spi, update_spi. cbn. now apply list_lookup_total_alter_ne. Qed.

Lemma environment_fields (h h' : Host) :
  environment h' = environment h ->
  elementInterface h' = elementInterface h /\ instanceofElement h' = instanceofElement h
  /\ getContentRect h' = getContentRect h /\ isBrowser h' = isBrowser h.
Proof. unfold environment. intros H. injection H. auto. Qed.

Lemma observe_registered (this : SpiRef) (t : Element) (w : World) :
  elementInterface (host w) = true ->
  instanceofElement (host w) t = true ->
  map_has (observations_ (spi this w)) t = true ->
  observe this (Some t) w = Ok tt w.
Proof.
  intros H1 H2 H3. unfold observe, bind, gets, ret. cbn beta.
  rewrite H1. cbn [negb]. rewrite H2. cbn [negb]. now rewrite H3.
Qed.

Lemma observe_new (this : SpiRef) (t : Element) (w : World) :
  elementInterface (host w) = true ->
  instanceofElement (host w) t = true ->
  map_has (observations_ (spi this w)) t = false ->
  observe this (Some t) w =
  Ok tt (refresh (addObserver this
    (set_observations_ this (fun m => map_set m t (length (heap w)))
       (snd (alloc_observation t w))))).
Proof.
  intros H1 H2 H3. unfold observe, bind, gets, ret, lift. cbn beta.
  rewrite H1. cbn [negb]. rewrite H2. cbn [negb]. now rewrite H3.
Qed.

(** C6: on an existing observer and for a target that is an Element,
    [observe] returns normally, and calling it again in the state it has
    produced changes nothing at all: the registry keeps its size and no further
    ResizeObservation is allocated.  When the target is already in the
    registry the first call is such a no-op itself; when it is not, the first
    call appends one registry entry for one new ResizeObservation. *)
Theorem observe_twice (w : World) (this : SpiRef) (t : Element) :
  (this < length (spis w))%nat ->
  instanceofElement (host w) t = true ->
  exists w1,
    observe this (Some t) w = Ok tt w1
    /\ observe this (Some t) w1 = Ok tt w1
    /\ (map_has (observations_ (spi this w)) t = true -> w1 = w)
    /\ (elementInterface (host w) = true ->
        map_has (observations_ (spi this w)) t = false ->
        observations_ (spi this w1) = observations_ (spi this w) ++ [(t, length (heap w))]
        /\ heap w1 = heap w ++ [ResizeObservation_new t]).
Proof.
  intros Hthis Hel.
  destruct (elementInterface (host w)) eqn:Hif.
  2: { exists w. unfold observe, bind, gets, ret. rewrite Hif. cbn.
       repeat split; congruence. }
  destruct (map_has (observations_ (spi this w)) t) eqn:Hhas.
  { exists w. rewrite observe_registered by assumption. repeat split; congruence. }
  rewrite observe_new by assumption.
  set (w0 := set_observations_ this _ _).
  set (w1 := refresh (addObserver this w0)).
  assert (Hspis : spis w1 = spis w0).
  { destruct (addObserver_frame this w0) as (H & _).
    unfold w1, refresh, throttle_call. destruct (refreshScheduled _); exact H. }
  assert (Hheap : heap w1 = heap w ++ [ResizeObservation_new t]).
  { destruct (addObserver_frame this w0) as (_ & H & _).
    unfold w1, refresh, throttle_call. destruct (refreshScheduled _); cbn; rewrite H; reflexivity. }
  assert (Henv : environment (host w1) = environment (host w)).
  { destruct (addObserver_frame this w0) as (_ & _ & _ & _ & H).
    unfold w1, refresh, throttle_call. destruct (refreshScheduled _); exact H. }
  assert (Hreg : observations_ (spi this w1) =
                 observations_ (spi this w) ++ [(t, length (heap w))]).
  { unfold spi at 1. rewrite Hspis. fold (spi this w0). unfold w0, set_observations_.
    rewrite spi_update_spi by exact Hthis. cbn.
    apply map_set_absent. exact Hhas. }
  exists w1. split; [reflexivity |]. split; [| split; [congruence | auto]].
  apply environment_fields in Henv as (E1 & E2 & _).
  apply observe_registered.
  - now rewrite E1.
  - now rewrite E2.
  - rewrite Hreg. apply map_has_spec. rewrite fmap_app. apply elem_of_app. right.
    cbn. apply list_elem_of_singleton. reflexivity.
Qed.

(** ** The log of the gather pass *)

Lemma gather_loop_log (this : SpiRef) (entries : MapShim ObsRef) (w : World) :
  log (gather_loop this entries w) = log w.
Proof.
  revert w. induction entries as [|[k r] entries IH]; intros w; cbn; [reflexivity |].
  rewrite IH. destruct (_ || _); reflexivity.
Qed.

Lemma gatherActive_log (this : SpiRef) (w : World) :
  log (gatherActive this w) = log w ++ [EvGatherCall this; EvGatherReturn this].
Proof.
  unfold gatherActive. cbn. rewrite gather_loop_log. cbn.
  now rewrite <- app_assoc.
Qed.

Lemma gather_filter_log (observers : list SpiRef) (w : World) :
  log (snd (gather_filter observers w)) = log w ++ gather_events observers.
Proof.
  revert w. induction observers as [|o observers IH]; intros w;
    cbn [gather_filter gather_events flat_map snd].
  - now rewrite app_nil_r.
  - specialize (IH (gatherActive o w)).
    destruct (gather_filter observers (gatherActive o w)) as [active w'].
    cbn [snd] in *. rewrite IH, gatherActive_log, <- app_assoc. reflexivity.
Qed.

(** ** Nothing but the gather pass gathers *)

Lemma no_gather_between_refl (w : World) : no_gather_between w w.
Proof. exists []. split; [now rewrite app_nil_r | constructor]. Qed.

Lemma no_gather_between_same (w w' : World) : log w' = log w -> no_gather_between w w'.
Proof. intros H. exists []. split; [now rewrite app_nil_r | constructor]. Qed.

Lemma no_gather_between_trans (w1 w2 w3 : World) :
  no_gather_between w1 w2 -> no_gather_between w2 w3 -> no_gather_between w1 w3.
Proof.
  intros (e1 & H1 & F1) (e2 & H2 & F2). exists (e1 ++ e2). split.
  - now rewrite H2, H1, app_assoc.
  - apply Forall_app. auto.
Qed.

Lemma no_gather_between_emit (e : Event) (w : World) :
  ~ is_gather e -> no_gather_between w (emit e w).
Proof. intros H. exists [e]. split; [reflexivity | repeat constructor; assumption]. Qed.

Lemma no_gather_between_frame (w w' : World) :
  controller_frame w w' -> no_gather_between w w'.
Proof. intros (_ & _ & H & _). now apply no_gather_between_same. Qed.

Lemma no_gather_between_refresh (w : World) : no_gather_between w (refresh w).
Proof.
  exists [EvThrottledRefresh]. split; [apply refresh_log |].
  repeat constructor. cbn. tauto.
Qed.

(** What a consumer can reach through the public methods keeps every
    relation [R] that the pieces of those methods keep. *)
Section Preserves.
Variable R : World -> World -> Prop.
Variable allowed : SpiRef -> Prop.
Hypothesis R_refl : forall w, R w w.
Hypothesis R_trans : forall w1 w2 w3, R w1 w2 -> R w2 w3 -> R w1 w3.
Hypothesis R_frame : forall w w', controller_frame w w' -> R w w'.
Hypothesis R_refresh : forall w, R w (refresh w).
Hypothesis R_registry : forall o f w, R w (set_observations_ o f w).
Hypothesis R_alloc : forall t w, R w (snd (alloc_observation t w)).
Hypothesis R_clearActive : forall o w, allowed o -> R w (clearActive o w).
Hypothesis R_layout : forall t rect w, R w (set_contentRect t rect w).

Lemma preserves_ret {A} (a : A) : preserves R (ret a).
Proof. intros w. apply R_refl. Qed.

Lemma preserves_throw {A} (e : Exn) : preserves R (@throw A e).
Proof. intros w. apply R_refl. Qed.

Lemma preserves_gets {A} (f : World -> A) : preserves R (gets f).
Proof. intros w. apply R_refl. Qed.

Lemma preserves_bind {A B} (m : M A) (k : A -> M B) :
  preserves R m -> (forall a, preserves R (k a)) -> preserves R (bind m k).
Proof.
  intros Hm Hk w. unfold bind. specialize (Hm w).
  destruct (m w) as [a w'|e w']; cbn in *; [| assumption].
  eapply R_trans; [eassumption | apply Hk].
Qed.

Lemma preserves_lift (f : World -> World) :
  (forall w, R w (f w)) -> preserves R (lift f).
Proof. intros H w. apply H. Qed.

Lemma preserves_forEach {A} (l : list A) (f : A -> M unit) :
  (forall a, a ∈ l -> preserves R (f a)) -> preserves R (forEach l f).
Proof.
  induction l as [|a l IH]; intros Hf; cbn [forEach].
  - apply preserves_ret.
  - apply preserves_bind; [apply Hf, elem_of_cons; auto | intros _].
    apply IH. intros b Hb. apply Hf, elem_of_cons. auto.
Qed.

Lemma preserves_observe (this : SpiRef) (arg : option Element) :
  preserves R (observe this arg).
Proof.
  destruct arg as [t|]; [| apply preserves_throw]. unfold observe.
  apply preserves_bind; [apply preserves_gets | intros b1].
  destruct (negb b1); [apply preserves_ret |].
  apply preserves_bind; [apply preserves_gets | intros b2].
  destruct (negb b2); [apply preserves_throw |].
  apply preserves_bind; [apply preserves_gets | intros m].
  destruct (map_has m t); [apply preserves_ret |].
  apply preserves_bind; [| intros _; apply preserves_bind; [| intros _]].
  - apply preserves_lift. intros w.
    eapply R_trans; [apply (R_alloc t) | apply R_registry].
  - apply preserves_lift. intros w. apply R_frame, addObserver_frame.
  - apply preserves_lift, R_refresh.
Qed.

Lemma preserves_unobserve (this : SpiRef) (arg : option Element) :
  preserves R (unobserve this arg).
Proof.
  destruct arg as [t|]; [| apply preserves_throw]. unfold unobserve.
  apply preserves_bind; [apply preserves_gets | intros b1].
  destruct (negb b1); [apply preserves_ret |].
  apply preserves_bind; [apply preserves_gets | intros b2].
  destruct (negb b2); [apply preserves_throw |].
  apply preserves_bind; [apply preserves_gets | intros m].
  destruct (negb (map_has m t)); [apply preserves_ret |].
  apply preserves_bind;
    [| intros _; apply preserves_bind; [apply preserves_gets | intros n]].
  - apply preserves_lift. intros w. apply R_registry.
  - destruct (negb _); [| apply preserves_ret].
    apply preserves_lift. intros w. apply R_frame, removeObserver_frame.
Qed.

Lemma preserves_disconnect (this : SpiRef) (w : World) :
  allowed this -> R w (disconnect this w).
Proof.
  intros Ha. unfold disconnect.
  eapply R_trans; [apply R_clearActive, Ha |].
  eapply R_trans; [apply R_registry |].
  apply R_frame, removeObserver_frame.
Qed.

Lemma preserves_run_action (a : Action) :
  (forall o, a = ActDisconnect o -> allowed o) -> preserves R (run_action a).
Proof.
  intros Ha. destruct a; cbn [run_action].
  - apply preserves_observe.
  - apply preserves_unobserve.
  - apply preserves_lift. intros w. apply preserves_disconnect, Ha. reflexivity.
  - apply preserves_lift. intros w. apply R_layout.
  - apply preserves_throw.
Qed.

Lemma preserves_script (script : list Action) :
  (forall o, ActDisconnect o ∈ script -> allowed o) ->
  preserves R (forEach script run_action).
Proof.
  intros Ha. apply preserves_forEach. intros a Hin.
  apply preserves_run_action. intros o ->. now apply Ha.
Qed.
End Preserves.

Lemma no_gather_script (script : list Action) :
  preserves no_gather_between (forEach script run_action).
Proof.
  apply (preserves_script no_gather_between (fun _ => True)); auto.
  - apply no_gather_between_refl.
  - apply no_gather_between_trans.
  - apply no_gather_between_frame.
  - apply no_gather_between_refresh.
  - intros o f w. now apply no_gather_between_same.
  - intros t w. now apply no_gather_between_same.
  - intros o w _. now apply no_gather_between_same.
  - intros t rect w. now apply no_gather_between_same.
Qed.

Lemma broadcast_entries_log (active : list ObsRef) (w : World) :
  log (snd (broadcast_entries active w)) = log w.
Proof.
  revert w. induction active as [|r active IH]; intros w; cbn; [reflexivity |].
  specialize (IH (update_observation r
                    (fun _ => snd (broadcastRect (observation r w))) w)).
  cbn in IH. destruct (broadcast_entries active _) as [entries w']. exact IH.
Qed.

Lemma no_gather_broadcastActive (this : SpiRef) :
  preserves no_gather_between (broadcastActive this).
Proof.
  pose proof no_gather_between_refl as Hrefl.
  pose proof no_gather_between_trans as Htrans.
  unfold broadcastActive.
  apply preserves_bind; [assumption | | intros _].
  { apply preserves_lift. intros w. apply no_gather_between_emit. cbn. tauto. }
  apply preserves_bind; [assumption | now apply preserves_gets | intros b].
  destruct (negb b); [now apply preserves_ret |].
  apply preserves_bind; [assumption | | intros entries].
  { intros w. pose proof (broadcast_entries_log (activeObservations_ (spi this w)) w) as H.
    destruct (broadcast_entries _ w) as [entries w']. cbn in *.
    now apply no_gather_between_same. }
  apply preserves_bind; [assumption | now apply preserves_gets | intros callback].
  apply preserves_bind; [assumption | | intros _].
  { apply preserves_lift. intros w. apply no_gather_between_emit. cbn. tauto. }
  apply preserves_bind; [assumption | apply no_gather_script | intros _].
  apply preserves_lift. intros w. now apply no_gather_between_same.
Qed.

Lemma updateObservers__log (w : World) :
  exists later,
    log (world_of (updateObservers_ w)) =
      log w ++ gather_events (observers_ (controller w)) ++ later
    /\ Forall (fun e => ~ is_gather e) later.
Proof.
  unfold updateObservers_, bind at 1.
  pose proof (gather_filter_log (observers_ (controller w)) w) as Hg.
  destruct (gather_filter (observers_ (controller w)) w) as [active w1]. cbn in Hg.
  assert (Hb : preserves no_gather_between
                 (bind (forEach active broadcastActive)
                    (fun _ => ret (0 <? length active)%nat))).
  { apply preserves_bind; [apply no_gather_between_trans | | intros _].
    - apply preserves_forEach;
        [apply no_gather_between_refl | apply no_gather_between_trans |].
      intros o _. apply no_gather_broadcastActive.
    - apply preserves_ret, no_gather_between_refl. }
  destruct (Hb w1) as (later & Hl & Hf).
  exists later. split; [| exact Hf].
  rewrite Hl, Hg, <- app_assoc. reflexivity.
Qed.

Lemma gather_events_complete (observers : list SpiRef) (o : SpiRef) :
  o ∈ observers <->
  exists before after,
    gather_events observers = before ++ [EvGatherCall o; EvGatherReturn o] ++ after.
Proof.
  induction observers as [|o' observers IH].
  - rewrite elem_of_nil. split; [tauto |].
    intros (before & after & H). destruct before; discriminate.
  - change (gather_events (o' :: observers))
      with (EvGatherCall o' :: EvGatherReturn o' :: gather_events observers).
    rewrite elem_of_cons. split.
    + intros [->|Hin].
      * exists [], (gather_events observers). reflexivity.
      * apply IH in Hin as (before & after & ->).
        exists (EvGatherCall o' :: EvGatherReturn o' :: before), after. reflexivity.
    + intros (before & after & H).
      destruct before as [|e1 [|e2 before]]; cbn [app] in H.
      * left. congruence.
      * exfalso. congruence.
      * right. apply IH. exists before, after. injection H as _ _ H. exact H.
Qed.

Lemma gather_events_gather (observers : list SpiRef) :
  Forall is_gather (gather_events observers).
Proof.
  induction observers as [|o observers IH]; [constructor |].
  change (gather_events (o :: observers))
    with (EvGatherCall o :: EvGatherReturn o :: gather_events observers).
  repeat constructor. exact IH.
Qed.

(** C1: one run of [updateObservers_], however it ends, starts with one
    block of gather events, in which exactly the observers of the controller's
    list have [gatherActive] called and returning, one after the other in the
    order of the list; everything else the run does (every call of
    [broadcastActive], every callback) comes after this block and contains no
    call of [gatherActive]. *)
Theorem updateObservers__gather_then_broadcast (w : World) :
  exists later,
    log (world_of (updateObservers_ w)) =
      log w ++ gather_events (observers_ (controller w)) ++ later
    /\ Forall is_gather (gather_events (observers_ (controller w)))
    /\ Forall (fun e => ~ is_gather e) later
    /\ (forall o,
          o ∈ observers_ (controller w) <->
          exists before after,
            gather_events (observers_ (controller w)) =
              before ++ [EvGatherCall o; EvGatherReturn o] ++ after).
Proof.
  destruct (updateObservers__log w) as (later & Hl & Hf).
  exists later. split; [exact Hl |].
  split; [apply gather_events_gather |].
  split; [exact Hf |].
  intros o. apply gather_events_complete.
Qed.

(** ** The refresh method *)

Lemma gather_loop_frame (this : SpiRef) (entries : MapShim ObsRef) (w : World) :
  host (gather_loop this entries w) = host w
  /\ controller (gather_loop this entries w) = controller w
  /\ refreshScheduled (gather_loop this entries w) = refreshScheduled w.
Proof.
  revert w. induction entries as [|[k r] entries IH]; intros w; cbn; [auto |].
  destruct (IH (if strict_ne (Rect.width (getContentRect (host w) (target (observation r w))))
                     (broadcastWidth (observation r w))
                   || strict_ne (Rect.height (getContentRect (host w) (target (observation r w))))
                        (broadcastHeight (observation r w))
                then push_active this r (update_observation r
                       (fun _ => snd (isActive (getContentRect (host w)) (observation r w))) w)
                else update_observation r
                       (fun _ => snd (isActive (getContentRect (host w)) (observation r w))) w))
    as (H1 & H2 & H3).
  cbn in H1, H2, H3. rewrite H1, H2, H3. destruct (_ || _); auto.
Qed.

Lemma gatherActive_frame (this : SpiRef) (w : World) :
  host (gatherActive this w) = host w
  /\ controller (gatherActive this w) = controller w
  /\ refreshScheduled (gatherActive this w) = refreshScheduled w.
Proof.
  unfold gatherActive. cbn.
  destruct (gather_loop_frame this
              (observations_ (spi this (clearActive this (emit (EvGatherCall this) w))))
              (clearActive this (emit (EvGatherCall this) w))) as (H1 & H2 & H3).
  rewrite H1, H2, H3. auto.
Qed.

Lemma gather_filter_frame (observers : list SpiRef) (w : World) :
  host (snd (gather_filter observers w)) = host w
  /\ controller (snd (gather_filter observers w)) = controller w
  /\ refreshScheduled (snd (gather_filter observers w)) = refreshScheduled w.
Proof.
  revert w. induction observers as [|o observers IH]; intros w; cbn [gather_filter snd]; [auto |].
  specialize (IH (gatherActive o w)).
  destruct (gather_filter observers (gatherActive o w)) as [active w'].
  cbn [snd] in *. destruct (gatherActive_frame o w) as (H1 & H2 & H3).
  destruct IH as (I1 & I2 & I3). rewrite I1, I2, I3. auto.
Qed.

Lemma gather_loop_other (this o : SpiRef) (entries : MapShim ObsRef) (w : World) :
  o <> this -> spi o (gather_loop this entries w) = spi o w.
Proof.
  intros Hne. revert w.
  induction entries as [|[k r] entries IH]; intros w; cbn [gather_loop]; [reflexivity |].
  unfold isActive_at. destruct (isActive _ _) as [b ob]. rewrite IH.
  destruct b; [| reflexivity].
  unfold push_active. now rewrite spi_update_spi_ne by congruence.
Qed.

Lemma gatherActive_other (this o : SpiRef) (w : World) :
  o <> this -> spi o (gatherActive this w) = spi o w.
Proof.
  intros Hne. unfold gatherActive.
  change (spi o (emit (EvGatherReturn this) ?w)) with (spi o w).
  rewrite gather_loop_other by assumption.
  unfold clearActive. now rewrite spi_update_spi_ne by congruence.
Qed.

Lemma gather_filter_other (observers : list SpiRef) (o : SpiRef) (w : World) :
  o ∉ observers -> spi o (snd (gather_filter observers w)) = spi o w.
Proof.
  revert w. induction observers as [|o' observers IH]; intros w Hn;
    cbn [gather_filter snd]; [reflexivity |].
  specialize (IH (gatherActive o' w)).
  destruct (gather_filter observers (gatherActive o' w)) as [active w'].
  cbn [snd] in *. rewrite IH by (intros ?; apply Hn, elem_of_cons; auto).
  apply gatherActive_other. intros ->. apply Hn, elem_of_cons. auto.
Qed.

(** When the filter of the gather pass keeps no observer, no observer of
    the list has an active observation once the pass is over. *)
Lemma gather_filter_none (observers : list SpiRef) (w : World) :
  fst (gather_filter observers w) = [] ->
  Forall (fun o => hasActive o (snd (gather_filter observers w)) = false) observers.
Proof.
  revert w. induction observers as [|o observers IH]; intros w Hnone;
    cbn [gather_filter fst snd] in *; [constructor |].
  specialize (IH (gatherActive o w)).
  pose proof (gather_filter_other observers o (gatherActive o w)) as Hother.
  destruct (gather_filter observers (gatherActive o w)) as [active w'].
  cbn [fst snd] in *.
  destruct (hasActive o (gatherActive o w)) eqn:Hkeep; [discriminate |].
  specialize (IH Hnone). constructor; [| exact IH].
  destruct (decide (o ∈ observers)) as [Hin|Hout].
  - pose proof (proj1 (Forall_forall _ _) IH) as Hall. now apply Hall.
  - unfold hasActive in *. now rewrite Hother.
Qed.

(** C5: when the gather pass of a [refresh] finds no observer with active
    observations, the refresh method returns normally in the state the gather
    pass has left, in which no observer of the list has an active
    observation: the log has grown by that one gather pass and nothing else
    (no [broadcastActive], no callback, no call of [refresh]), and nothing
    has been scheduled. *)
Theorem refresh_without_changes (w w1 : World) :
  gather_filter (observers_ (controller w)) w = ([], w1) ->
  prototype_refresh w = Ok tt w1
  /\ Forall (fun o => hasActive o w1 = false) (observers_ (controller w))
  /\ log w1 = log w ++ gather_events (observers_ (controller w))
  /\ refreshScheduled w1 = refreshScheduled w
  /\ controller w1 = controller w
  /\ host w1 = host w.
Proof.
  intros Hg.
  pose proof (gather_filter_log (observers_ (controller w)) w) as Hl.
  pose proof (gather_filter_frame (observers_ (controller w)) w) as (H1 & H2 & H3).
  pose proof (gather_filter_none (observers_ (controller w)) w) as Hn.
  rewrite Hg in *. cbn [fst snd] in *.
  split; [| split; [apply Hn; reflexivity | auto]].
  unfold prototype_refresh, updateObservers_, bind. rewrite Hg. reflexivity.
Qed.

(** C2, as the code has it: the [this.refresh()] at the end of the refresh
    method is the throttled [refresh].  One run of the method makes one gather
    pass and no more; when the pass has detected changes the method ends with
    one call of the throttled entry point, after which an execution is
    scheduled (a delay after now when none was pending, and the timer of the
    throttle does nothing before that); without changes it just returns, and an
    exception of a callback passes through. *)
Theorem prototype_refresh_continuation (w : World) :
  (exists later,
      log (world_of (prototype_refresh w)) =
        log w ++ gather_events (observers_ (controller w)) ++ later
      /\ Forall (fun e => ~ is_gather e) later)
  /\ match updateObservers_ w with
     | Ok true w1 =>
         prototype_refresh w = Ok tt (refresh w1)
         /\ log (refresh w1) = log w1 ++ [EvThrottledRefresh]
         /\ match refreshScheduled w1 with
            | Some due => refreshScheduled (refresh w1) = Some due
            | None =>
                refreshScheduled (refresh w1) = Some (clock (host w1) + REFRESH_DELAY)%nat
                /\ throttle_timer (refresh w1) = Ok tt (refresh w1)
            end
     | Ok false w1 => prototype_refresh w = Ok tt w1
     | Throw e w1 => prototype_refresh w = Throw e w1
     end.
Proof.
  split.
  - destruct (updateObservers__log w) as (later & Hl & Hf).
    unfold prototype_refresh, bind.
    destruct (updateObservers_ w) as [[|] w1|e w1]; cbn [world_of lift ret] in *.
    + exists (later ++ [EvThrottledRefresh]). split.
      * rewrite refresh_log, Hl, <- !app_assoc. reflexivity.
      * apply Forall_app. split; [assumption |]. repeat constructor. cbn. tauto.
    + exists later. auto.
    + exists later. auto.
  - unfold prototype_refresh, bind.
    destruct (updateObservers_ w) as [[|] w1|e w1]; cbn [lift ret]; try reflexivity.
    split; [reflexivity |]. split; [apply refresh_log |].
    destruct (refreshScheduled w1) eqn:Hs;
      unfold refresh, throttle_call, throttle_timer; cbn; rewrite Hs; cbn; [exact Hs |].
    split; [reflexivity |].
    replace (clock (host w1) + REFRESH_DELAY <=? clock (host w1))%nat with false;
      [reflexivity |].
    symmetry. apply Nat.leb_gt. unfold REFRESH_DELAY. lia.
Qed.

(** C2 as the specification states it (the continuation bypasses the
    throttle and passes follow each other until convergence) fails on
    [widening_world], whose callback calls no method of the observer: the
    refresh method makes one pass (gather, broadcast, callback), hands the
    continuation to the throttled [refresh], which is the last event of the
    run, and returns.  The next execution is scheduled for one delay later and
    the timer does nothing before; yet the state has not converged, since a
    gather pass would find observer 0 active again. *)
Lemma refresh_continuation_is_throttled :
  exists w',
    prototype_refresh widening_world = Ok tt w'
    /\ log w' = log widening_world ++
         [EvGatherCall 0%nat; EvGatherReturn 0%nat; EvBroadcastCall 0%nat;
          EvCallback 0%nat [mkEntry 7%nat (createRectInit 0 0 100 50)];
          EvThrottledRefresh]
    /\ clock (host w') = 20%nat
    /\ refreshScheduled w' = Some 40%nat
    /\ throttle_timer w' = Ok tt w'
    /\ fst (gather_filter (observers_ (controller w')) w') = [0%nat].
Proof.
  exists (world_of (prototype_refresh widening_world)).
  split; [vm_compute; reflexivity |].
  split; [vm_compute; reflexivity |].
  split; [vm_compute; reflexivity |].
  split; [vm_compute; reflexivity |].
  split; vm_compute; reflexivity.
Qed.

(** [refresh_without_changes] on [still_world]. *)
Lemma refresh_without_changes_witness :
  gather_filter (observers_ (controller still_world)) still_world =
    ([], snd (gather_filter (observers_ (controller still_world)) still_world))
  /\ prototype_refresh still_world =
       Ok tt (snd (gather_filter (observers_ (controller still_world)) still_world)).
Proof.
  split; [vm_compute; reflexivity |].
  apply (refresh_without_changes still_world
           (snd (gather_filter (observers_ (controller still_world)) still_world))).
  vm_compute; reflexivity.
Defined.

(** ** Broadcasting *)

Lemma observation_update (r r0 : ObsRef) (f : ResizeObservation -> ResizeObservation)
    (w : World) :
  observation r (update_observation r0 f w) =
  if decide (r0 = r /\ (r0 < length (heap w))%nat) then f (observation r0 w)
  else observation r w.
Proof. unfold observation, update_observation. cbn. apply list_lookup_total_alter. Qed.

Lemma broadcast_entries_frame (active : list ObsRef) (w : World) :
  let w' := snd (broadcast_entries active w) in
  spis w' = spis w /\ host w' = host w /\ controller w' = controller w
  /\ refreshScheduled w' = refreshScheduled w
  /\ length (heap w') = length (heap w).
Proof.
  revert w. induction active as [|r active IH]; intros w; cbn; [auto 6 |].
  specialize (IH (update_observation r
                    (fun _ => snd (broadcastRect (observation r w))) w)).
  cbn in IH. destruct (broadcast_entries active _) as [entries w']. cbn in *.
  destruct IH as (H1 & H2 & H3 & H4 & H5).
  rewrite H1, H2, H3, H4, H5, length_alter. auto 6.
Qed.

Lemma broadcast_entries_cons (r : ObsRef) (active : list ObsRef) (w : World) :
  broadcast_entries (r :: active) w =
  let w1 := update_observation r (fun _ => snd (broadcastRect (observation r w))) w in
  (mkEntry (target (observation r w)) (contentRect_ (observation r w))
     :: fst (broadcast_entries active w1),
   snd (broadcast_entries active w1)).
Proof. cbn. destruct (broadcast_entries active _). reflexivity. Qed.

Lemma broadcast_entries_commits (active : list ObsRef) (w : World) (r : ObsRef) :
  let w' := snd (broadcast_entries active w) in
  contentRect_ (observation r w') = contentRect_ (observation r w)
  /\ target (observation r w') = target (observation r w)
  /\ (r ∉ active -> observation r w' = observation r w)
  /\ (r ∈ active -> (r < length (heap w))%nat ->
      broadcastWidth (observation r w') = Rect.width (contentRect_ (observation r w))
      /\ broadcastHeight (observation r w') = Rect.height (contentRect_ (observation r w))).
Proof.
  revert w. induction active as [|r0 active IH]; intros w.
  - cbn. split; [reflexivity |]. split; [reflexivity |]. split; [reflexivity |].
    intros Hr. now apply elem_of_nil in Hr.
  - rewrite broadcast_entries_cons. cbn zeta. cbn [snd].
    set (w1 := update_observation r0 (fun _ => snd (broadcastRect (observation r0 w))) w).
    specialize (IH w1). cbn zeta in IH.
    set (w' := snd (broadcast_entries active w1)) in *.
    destruct IH as (Hc & Ht & Hout & Hin).
    assert (Hc1 : contentRect_ (observation r w1) = contentRect_ (observation r w)).
    { unfold w1. rewrite observation_update. case_decide as Hd; [| reflexivity].
      destruct Hd as [-> _]. reflexivity. }
    assert (Ht1 : target (observation r w1) = target (observation r w)).
    { unfold w1. rewrite observation_update. case_decide as Hd; [| reflexivity].
      destruct Hd as [-> _]. reflexivity. }
    assert (Hl1 : length (heap w1) = length (heap w)) by apply length_alter.
    split; [congruence |]. split; [congruence |]. split.
    + intros Hn. rewrite Hout by (intros ?; apply Hn, elem_of_cons; auto).
      unfold w1. rewrite observation_update. case_decide as Hd; [| reflexivity].
      destruct Hd as [-> _]. exfalso. apply Hn, elem_of_cons. auto.
    + intros Hr Hv. rewrite <- Hc1.
      destruct (decide (r ∈ active)) as [Ha|Ha].
      * apply Hin; [assumption | now rewrite Hl1].
      * rewrite Hout by assumption.
        apply elem_of_cons in Hr as [->|]; [| contradiction].
        unfold w1. rewrite !observation_update.
        rewrite decide_True by auto. cbn. auto.
Qed.

Lemma broadcast_entries_entries (active : list ObsRef) (w : World) :
  fst (broadcast_entries active w) = entries_of active w.
Proof.
  revert w. induction active as [|r0 active IH]; intros w; [reflexivity |].
  rewrite broadcast_entries_cons. cbn zeta. cbn [fst].
  rewrite IH. cbn [entries_of map]. f_equal. apply map_ext. intros r.
  rewrite observation_update. case_decide as Hd; [| reflexivity].
  destruct Hd as [-> _]. reflexivity.
Qed.

Lemma broadcastActive_unfold (this : SpiRef) (w : World) :
  broadcastActive this w =
  let w0 := emit (EvBroadcastCall this) w in
  if hasActive this w then
    let w1 := snd (broadcast_entries (activeObservations_ (spi this w)) w0) in
    let entries := entries_of (activeObservations_ (spi this w)) w in
    match forEach (callback_ (spi this w) entries this) run_action
            (emit (EvCallback this entries) w1) with
    | Ok _ w2 => Ok tt (clearActive this w2)
    | Throw e w2 => Throw e w2
    end
  else Ok tt w0.
Proof.
  unfold broadcastActive, bind, lift, gets, ret. cbn beta.
  change (hasActive this (emit (EvBroadcastCall this) w)) with (hasActive this w).
  destruct (hasActive this w); cbn [negb]; [| reflexivity].
  change (spi this (emit (EvBroadcastCall this) w)) with (spi this w).
  pose proof (broadcast_entries_entries (activeObservations_ (spi this w))
                (emit (EvBroadcastCall this) w)) as He.
  pose proof (broadcast_entries_frame (activeObservations_ (spi this w))
                (emit (EvBroadcastCall this) w)) as (Hs & _).
  destruct (broadcast_entries _ (emit (EvBroadcastCall this) w)) as [entries w1].
  cbn [fst snd] in *. subst entries.
  change (entries_of (activeObservations_ (spi this w)) (emit (EvBroadcastCall this) w))
    with (entries_of (activeObservations_ (spi this w)) w).
  assert (Hspi : spi this w1 = spi this w) by (unfold spi; now rewrite Hs).
  rewrite Hspi.
  destruct (forEach _ run_action _); reflexivity.
Qed.










(** ** Equations of the MapShim operations *)

Lemma getIndex_from_shift {V} (m : MapShim V) (key : Element) (k d : Z) :
  0 <= k -> 0 <= d ->
  getIndex_from m key (k + d) =
  if getIndex_from m key k =? -1 then -1 else getIndex_from m key k + d.
Proof.
  revert k. induction m as [|[k0 v0] m IH]; intros k Hk Hd; cbn; [reflexivity |].
  case_bool_decide as Hkey.
  - destruct (k =? -1) eqn:E; [apply Z.eqb_eq in E; lia | reflexivity].
  - replace (k + d + 1) with (k + 1 + d) by lia. apply IH; lia.
Qed.

Lemma getIndex_from_bounds {V} (m : MapShim V) (key : Element) (k : Z) :
  0 <= k ->
  getIndex_from m key k = -1 \/
  (k <= getIndex_from m key k < k + Z.of_nat (length m)).
Proof.
  revert k. induction m as [|[k0 v0] m IH]; intros k Hk; cbn [getIndex_from length]; [auto |].
  case_bool_decide as Hkey; [right; lia |].
  destruct (IH (k + 1) ltac:(lia)) as [H|H]; [auto | right; lia].
Qed.

Lemma getIndex_cons {V} (k0 : Element) (v0 : V) (m : MapShim V) (key : Element) :
  getIndex ((k0, v0) :: m) key =
  if bool_decide (k0 = key) then 0
  else if getIndex m key =? -1 then -1 else getIndex m key + 1.
Proof.
  unfold getIndex. cbn [getIndex_from fst]. case_bool_decide; [reflexivity |].
  apply (getIndex_from_shift m key 0 1); lia.
Qed.

Lemma map_get_cons {V} (k0 : Element) (v0 : V) (m : MapShim V) (key : Element) :
  map_get ((k0, v0) :: m) key =
  if bool_decide (k0 = key) then Some v0 else map_get m key.
Proof.
  unfold map_get. rewrite getIndex_cons. case_bool_decide; [reflexivity |].
  destruct (getIndex_from_bounds m key 0 ltac:(lia)) as [E|E]; fold (getIndex m key) in E.
  - rewrite E. reflexivity.
  - destruct (getIndex m key =? -1) eqn:E1; [apply Z.eqb_eq in E1; lia |].
    replace (getIndex m key + 1 <? 0) with false by (symmetry; apply Z.ltb_ge; lia).
    replace (getIndex m key <? 0) with false by (symmetry; apply Z.ltb_ge; lia).
    replace (Z.to_nat (getIndex m key + 1)) with (S (Z.to_nat (getIndex m key))) by lia.
    reflexivity.
Qed.

Lemma map_has_cons {V} (k0 : Element) (v0 : V) (m : MapShim V) (key : Element) :
  map_has ((k0, v0) :: m) key = bool_decide (k0 = key) || map_has m key.
Proof.
  unfold map_has. rewrite !negb_involutive, getIndex_cons.
  case_bool_decide; [reflexivity |]. cbn [orb].
  destruct (getIndex_from_bounds m key 0 ltac:(lia)) as [E|E]; fold (getIndex m key) in E.
  - rewrite E. reflexivity.
  - destruct (getIndex m key =? -1) eqn:E1; [apply Z.eqb_eq in E1; lia |].
    transitivity true; [| symmetry]; apply truthy_bitnot; lia.
Qed.

Lemma map_set_cons {V} (k0 : Element) (v0 : V) (m : MapShim V) (key : Element) (v : V) :
  map_set ((k0, v0) :: m) key v =
  if bool_decide (k0 = key) then (key, v) :: m else (k0, v0) :: map_set m key v.
Proof.
  unfold map_set. rewrite getIndex_cons. case_bool_decide; [reflexivity |].
  destruct (getIndex_from_bounds m key 0 ltac:(lia)) as [E|E]; fold (getIndex m key) in E.
  - rewrite E. reflexivity.
  - destruct (getIndex m key =? -1) eqn:E1; [apply Z.eqb_eq in E1; lia |].
    replace (truthy (bitnot (getIndex m key + 1))) with true
      by (symmetry; apply truthy_bitnot; lia).
    replace (truthy (bitnot (getIndex m key))) with true
      by (symmetry; apply truthy_bitnot; lia).
    replace (Z.to_nat (getIndex m key + 1)) with (S (Z.to_nat (getIndex m key))) by lia.
    reflexivity.
Qed.

Lemma map_delete_cons {V} (k0 : Element) (v0 : V) (m : MapShim V) (key : Element) :
  map_delete ((k0, v0) :: m) key =
  if bool_decide (k0 = key) then m else (k0, v0) :: map_delete m key.
Proof.
  unfold map_delete. rewrite getIndex_cons. case_bool_decide; [reflexivity |].
  destruct (getIndex_from_bounds m key 0 ltac:(lia)) as [E|E]; fold (getIndex m key) in E.
  - rewrite E. reflexivity.
  - destruct (getIndex m key =? -1) eqn:E1; [apply Z.eqb_eq in E1; lia |].
    replace (truthy (bitnot (getIndex m key + 1))) with true
      by (symmetry; apply truthy_bitnot; lia).
    replace (truthy (bitnot (getIndex m key))) with true
      by (symmetry; apply truthy_bitnot; lia).
    replace (Z.to_nat (getIndex m key + 1)) with (S (Z.to_nat (getIndex m key))) by lia.
    reflexivity.
Qed.

Lemma map_set_nil {V} (key : Element) (v : V) : map_set [] key v = [(key, v)].
Proof. reflexivity. Qed.

Lemma map_get_absent {V} (m : MapShim V) (key : Element) :
  key ∉ m.*1 -> map_get m key = None.
Proof.
  induction m as [|[k0 v0] m IH]; intros Hn; [reflexivity |].
  rewrite map_get_cons. cbn in Hn. rewrite elem_of_cons in Hn.
  case_bool_decide; [subst; exfalso; apply Hn; auto |].
  apply IH. intros Hin. apply Hn. auto.
Qed.



(** ** Deregistration *)




Lemma unobserve_registered (this : SpiRef) (t : Element) (w : World) :
  elementInterface (host w) = true ->
  instanceofElement (host w) t = true ->
  map_has (observations_ (spi this w)) t = true ->
  unobserve this (Some t) w =
  let w1 := set_observations_ this (fun m => map_delete m t) w in
  Ok tt (if negb (0 <? map_size (observations_ (spi this w1)))%nat
         then removeObserver this w1 else w1).
Proof.
  intros H1 H2 H3. unfold unobserve, bind, gets, ret, lift. cbn beta.
  rewrite H1. cbn [negb]. rewrite H2. cbn [negb]. rewrite H3. cbn [negb].
  cbn zeta. destruct (negb _); reflexivity.
Qed.



(** ** The theorems at work *)

(** [controller_subscriptions] on a controller with one observer. *)
Lemma controller_subscriptions_witness :
  let w := addObserver 0%nat (world_new (example_host (fun _ => createRectInit 0 0 0 0))) in
  controller_inv w
  /\ observers_ (controller (addObserver 0%nat w)) = observers_ (controller w)
  /\ observers_ (controller (addObserver 1%nat w)) = [0%nat; 1%nat]
  /\ host (addObserver 1%nat w) = host w
  /\ subscriptions (host (removeObserver 0%nat w)) = []
  /\ connected_ (controller (removeObserver 0%nat w)) = false.
Proof.
  intros w.
  assert (Hinv : controller_inv w).
  { split; [vm_compute; apply NoDup_singleton |].
    split; [vm_compute; reflexivity |].
    unfold subscriptions_match. vm_compute.
    split; [reflexivity |]. exists [0%nat]. reflexivity. }
  destruct (controller_subscriptions w 0%nat Hinv)
    as (_ & _ & Hset & _ & _ & _ & _ & Hone & Hlast & _).
  destruct (controller_subscriptions w 1%nat Hinv)
    as (_ & _ & _ & Hnew & _ & Hkeep & _).
  split; [exact Hinv |].
  split; [apply Hset; vm_compute; apply elem_of_cons; auto |].
  split.
  { apply Hnew. vm_compute. intros Hin. apply list_elem_of_singleton in Hin. discriminate. }
  split; [apply Hkeep; left; vm_compute; discriminate |].
  apply Hlast, Hone. reflexivity.
Defined.

(** [observe_twice] on a new observer. *)
Lemma observe_twice_witness :
  let w := one_observer quiet (fun _ => createRectInit 0 0 100 50) in
  (0 < length (spis w))%nat
  /\ instanceofElement (host w) 7%nat = true
  /\ exists w1,
       observe 0%nat (Some 7%nat) w = Ok tt w1
       /\ observe 0%nat (Some 7%nat) w1 = Ok tt w1.
Proof.
  intros w.
  assert (H1 : (0 < length (spis w))%nat) by (vm_compute; constructor).
  assert (H2 : instanceofElement (host w) 7%nat = true) by (vm_compute; reflexivity).
  split; [exact H1 |]. split; [exact H2 |].
  destruct (observe_twice w 0%nat 7%nat H1 H2) as (w1 & Ha & Hb & _).
  exists w1. auto.
Defined.

Example transitionend_font_size (w : World) :
  onTransitionEnd_ (mkTransitionEvent (Some "font-size"%string)) w = refresh w.
Proof. reflexivity. Qed.

Example transitionend_border_top_width (w : World) :
  onTransitionEnd_ (mkTransitionEvent (Some "border-top-width"%string)) w = refresh w.
Proof. reflexivity. Qed.

Example transitionend_opacity (w : World) :
  onTransitionEnd_ (mkTransitionEvent (Some "opacity"%string)) w = w.
Proof. reflexivity. Qed.

Example transitionend_without_name (w : World) :
  onTransitionEnd_ (mkTransitionEvent None) w = w.
Proof. reflexivity. Qed.

(** A resize from 0 by 0 to 100 by 50 is reported once: the pass that the
    timer runs broadcasts it, the following one finds nothing. *)
Example one_notification :
  let w := set_refreshScheduled None
             (elapse REFRESH_DELAY (observing quiet (fun _ => createRectInit 0 0 100 50) 7%nat)) in
  let w1 := world_of (prototype_refresh w) in
  let w2 := world_of (throttle_timer (elapse REFRESH_DELAY w1)) in
  log w1 = log w ++
    [EvGatherCall 0%nat; EvGatherReturn 0%nat; EvBroadcastCall 0%nat;
     EvCallback 0%nat [mkEntry 7%nat (createRectInit 0 0 100 50)]; EvThrottledRefresh]
  /\ log w2 = log w1 ++ [EvGatherCall 0%nat; EvGatherReturn 0%nat]
  /\ refreshScheduled w2 = None.
Proof.
  split; [vm_compute; reflexivity |].
  split; vm_compute; reflexivity.
Qed.

(** * Further properties of the code *)

(** ** The MapShim as a map *)

(** X1: [getIndex] returns -1 exactly when no entry has the key, and
    otherwise the index of the first entry with that key. *)
Theorem getIndex_first {V} (m : MapShim V) (key : Element) :
  (getIndex m key = -1 /\ key ∉ m.*1)
  \/ exists (i : nat) (v : V),
       getIndex m key = Z.of_nat i
       /\ m !! i = Some (key, v)
       /\ forall (j : nat) e, (j < i)%nat -> m !! j = Some e -> fst e <> key.
Proof.
  induction m as [|[k0 v0] m IH].
  - left. split; [reflexivity | apply not_elem_of_nil].
  - rewrite getIndex_cons. case_bool_decide as Hk.
    + subst. right. exists 0%nat, v0. split; [reflexivity |]. split; [reflexivity |].
      intros j e Hj. lia.
    + destruct IH as [[E Hn]|(i & v & E & Hi & Hfirst)].
      * left. rewrite E. split; [reflexivity |]. cbn. rewrite elem_of_cons.
        intros [->|Hin]; [congruence | contradiction].
      * right. exists (S i), v. rewrite E.
        destruct (Z.of_nat i =? -1) eqn:E1; [apply Z.eqb_eq in E1; lia |].
        split; [lia |]. split; [exact Hi |].
        intros [|j] e Hj He; cbn in He.
        -- injection He as <-. exact Hk.
        -- eapply Hfirst; [| exact He]. lia.
Qed.

(** X2: after [set(key, value)], [get(key)] returns that value and [get]
    of every other key returns what it returned before. *)
Theorem map_get_set {V} (m : MapShim V) (key key' : Element) (v : V) :
  map_get (map_set m key v) key' =
  if bool_decide (key = key') then Some v else map_get m key'.
Proof.
  induction m as [|[k0 v0] m IH].
  - rewrite map_set_nil, map_get_cons. reflexivity.
  - rewrite map_set_cons. destruct (bool_decide (k0 = key)) eqn:Hk.
    + apply bool_decide_eq_true in Hk. subst. rewrite !map_get_cons.
      case_bool_decide; reflexivity.
    + apply bool_decide_eq_false in Hk. rewrite !map_get_cons, IH.
      repeat case_bool_decide; congruence.
Qed.

(** X3: [set] on a key that is present replaces the value in place: the
    keys, their order and the size stay; on an absent key it appends the key
    at the end.  So keys that were unique stay unique. *)
Theorem map_set_keys {V} (m : MapShim V) (key : Element) (v : V) :
  (map_set m key v).*1 = (if map_has m key then m.*1 else m.*1 ++ [key])
  /\ map_size (map_set m key v) =
       (if map_has m key then map_size m else S (map_size m))
  /\ (NoDup m.*1 -> NoDup (map_set m key v).*1).
Proof.
  assert (Hkeys : (map_set m key v).*1 = (if map_has m key then m.*1 else m.*1 ++ [key])).
  { induction m as [|[k0 v0] m IH]; [reflexivity |].
    rewrite map_set_cons, map_has_cons. case_bool_decide as Hk.
    - subst. reflexivity.
    - cbn [orb]. cbn [fmap list_fmap fst]. rewrite IH.
      destruct (map_has m key); reflexivity. }
  split; [exact Hkeys |]. split.
  - unfold map_size. rewrite <- !(length_fmap fst), Hkeys.
    destruct (map_has m key); [reflexivity |]. rewrite length_app. cbn. lia.
  - intros Hnd. rewrite Hkeys. destruct (map_has m key) eqn:Hh; [exact Hnd |].
    apply NoDup_app. split; [exact Hnd |]. split; [| apply NoDup_singleton].
    intros x Hx Hx'. apply list_elem_of_singleton in Hx'. subst.
    apply map_has_spec in Hx. congruence.
Qed.

(** X4: on a map with unique keys, after [delete(key)] the key is absent,
    every other key reads as before, the keys are still unique, and the size
    has dropped by one exactly when the key was present. *)
Theorem map_get_delete {V} (m : MapShim V) (key key' : Element) :
  NoDup m.*1 ->
  map_get (map_delete m key) key' =
    (if bool_decide (key = key') then None else map_get m key')
  /\ NoDup (map_delete m key).*1
  /\ map_size m =
       (if map_has m key then S (map_size (map_delete m key))
        else map_size (map_delete m key)).
Proof.
  induction m as [|[k0 v0] m IH]; intros Hnd.
  - split; [| split; [constructor | reflexivity]].
    cbn. case_bool_decide; reflexivity.
  - cbn in Hnd. apply NoDup_cons in Hnd as [Hk0 Hnd].
    destruct (IH Hnd) as (Hget & Hnd' & Hsize).
    rewrite map_delete_cons, map_has_cons. destruct (decide (k0 = key)) as [->|Hk].
    + rewrite (bool_decide_eq_true_2 (key = key)) by reflexivity. cbn [orb].
      split; [| split; [exact Hnd | reflexivity]].
      rewrite map_get_cons. destruct (decide (key = key')) as [<-|Hk'].
      * rewrite bool_decide_eq_true_2 by reflexivity. now apply map_get_absent.
      * rewrite !bool_decide_eq_false_2 by assumption. reflexivity.
    + rewrite (bool_decide_eq_false_2 (k0 = key)) by assumption.
      cbn [orb]. split; [| split].
      * rewrite !map_get_cons, Hget. repeat case_bool_decide; congruence.
      * cbn. apply NoDup_cons. split; [| exact Hnd'].
        intros Hin. apply Hk0.
        assert (Hsub : (map_delete m key).*1 ⊆ m.*1).
        { unfold map_delete. destruct (truthy _); [| reflexivity].
          unfold MapShim in *. rewrite list_fmap_delete.
          apply sublist_subseteq, sublist_delete. }
        now apply Hsub.
      * unfold map_size in *. cbn [length]. rewrite Hsize.
        destruct (map_has m key); reflexivity.
Qed.

(** X5: [has(key)] is true exactly when [get(key)] finds a value, and a
    value that [get] returns belongs to an entry with that key; on an absent
    key [delete] changes nothing, and after [clear] no key is present. *)
Theorem map_has_get {V} (m : MapShim V) (key : Element) :
  (map_has m key = true <-> is_Some (map_get m key))
  /\ (forall v, map_get m key = Some v -> (key, v) ∈ m)
  /\ (map_has m key = false -> map_delete m key = m)
  /\ map_has (map_clear m) key = false
  /\ map_size (map_clear m) = 0%nat.
Proof.
  split; [| split; [| split; [| split; reflexivity]]].
  - induction m as [|[k0 v0] m IH].
    + cbn. split; [discriminate | intros [x Hx]; discriminate].
    + rewrite map_has_cons, map_get_cons. case_bool_decide; cbn [orb]; [| exact IH].
      split; eauto.
  - induction m as [|[k0 v0] m IH]; intros v.
    + discriminate.
    + rewrite map_get_cons. case_bool_decide as Hk.
      * intros [= <-]. subst. apply elem_of_cons. auto.
      * intros H. apply elem_of_cons. right. now apply IH.
  - unfold map_has, map_delete. rewrite negb_involutive. now intros ->.
Qed.

(** [map_get_delete] on a map with two entries. *)
Lemma map_get_delete_witness :
  NoDup ([(1%nat, 10); (2%nat, 20)] : MapShim Z).*1
  /\ map_get (map_delete [(1%nat, 10); (2%nat, 20)] 1%nat) 1%nat = None
  /\ map_get (map_delete [(1%nat, 10); (2%nat, 20)] 1%nat) 2%nat = Some 20.
Proof.
  assert (Hnd : NoDup ([(1%nat, 10); (2%nat, 20)] : MapShim Z).*1).
  { cbn. apply NoDup_cons. split; [| apply NoDup_singleton].
    intros H. apply list_elem_of_singleton in H. discriminate. }
  split; [exact Hnd |].
  split.
  - exact (proj1 (map_get_delete [(1%nat, 10); (2%nat, 20)] 1%nat 1%nat Hnd)).
  - exact (proj1 (map_get_delete [(1%nat, 10); (2%nat, 20)] 1%nat 2%nat Hnd)).
Defined.

(** ** Well-formed worlds stay well formed *)

Lemma targets_kept_length (h h' : list ResizeObservation) (r : nat) :
  targets_kept h h' -> (r < length h)%nat -> (r < length h')%nat.
Proof.
  intros Hk Hr. apply lookup_lt_is_Some_2 in Hr as [o Ho].
  destruct (Hk r o Ho) as (o' & Ho' & _). now apply lookup_lt_Some in Ho'.
Qed.

Lemma targets_kept_alter (f : ResizeObservation -> ResizeObservation) (r : nat)
    (h : list ResizeObservation) :
  (forall o, target (f o) = target o) -> targets_kept h (alter f r h).
Proof.
  intros Hf r' o Ho. rewrite list_lookup_alter. case_decide as Hd.
  - subst. rewrite Ho. cbn. eauto.
  - eauto.
Qed.

Lemma targets_kept_app (h added : list ResizeObservation) : targets_kept h (h ++ added).
Proof. intros r o Ho. exists o. split; [now apply lookup_app_l_Some | reflexivity]. Qed.

Lemma spi_wf_heap (h h' : list ResizeObservation) (s : ResizeObserverSPI) :
  targets_kept h h' -> spi_wf h s -> spi_wf h' s.
Proof.
  intros Hk (Hnd & Hreg & Hact). split; [exact Hnd |]. split.
  - intros t r Hin. destruct (Hreg t r Hin) as (o & Ho & Ht).
    destruct (Hk r o Ho) as (o' & Ho' & Ht'). exists o'. split; [exact Ho' | congruence].
  - intros r Hin. eapply targets_kept_length; eauto.
Qed.

Lemma world_wf_heap (w w' : World) :
  spis w' = spis w -> targets_kept (heap w) (heap w') -> world_wf w -> world_wf w'.
Proof.
  intros Hs Hk Hwf. unfold world_wf in *. rewrite Hs.
  eapply Forall_impl; [exact Hwf |]. intros s. now apply spi_wf_heap.
Qed.

Lemma world_wf_same (w w' : World) :
  spis w' = spis w -> heap w' = heap w -> world_wf w -> world_wf w'.
Proof. intros Hs Hh. unfold world_wf. now rewrite Hs, Hh. Qed.

Lemma world_wf_frame (w w' : World) : controller_frame w w' -> wf_kept w w'.
Proof. intros (Hs & Hh & _). unfold wf_kept. now apply world_wf_same. Qed.

Lemma world_wf_refresh (w : World) : wf_kept w (refresh w).
Proof.
  unfold wf_kept. apply world_wf_same; unfold refresh, throttle_call;
    destruct (refreshScheduled _); reflexivity.
Qed.

Lemma world_wf_update_spi (this : SpiRef) (f : ResizeObserverSPI -> ResizeObserverSPI)
    (w : World) :
  world_wf w ->
  (forall s, spis w !! this = Some s -> spi_wf (heap w) s -> spi_wf (heap w) (f s)) ->
  world_wf (update_spi this f w).
Proof. intros Hwf Hf. unfold world_wf, update_spi. cbn. now apply Forall_alter. Qed.

Lemma world_wf_clearActive (this : SpiRef) (w : World) : wf_kept w (clearActive this w).
Proof.
  intros Hwf. apply world_wf_update_spi; [exact Hwf |].
  intros s _ (Hnd & Hreg & _). split; [exact Hnd |]. split; [exact Hreg |].
  intros r Hr. now apply elem_of_nil in Hr.
Qed.

Lemma world_wf_update_observation (r : ObsRef)
    (f : ResizeObservation -> ResizeObservation) (w : World) :
  (forall o, target (f o) = target o) -> wf_kept w (update_observation r f w).
Proof.
  intros Hf. unfold wf_kept. apply world_wf_heap; [reflexivity |].
  now apply targets_kept_alter.
Qed.

Lemma spi_lookup (this : SpiRef) (s : ResizeObserverSPI) (w : World) :
  spis w !! this = Some s -> spi this w = s.
Proof. intros H. unfold spi. now apply list_lookup_total_correct. Qed.

Lemma spi_invalid (this : SpiRef) (w : World) :
  spis w !! this = None -> spi this w = mkSPI [] (fun _ _ => []) [].
Proof.
  intros H. unfold spi. rewrite list_lookup_total_alt.
  unfold SpiRef in *. now rewrite H.
Qed.

(** What [observe] can do to the world. *)
Lemma observe_cases (this : SpiRef) (arg : option Element) (w : World) :
  world_of (observe this arg w) = w
  \/ exists t,
       arg = Some t
       /\ elementInterface (host w) = true
       /\ instanceofElement (host w) t = true
       /\ map_has (observations_ (spi this w)) t = false
       /\ observe this arg w =
            Ok tt (refresh (addObserver this
              (set_observations_ this (fun m => map_set m t (length (heap w)))
                 (snd (alloc_observation t w))))).
Proof.
  destruct arg as [t|]; [| left; reflexivity].
  destruct (elementInterface (host w)) eqn:H1.
  2: { left. unfold observe, bind, gets, ret. cbn beta. rewrite H1. reflexivity. }
  destruct (instanceofElement (host w) t) eqn:H2.
  2: { left. unfold observe, bind, gets, ret, throw. cbn beta.
       rewrite H1. cbn [negb]. rewrite H2. reflexivity. }
  destruct (map_has (observations_ (spi this w)) t) eqn:H3.
  - left. now rewrite observe_registered.
  - right. exists t. rewrite observe_new by assumption. auto 6.
Qed.

(** What [unobserve] can do to the world. *)
Lemma unobserve_cases (this : SpiRef) (arg : option Element) (w : World) :
  world_of (unobserve this arg w) = w
  \/ exists t,
       arg = Some t
       /\ elementInterface (host w) = true
       /\ instanceofElement (host w) t = true
       /\ map_has (observations_ (spi this w)) t = true
       /\ unobserve this arg w =
            let w1 := set_observations_ this (fun m => map_delete m t) w in
            Ok tt (if negb (0 <? map_size (observations_ (spi this w1)))%nat
                   then removeObserver this w1 else w1).
Proof.
  destruct arg as [t|]; [| left; reflexivity].
  destruct (elementInterface (host w)) eqn:H1.
  2: { left. unfold unobserve, bind, gets, ret. cbn beta. rewrite H1. reflexivity. }
  destruct (instanceofElement (host w) t) eqn:H2.
  2: { left. unfold unobserve, bind, gets, ret, throw. cbn beta.
       rewrite H1. cbn [negb]. rewrite H2. reflexivity. }
  destruct (map_has (observations_ (spi this w)) t) eqn:H3.
  - right. exists t. rewrite unobserve_registered by assumption. auto 6.
  - left. unfold unobserve, bind, gets, ret. cbn beta.
    rewrite H1. cbn [negb]. rewrite H2. cbn [negb]. rewrite H3. reflexivity.
Qed.

Lemma world_wf_observe (this : SpiRef) (arg : option Element) (w : World) :
  wf_kept w (world_of (observe this arg w)).
Proof.
  intros Hwf. destruct (observe_cases this arg w) as [->|(t & _ & _ & _ & Hhas & ->)];
    [exact Hwf |].
  cbn [world_of]. apply world_wf_refresh.
  eapply world_wf_frame; [apply addObserver_frame |].
  unfold set_observations_. apply world_wf_update_spi.
  - eapply world_wf_heap; [| | exact Hwf]; [reflexivity |]. apply targets_kept_app.
  - cbn [alloc_observation snd set_heap heap spis]. intros s Hs (Hnd & Hreg & Hact).
    apply spi_lookup in Hs. rewrite <- Hs.
    change (spi this (set_heap _ w)) with (spi this w).
    rewrite map_set_absent by exact Hhas. rewrite Hs in Hhas |- *.
    split; [| split].
    + cbn. rewrite fmap_app. apply NoDup_app. split; [exact Hnd |].
      split; [| apply NoDup_singleton].
      intros x Hx Hx'. apply list_elem_of_singleton in Hx'. subst.
      cbn in Hx. apply map_has_spec in Hx. congruence.
    + cbn. intros t' r [Hin|Hin]%elem_of_app.
      * apply (Hreg t' r Hin).
      * apply list_elem_of_singleton in Hin. injection Hin as -> ->.
        exists (ResizeObservation_new t). split; [| reflexivity].
        rewrite lookup_app_r by lia. now rewrite Nat.sub_diag.
    + cbn. exact Hact.
Qed.

Lemma map_delete_sublist {V} (m : MapShim V) (key : Element) :
  map_delete m key `sublist_of` m.
Proof. unfold map_delete. destruct (truthy _); [apply sublist_delete | reflexivity]. Qed.

Lemma world_wf_deregister (this : SpiRef) (t : Element) (w : World) :
  wf_kept w (set_observations_ this (fun m => map_delete m t) w).
Proof.
  intros Hwf. apply world_wf_update_spi; [exact Hwf |].
  intros s _ (Hnd & Hreg & Hact). cbn. split; [| split; [| exact Hact]].
  - eapply sublist_NoDup; [exact Hnd |]. unfold MapShim in *.
    apply fmap_sublist, map_delete_sublist.
  - intros t' r Hin. apply (Hreg t' r).
    eapply sublist_subseteq; [apply map_delete_sublist | exact Hin].
Qed.

Lemma world_wf_unobserve (this : SpiRef) (arg : option Element) (w : World) :
  wf_kept w (world_of (unobserve this arg w)).
Proof.
  intros Hwf. destruct (unobserve_cases this arg w) as [->|(t & _ & _ & _ & _ & ->)];
    [exact Hwf |].
  cbn zeta. cbn [world_of].
  pose proof (world_wf_deregister this t w Hwf) as Hwf1.
  destruct (negb _); [| exact Hwf1].
  eapply world_wf_frame; [apply removeObserver_frame | exact Hwf1].
Qed.

Lemma world_wf_disconnect (this : SpiRef) (w : World) : wf_kept w (disconnect this w).
Proof.
  intros Hwf. unfold disconnect.
  eapply world_wf_frame; [apply removeObserver_frame |].
  apply world_wf_update_spi; [now apply world_wf_clearActive |].
  intros s _ (_ & _ & Hact). cbn. split; [constructor |]. split; [| exact Hact].
  intros t r Hin. now apply elem_of_nil in Hin.
Qed.

Lemma world_wf_script (script : list Action) :
  preserves wf_kept (forEach script run_action).
Proof.
  apply preserves_forEach.
  - intros w Hwf. exact Hwf.
  - intros w1 w2 w3 H1 H2 Hwf. auto.
  - intros a _ w. destruct a; cbn [run_action].
    + apply world_wf_observe.
    + apply world_wf_unobserve.
    + apply world_wf_disconnect.
    + intros Hwf. revert Hwf. now apply world_wf_same.
    + intros Hwf. exact Hwf.
Qed.

Lemma world_wf_rewrite_observation (g : ResizeObservation -> ResizeObservation)
    (r : ObsRef) (w : World) :
  (forall o, target (g o) = target o) ->
  wf_kept w (update_observation r (fun _ => g (observation r w)) w).
Proof.
  intros Hg. unfold wf_kept. apply world_wf_heap; [reflexivity |].
  intros r' o Ho. cbn. rewrite list_lookup_alter. case_decide as Hd; [| eauto].
  subst r'. rewrite Ho. cbn. eexists. split; [reflexivity |].
  unfold observation. rewrite (list_lookup_total_correct _ _ _ Ho). apply Hg.
Qed.

Lemma isActive_at_world (r : ObsRef) (w : World) :
  snd (isActive_at r w) =
  update_observation r
    (fun _ => snd (isActive (getContentRect (host w)) (observation r w))) w.
Proof. reflexivity. Qed.

Lemma world_wf_isActive_at (r : ObsRef) (w : World) : wf_kept w (snd (isActive_at r w)).
Proof.
  rewrite isActive_at_world.
  apply (world_wf_rewrite_observation
           (fun o => snd (isActive (getContentRect (host w)) o))).
  reflexivity.
Qed.

Lemma world_wf_push_active (this : SpiRef) (r : ObsRef) (w : World) :
  (r < length (heap w))%nat -> wf_kept w (push_active this r w).
Proof.
  intros Hr Hwf. apply world_wf_update_spi; [exact Hwf |].
  intros s _ (Hnd & Hreg & Hact). split; [exact Hnd |]. split; [exact Hreg |].
  cbn. intros r' [Hin|Hin]%elem_of_app; [now apply Hact |].
  apply list_elem_of_singleton in Hin. now subst.
Qed.

Lemma gather_loop_step (this : SpiRef) (k : Element) (r : ObsRef)
    (entries : MapShim ObsRef) (w : World) :
  gather_loop this ((k, r) :: entries) w =
  gather_loop this entries
    (if fst (isActive_at r w) then push_active this r (snd (isActive_at r w))
     else snd (isActive_at r w)).
Proof. reflexivity. Qed.

Lemma world_wf_gather_loop (this : SpiRef) (entries : MapShim ObsRef) (w : World) :
  Forall (fun e => (snd e < length (heap w))%nat) entries ->
  wf_kept w (gather_loop this entries w).
Proof.
  revert w. induction entries as [|[k r] entries IH]; intros w Hvalid Hwf; [exact Hwf |].
  rewrite gather_loop_step. apply Forall_cons in Hvalid as [Hr Hvalid]. cbn in Hr.
  pose proof (world_wf_isActive_at r w Hwf) as Hwf1.
  assert (Hlen : length (heap (snd (isActive_at r w))) = length (heap w))
    by apply length_alter.
  apply IH.
  - destruct (fst (isActive_at r w)); cbn [push_active update_spi set_spis heap];
      now rewrite Hlen.
  - destruct (fst (isActive_at r w)); [| exact Hwf1].
    apply world_wf_push_active; [now rewrite Hlen | exact Hwf1].
Qed.

Lemma registry_valid (this : SpiRef) (w : World) :
  world_wf w ->
  Forall (fun e => (snd e < length (heap w))%nat) (observations_ (spi this w)).
Proof.
  intros Hwf. destruct (spis w !! this) as [s|] eqn:Hs.
  - rewrite (spi_lookup _ _ _ Hs).
    destruct (Forall_lookup_1 _ _ _ _ Hwf Hs) as (_ & Hreg & _).
    apply Forall_forall. intros [t r] Hin. cbn.
    destruct (Hreg t r Hin) as (o & Ho & _). now apply lookup_lt_Some in Ho.
  - rewrite (spi_invalid _ _ Hs). constructor.
Qed.

Lemma world_wf_gatherActive (this : SpiRef) (w : World) : wf_kept w (gatherActive this w).
Proof.
  intros Hwf. unfold gatherActive.
  assert (Hwf1 : world_wf (clearActive this (emit (EvGatherCall this) w))).
  { apply world_wf_clearActive. exact Hwf. }
  change (world_wf (gather_loop this
            (observations_ (spi this (clearActive this (emit (EvGatherCall this) w))))
            (clearActive this (emit (EvGatherCall this) w)))).
  apply world_wf_gather_loop; [| exact Hwf1]. now apply registry_valid.
Qed.

Lemma world_wf_broadcast_entries (active : list ObsRef) (w : World) :
  wf_kept w (snd (broadcast_entries active w)).
Proof.
  revert w. induction active as [|r active IH]; intros w Hwf; [exact Hwf |].
  rewrite broadcast_entries_cons. cbn zeta. cbn [snd]. apply IH.
  apply (world_wf_rewrite_observation (fun o => snd (broadcastRect o))); [| exact Hwf].
  reflexivity.
Qed.

Lemma world_wf_broadcastActive (this : SpiRef) :
  preserves wf_kept (broadcastActive this).
Proof.
  intros w Hwf. rewrite broadcastActive_unfold. cbn zeta.
  destruct (hasActive this w); [| exact Hwf].
  set (w1 := snd (broadcast_entries _ _)).
  assert (Hwf1 : world_wf w1) by (apply world_wf_broadcast_entries; exact Hwf).
  set (entries := entries_of _ w).
  pose proof (world_wf_script (callback_ (spi this w) entries this)
                (emit (EvCallback this entries) w1) Hwf1) as Hwf2.
  destruct (forEach _ run_action _) as [u w2|e w2]; cbn [world_of] in *; [| exact Hwf2].
  now apply world_wf_clearActive.
Qed.

Lemma world_wf_gather_filter (observers : list SpiRef) (w : World) :
  wf_kept w (snd (gather_filter observers w)).
Proof.
  revert w. induction observers as [|o observers IH]; intros w Hwf;
    cbn [gather_filter snd]; [exact Hwf |].
  specialize (IH (gatherActive o w) (world_wf_gatherActive o w Hwf)).
  destruct (gather_filter observers (gatherActive o w)). exact IH.
Qed.

Lemma world_wf_updateObservers_ : preserves wf_kept updateObservers_.
Proof.
  assert (Hrefl : forall w, wf_kept w w) by (intros w H; exact H).
  assert (Htrans : forall w1 w2 w3, wf_kept w1 w2 -> wf_kept w2 w3 -> wf_kept w1 w3)
    by (intros w1 w2 w3 H1 H2 H; auto).
  unfold updateObservers_.
  apply preserves_bind; [exact Htrans | | intros active].
  - intros w Hwf. pose proof (world_wf_gather_filter (observers_ (controller w)) w Hwf) as H.
    destruct (gather_filter _ w). exact H.
  - apply preserves_bind; [exact Htrans | | intros _; now apply preserves_ret].
    apply preserves_forEach; [exact Hrefl | exact Htrans |].
    intros o _. apply world_wf_broadcastActive.
Qed.

Lemma world_wf_prototype_refresh : preserves wf_kept prototype_refresh.
Proof.
  unfold prototype_refresh.
  apply preserves_bind; [intros w1 w2 w3 H1 H2 H; auto | apply world_wf_updateObservers_ |].
  intros [|]; [apply preserves_lift, world_wf_refresh |].
  apply preserves_ret. intros w H. exact H.
Qed.

(** X6: the public methods keep worlds well formed, whatever their
    arguments and however they end: after [observe], [unobserve],
    [disconnect] or the creation of an observer, registry keys are unique,
    every registry entry refers to a ResizeObservation of its own target, and
    active observations are objects of the heap. *)
Theorem world_wf_methods (w : World) (this : SpiRef) (arg : option Element)
    (callback : option ResizeObserverCallback) :
  world_wf w ->
  world_wf (world_of (observe this arg w))
  /\ world_wf (world_of (unobserve this arg w))
  /\ world_wf (disconnect this w)
  /\ world_wf (world_of (ResizeObserverSPI_new callback w)).
Proof.
  intros Hwf. split; [now apply world_wf_observe |].
  split; [now apply world_wf_unobserve |].
  split; [now apply world_wf_disconnect |].
  destruct callback as [cb|]; [| exact Hwf]. cbn.
  unfold world_wf. cbn. apply Forall_app. split; [exact Hwf |].
  constructor; [| constructor]. split; [constructor |].
  split; intros ? ?; [intros Hin | ]; intros; exfalso; eapply elem_of_nil; eauto.
Qed.

(** X7: the update pass keeps worlds well formed, whatever the callbacks
    do and also when one of them throws: this holds for [gatherActive],
    [broadcastActive], [updateObservers_], the refresh method and the timer of
    the throttle. *)
Theorem world_wf_update_pass (w : World) (this : SpiRef) :
  world_wf w ->
  world_wf (gatherActive this w)
  /\ world_wf (world_of (broadcastActive this w))
  /\ world_wf (world_of (updateObservers_ w))
  /\ world_wf (world_of (prototype_refresh w))
  /\ world_wf (world_of (throttle_timer w)).
Proof.
  intros Hwf. split; [now apply world_wf_gatherActive |].
  split; [now apply world_wf_broadcastActive |].
  split; [now apply world_wf_updateObservers_ |].
  split; [now apply world_wf_prototype_refresh |].
  unfold throttle_timer. destruct (refreshScheduled w) as [due|]; [| exact Hwf].
  destruct (due <=? clock (host w))%nat; [| exact Hwf].
  apply world_wf_prototype_refresh. revert Hwf. now apply world_wf_same.
Qed.

(** [world_wf_methods] on a new observer that starts to observe element 7. *)
Lemma world_wf_methods_witness :
  let w := one_observer quiet (fun _ => createRectInit 0 0 100 50) in
  world_wf w /\ world_wf (world_of (observe 0%nat (Some 7%nat) w)).
Proof.
  intros w.
  assert (Hwf : world_wf w).
  { unfold world_wf. cbn. constructor; [| constructor].
    split; [constructor |].
    split; intros; exfalso; eapply elem_of_nil; eauto. }
  split; [exact Hwf |].
  exact (proj1 (world_wf_methods w 0%nat (Some 7%nat) None Hwf)).
Defined.

(** [world_wf_update_pass] on the world in which element 7 is observed. *)
Lemma world_wf_update_pass_witness :
  let w := observing widening (fun _ => createRectInit 0 0 100 50) 7%nat in
  world_wf w /\ world_wf (world_of (prototype_refresh w)).
Proof.
  intros w.
  assert (Hwf : world_wf w).
  { unfold world_wf.
    change (spis w) with [mkSPI [] widening [(7%nat, 0%nat)]].
    change (heap w) with [ResizeObservation_new 7%nat].
    constructor; [| constructor].
    split; [apply NoDup_singleton |]. split.
    - intros t r Hin. apply list_elem_of_singleton in Hin. injection Hin as -> ->.
      exists (ResizeObservation_new 7%nat). split; reflexivity.
    - intros r Hin. now apply elem_of_nil in Hin. }
  split; [exact Hwf |].
  exact (proj1 (proj2 (proj2 (proj2 (world_wf_update_pass w 0%nat Hwf))))).
Defined.

(** ** What a gather pass finds *)

Lemma isActive_at_observation (r r' : ObsRef) (w : World) :
  observation r' (snd (isActive_at r w)) =
  if decide (r = r' /\ (r < length (heap w))%nat)
  then snd (isActive (getContentRect (host w)) (observation r w))
  else observation r' w.
Proof. rewrite isActive_at_world. apply observation_update. Qed.

Lemma gather_loop_heap_length (this : SpiRef) (entries : MapShim ObsRef) (w : World) :
  length (heap (gather_loop this entries w)) = length (heap w)
  /\ length (spis (gather_loop this entries w)) = length (spis w).
Proof.
  revert w. induction entries as [|[k r] entries IH]; intros w; [auto |].
  rewrite gather_loop_step.
  destruct (IH (if fst (isActive_at r w) then push_active this r (snd (isActive_at r w))
                else snd (isActive_at r w))) as (H1 & H2).
  rewrite H1, H2.
  destruct (fst (isActive_at r w)); cbn; rewrite !length_alter; auto.
Qed.

Lemma gather_loop_observation (this : SpiRef) (entries : MapShim ObsRef) (w : World)
    (r : ObsRef) :
  let w' := gather_loop this entries w in
  target (observation r w') = target (observation r w)
  /\ broadcastWidth (observation r w') = broadcastWidth (observation r w)
  /\ broadcastHeight (observation r w') = broadcastHeight (observation r w)
  /\ (contentRect_ (observation r w') = contentRect_ (observation r w)
      \/ contentRect_ (observation r w') =
           getContentRect (host w) (target (observation r w)))
  /\ (r ∈ entries.*2 -> (r < length (heap w))%nat ->
      contentRect_ (observation r w') =
        getContentRect (host w) (target (observation r w))).
Proof.
  revert w. induction entries as [|[k r0] entries IH]; intros w.
  - cbn. repeat split; auto. intros Hin. now apply elem_of_nil in Hin.
  - rewrite gather_loop_step. cbn zeta.
    set (w0 := snd (isActive_at r0 w)).
    set (w1 := if fst (isActive_at r0 w) then push_active this r0 w0 else w0).
    assert (Hobs : observation r w1 = observation r w0)
      by (unfold w1; destruct (fst _); reflexivity).
    assert (Hhost : host w1 = host w)
      by (unfold w1, w0; destruct (fst _); reflexivity).
    assert (Hlen : length (heap w1) = length (heap w)).
    { unfold w1, w0. destruct (fst _); cbn; now rewrite length_alter. }
    assert (Hr : observation r w0 =
                 if decide (r0 = r /\ (r0 < length (heap w))%nat)
                 then snd (isActive (getContentRect (host w)) (observation r0 w))
                 else observation r w) by apply isActive_at_observation.
    destruct (IH w1) as (Ht & Hbw & Hbh & Hc & Hm). cbn zeta in *.
    rewrite Hobs, Hhost in *.
    assert (Ht0 : target (observation r w0) = target (observation r w)).
    { rewrite Hr. case_decide as Hd; [destruct Hd as [-> _] |]; reflexivity. }
    assert (Hbw0 : broadcastWidth (observation r w0) = broadcastWidth (observation r w)).
    { rewrite Hr. case_decide as Hd; [destruct Hd as [-> _] |]; reflexivity. }
    assert (Hbh0 : broadcastHeight (observation r w0) = broadcastHeight (observation r w)).
    { rewrite Hr. case_decide as Hd; [destruct Hd as [-> _] |]; reflexivity. }
    assert (Hc0 : contentRect_ (observation r w0) = contentRect_ (observation r w)
                  \/ contentRect_ (observation r w0) =
                       getContentRect (host w) (target (observation r w))).
    { rewrite Hr. case_decide as Hd; [destruct Hd as [-> _]; right |left]; reflexivity. }
    rewrite Ht0 in *.
    split; [congruence |]. split; [congruence |]. split; [congruence |]. split.
    + destruct Hc as [Hc|Hc]; [rewrite Hc; exact Hc0 | right; exact Hc].
    + intros Hin Hv. cbn in Hin. apply elem_of_cons in Hin.
      destruct (decide (r ∈ entries.*2)) as [Hin'|Hout].
      * apply Hm; [exact Hin' | now rewrite Hlen].
      * destruct Hin as [->|Hin]; [| contradiction].
        destruct Hc as [Hc|Hc]; [| exact Hc]. rewrite Hc, Hr.
        rewrite decide_True by auto. reflexivity.
Qed.

Lemma changed_stable (w w' : World) (r : ObsRef) :
  host w' = host w ->
  target (observation r w') = target (observation r w) ->
  broadcastWidth (observation r w') = broadcastWidth (observation r w) ->
  broadcastHeight (observation r w') = broadcastHeight (observation r w) ->
  changed w' r = changed w r.
Proof. intros H1 H2 H3 H4. unfold changed, isActive. cbn. now rewrite H1, H2, H3, H4. Qed.

Lemma gather_loop_spi (this : SpiRef) (entries : MapShim ObsRef) (w : World) :
  (this < length (spis w))%nat ->
  let w' := gather_loop this entries w in
  activeObservations_ (spi this w') =
    activeObservations_ (spi this w) ++
    map snd (List.filter (fun e => changed w (snd e)) entries)
  /\ observations_ (spi this w') = observations_ (spi this w)
  /\ callback_ (spi this w') = callback_ (spi this w).
Proof.
  revert w. induction entries as [|[k r] entries IH]; intros w Hthis.
  - cbn. now rewrite app_nil_r.
  - rewrite gather_loop_step. cbn zeta.
    set (w0 := snd (isActive_at r w)).
    set (w1 := if fst (isActive_at r w) then push_active this r w0 else w0).
    assert (Hthis1 : (this < length (spis w1))%nat).
    { unfold w1, w0. destruct (fst _); cbn; rewrite ?length_alter; exact Hthis. }
    destruct (IH w1 Hthis1) as (Ha & Ho & Hcb). cbn zeta in *.
    assert (Hfilter : List.filter (fun e => changed w1 (snd e)) entries =
                      List.filter (fun e => changed w (snd e)) entries).
    { apply filter_ext. intros [k' r']. cbn [snd].
      assert (Hobs : observation r' w1 = observation r' w0)
        by (unfold w1; destruct (fst _); reflexivity).
      assert (Hr := isActive_at_observation r r' w). fold w0 in Hr.
      apply changed_stable.
      - unfold w1, w0. destruct (fst _); reflexivity.
      - rewrite Hobs, Hr. case_decide as Hd; [destruct Hd as [-> _] |]; reflexivity.
      - rewrite Hobs, Hr. case_decide as Hd; [destruct Hd as [-> _] |]; reflexivity.
      - rewrite Hobs, Hr. case_decide as Hd; [destruct Hd as [-> _] |]; reflexivity. }
    rewrite Ha, Ho, Hcb, Hfilter. cbn [List.filter snd].
    change (fst (isActive_at r w)) with (changed w r) in *.
    assert (Hspi0 : spi this w0 = spi this w) by reflexivity.
    destruct (changed w r); unfold w1.
    + unfold push_active. rewrite spi_update_spi by exact Hthis. rewrite Hspi0. cbn.
      rewrite <- app_assoc. auto.
    + rewrite Hspi0. auto.
Qed.

Lemma gatherActive_facts (w : World) (this : SpiRef) :
  (this < length (spis w))%nat ->
  let w' := gatherActive this w in
  activeObservations_ (spi this w') =
    map snd (List.filter (fun e => changed w (snd e)) (observations_ (spi this w)))
  /\ observations_ (spi this w') = observations_ (spi this w)
  /\ callback_ (spi this w') = callback_ (spi this w)
  /\ host w' = host w
  /\ length (heap w') = length (heap w)
  /\ length (spis w') = length (spis w)
  /\ (forall r,
        target (observation r w') = target (observation r w)
        /\ broadcastWidth (observation r w') = broadcastWidth (observation r w)
        /\ broadcastHeight (observation r w') = broadcastHeight (observation r w))
  /\ (forall t r,
        (t, r) ∈ observations_ (spi this w) -> (r < length (heap w))%nat ->
        contentRect_ (observation r w') =
          getContentRect (host w) (target (observation r w))).
Proof.
  intros Hthis. cbn zeta. unfold gatherActive.
  set (wc := clearActive this (emit (EvGatherCall this) w)).
  assert (Hspic : spi this wc =
                  mkSPI [] (callback_ (spi this w)) (observations_ (spi this w))).
  { unfold wc, clearActive. now rewrite spi_update_spi. }
  assert (Hthisc : (this < length (spis wc))%nat).
  { unfold wc, clearActive, update_spi. cbn. now rewrite length_alter. }
  destruct (gather_loop_spi this (observations_ (spi this wc)) wc Hthisc) as (Ha & Ho & Hcb).
  destruct (gather_loop_heap_length this (observations_ (spi this wc)) wc) as (Hl1 & Hl2).
  destruct (gather_loop_frame this (observations_ (spi this wc)) wc) as (Hh & _ & _).
  cbn zeta in *.
  change (spi this (emit (EvGatherReturn this) ?x)) with (spi this x).
  change (host (emit (EvGatherReturn this) ?x)) with (host x).
  change (heap (emit (EvGatherReturn this) ?x)) with (heap x).
  change (spis (emit (EvGatherReturn this) ?x)) with (spis x).
  rewrite Ha, Ho, Hcb, Hh, Hl1, Hl2, Hspic. cbn [activeObservations_ observations_ callback_ app].
  split; [reflexivity |]. split; [reflexivity |]. split; [reflexivity |].
  split; [reflexivity |].
  split; [reflexivity |].
  split; [unfold wc, clearActive, update_spi; cbn; now rewrite length_alter |].
  split.
  - intros r.
    destruct (gather_loop_observation this (observations_ (spi this w)) wc r)
      as (H1 & H2 & H3 & _).
    change (observation r (emit (EvGatherReturn this) ?x)) with (observation r x).
    auto.
  - intros t r Hin Hv.
    destruct (gather_loop_observation this (observations_ (spi this w)) wc r)
      as (_ & _ & _ & _ & Hm).
    change (observation r (emit (EvGatherReturn this) ?x)) with (observation r x).
    apply Hm; [| exact Hv].
    change r with (snd (t, r)). now apply list_elem_of_fmap_2.
Qed.

(** X8: [gatherActive] replaces the active observations of the observer by
    exactly those registered observations whose measured width or height
    differs from the broadcast one, in the order of the registry.  It measures
    every registered observation, and it changes neither the registry nor the
    host nor any broadcast dimension or target. *)
Theorem gatherActive_spec (w : World) (this : SpiRef) :
  (this < length (spis w))%nat ->
  let w' := gatherActive this w in
  activeObservations_ (spi this w') =
    map snd (List.filter (fun e => changed w (snd e)) (observations_ (spi this w)))
  /\ observations_ (spi this w') = observations_ (spi this w)
  /\ host w' = host w
  /\ (forall r,
        target (observation r w') = target (observation r w)
        /\ broadcastWidth (observation r w') = broadcastWidth (observation r w)
        /\ broadcastHeight (observation r w') = broadcastHeight (observation r w))
  /\ (forall t r,
        (t, r) ∈ observations_ (spi this w) -> (r < length (heap w))%nat ->
        contentRect_ (observation r w') =
          getContentRect (host w) (target (observation r w))).
Proof.
  intros Hthis. destruct (gatherActive_facts w this Hthis) as (H1 & H2 & _ & H4 & _ & _ & H7 & H8).
  auto.
Qed.

(** [gatherActive_spec] on an observed element that has grown. *)
Lemma gatherActive_spec_witness :
  let w := observing quiet (fun _ => createRectInit 0 0 100 50) 7%nat in
  (0 < length (spis w))%nat
  /\ activeObservations_ (spi 0%nat (gatherActive 0%nat w)) = [0%nat].
Proof.
  intros w.
  assert (Hthis : (0 < length (spis w))%nat) by (vm_compute; constructor).
  split; [exact Hthis |].
  rewrite (proj1 (gatherActive_spec w 0%nat Hthis)). vm_compute. reflexivity.
Defined.

(** ** What a broadcast does *)

Lemma only_refresh_between_refl (w : World) : only_refresh_between w w.
Proof. exists []. split; [now rewrite app_nil_r | constructor]. Qed.

Lemma only_refresh_between_same (w w' : World) :
  log w' = log w -> only_refresh_between w w'.
Proof. intros H. exists []. split; [now rewrite app_nil_r | constructor]. Qed.

Lemma only_refresh_between_trans (w1 w2 w3 : World) :
  only_refresh_between w1 w2 -> only_refresh_between w2 w3 -> only_refresh_between w1 w3.
Proof.
  intros (e1 & H1 & F1) (e2 & H2 & F2). exists (e1 ++ e2). split.
  - now rewrite H2, H1, app_assoc.
  - apply Forall_app. auto.
Qed.

Lemma only_refresh_script (script : list Action) :
  preserves only_refresh_between (forEach script run_action).
Proof.
  apply (preserves_script only_refresh_between (fun _ => True)); auto.
  - apply only_refresh_between_refl.
  - apply only_refresh_between_trans.
  - intros w w' (_ & _ & H & _). now apply only_refresh_between_same.
  - intros w. exists [EvThrottledRefresh]. split; [apply refresh_log |].
    repeat constructor.
  - intros o f w. now apply only_refresh_between_same.
  - intros t w. now apply only_refresh_between_same.
  - intros o w _. now apply only_refresh_between_same.
  - intros t rect w. now apply only_refresh_between_same.
Qed.

Lemma clearActive_hasActive (this : SpiRef) (w : World) :
  hasActive this (clearActive this w) = false.
Proof.
  unfold hasActive, clearActive, spi, update_spi. cbn.
  rewrite list_lookup_total_alter. case_decide as Hd; [reflexivity |].
  rewrite list_lookup_total_alt. unfold SpiRef in *.
  destruct (spis w !! this) as [s|] eqn:Hs; [| reflexivity].
  exfalso. apply Hd. split; [reflexivity |]. now apply lookup_lt_Some in Hs.
Qed.

(** The log of a [broadcastActive] that found active observations. *)
Lemma broadcastActive_log (this : SpiRef) (w : World) :
  hasActive this w = true ->
  exists events,
    log (world_of (broadcastActive this w)) =
      log w ++ [EvBroadcastCall this;
                EvCallback this (entries_of (activeObservations_ (spi this w)) w)]
            ++ events
    /\ Forall (fun e => e = EvThrottledRefresh) events.
Proof.
  intros Hact. rewrite broadcastActive_unfold, Hact. cbn zeta.
  set (active := activeObservations_ (spi this w)).
  set (entries := entries_of active w).
  set (w1 := snd (broadcast_entries active (emit (EvBroadcastCall this) w))).
  pose proof (broadcast_entries_log active (emit (EvBroadcastCall this) w)) as Hl1.
  fold w1 in Hl1.
  destruct (only_refresh_script (callback_ (spi this w) entries this)
              (emit (EvCallback this entries) w1)) as (events & Hl & Hf).
  exists events. split; [| exact Hf].
  destruct (forEach _ run_action _) as [u w2|e w2]; cbn [world_of] in *;
    change (log (clearActive this w2)) with (log w2);
    rewrite Hl; cbn [log emit]; rewrite Hl1; cbn [log emit];
    rewrite <- !app_assoc; reflexivity.
Qed.

(** X9: a [broadcastActive] that returns normally leaves the observer
    without active observations.  Without active observations it does nothing
    and the callback is not invoked; with active observations the callback is
    invoked exactly once, with one entry per active observation, and apart
    from that only the throttled [refresh] can have been called. *)
Theorem broadcastActive_returns (w w' : World) (this : SpiRef) (u : unit) :
  broadcastActive this w = Ok u w' ->
  hasActive this w' = false
  /\ (hasActive this w = false -> w' = emit (EvBroadcastCall this) w)
  /\ (hasActive this w = true ->
      exists events,
        log w' = log w ++
          [EvBroadcastCall this;
           EvCallback this (entries_of (activeObservations_ (spi this w)) w)] ++ events
        /\ Forall (fun e => e = EvThrottledRefresh) events).
Proof.
  intros Hok. split; [| split].
  - rewrite broadcastActive_unfold in Hok. cbn zeta in Hok.
    destruct (hasActive this w) eqn:Hact.
    + destruct (forEach _ run_action _) as [u2 w2|e w2]; [| discriminate].
      injection Hok as _ <-. apply clearActive_hasActive.
    + injection Hok as _ <-. exact Hact.
  - intros Hact. rewrite broadcastActive_unfold, Hact in Hok. now injection Hok as _ <-.
  - intros Hact. destruct (broadcastActive_log this w Hact) as (events & Hl & Hf).
    rewrite Hok in Hl. exists events. auto.
Qed.

(** [broadcastActive_returns] for a consumer that does nothing. *)
Lemma broadcastActive_returns_witness :
  let w := gathered quiet in
  let w' := world_of (broadcastActive 0%nat w) in
  broadcastActive 0%nat w = Ok tt w' /\ hasActive 0%nat w' = false.
Proof.
  intros w w'.
  assert (Hok : broadcastActive 0%nat w = Ok tt w') by (vm_compute; reflexivity).
  split; [exact Hok |].
  exact (proj1 (broadcastActive_returns w w' 0%nat tt Hok)).
Defined.

(** ** A change is reported once *)

Lemma hasActive_false (this : SpiRef) (w : World) :
  hasActive this w = false <-> activeObservations_ (spi this w) = [].
Proof.
  unfold hasActive. destruct (activeObservations_ (spi this w)); cbn; split; congruence.
Qed.

Lemma filter_none {A} (f : A -> bool) (l : list A) :
  (forall a, a ∈ l -> f a = false) -> List.filter f l = [].
Proof.
  induction l as [|a l IH]; intros H; [reflexivity |]. cbn.
  rewrite (H a) by (apply elem_of_cons; auto).
  apply IH. intros b Hb. apply H, elem_of_cons. auto.
Qed.

Lemma in_filter_snd {A B} (f : A * B -> bool) (l : list (A * B)) (a : A) (b : B) :
  (a, b) ∈ l -> f (a, b) = true -> b ∈ map snd (List.filter f l).
Proof.
  intros Hin Hf. apply list_elem_of_In, in_map_iff. exists (a, b). split; [reflexivity |].
  apply filter_In. split; [now apply list_elem_of_In | exact Hf].
Qed.

(** [broadcastActive] for a consumer whose callback does nothing. *)
Lemma broadcastActive_quiet (w : World) (this : SpiRef) :
  (this < length (spis w))%nat ->
  (forall entries, callback_ (spi this w) entries this = []) ->
  exists w2,
    broadcastActive this w = Ok tt w2
    /\ host w2 = host w
    /\ length (spis w2) = length (spis w)
    /\ observations_ (spi this w2) = observations_ (spi this w)
    /\ forall r,
         target (observation r w2) = target (observation r w)
         /\ (r ∈ activeObservations_ (spi this w) -> (r < length (heap w))%nat ->
             broadcastWidth (observation r w2) = Rect.width (contentRect_ (observation r w))
             /\ broadcastHeight (observation r w2) =
                  Rect.height (contentRect_ (observation r w)))
         /\ (r ∉ activeObservations_ (spi this w) -> observation r w2 = observation r w).
Proof.
  intros Hthis Hquiet. rewrite broadcastActive_unfold. cbn zeta.
  destruct (hasActive this w) eqn:Hact.
  - rewrite Hquiet. cbn [forEach ret].
    set (active := activeObservations_ (spi this w)).
    set (w0 := emit (EvBroadcastCall this) w).
    set (wb := snd (broadcast_entries active w0)).
    destruct (broadcast_entries_frame active w0) as (Hs & Hh & _). fold wb in Hs, Hh.
    eexists. split; [reflexivity |].
    split; [exact Hh |].
    split; [unfold clearActive, update_spi; cbn; now rewrite length_alter, Hs |].
    split.
    + unfold clearActive. rewrite spi_update_spi.
      * cbn. unfold spi. cbn. now rewrite Hs.
      * cbn. now rewrite Hs.
    + intros r. destruct (broadcast_entries_commits active w0 r) as (_ & Ht & Hout & Hin).
      fold wb in Ht, Hout, Hin.
      change (observation r (clearActive this (emit ?e wb))) with (observation r wb).
      auto.
  - apply hasActive_false in Hact. eexists. split; [reflexivity |].
    split; [reflexivity |]. split; [reflexivity |]. split; [reflexivity |].
    intros r. rewrite Hact. split; [reflexivity |]. split; [| reflexivity].
    intros Hin. now apply elem_of_nil in Hin.
Qed.

(** X10: a change is reported once.  For a well-formed world and a consumer
    whose callback does nothing, one gather followed by the broadcast returns
    normally and leaves, for every registered target, the broadcast width and
    height equal to the current content rectangle of the target; a gather that
    follows finds no active observation. *)
Theorem notified_once (w : World) (this : SpiRef) :
  (this < length (spis w))%nat ->
  world_wf w ->
  (forall entries, callback_ (spi this w) entries this = []) ->
  exists w2,
    broadcastActive this (gatherActive this w) = Ok tt w2
    /\ host w2 = host w
    /\ observations_ (spi this w2) = observations_ (spi this w)
    /\ (forall t r,
          (t, r) ∈ observations_ (spi this w) ->
          target (observation r w2) = t
          /\ broadcastWidth (observation r w2) = Rect.width (getContentRect (host w) t)
          /\ broadcastHeight (observation r w2) = Rect.height (getContentRect (host w) t))
    /\ hasActive this (gatherActive this w2) = false.
Proof.
  intros Hthis Hwf Hquiet.
  destruct (gatherActive_facts w this Hthis)
    as (Ha1 & Ho1 & Hcb1 & Hh1 & Hl1 & Hs1 & Hobs1 & Hm1).
  cbn zeta in *. set (w1 := gatherActive this w) in *.
  assert (Hthis1 : (this < length (spis w1))%nat) by now rewrite Hs1.
  assert (Hquiet1 : forall entries, callback_ (spi this w1) entries this = [])
    by (intros entries; rewrite Hcb1; apply Hquiet).
  destruct (broadcastActive_quiet w1 this Hthis1 Hquiet1)
    as (w2 & Hok & Hh2 & Hs2 & Ho2 & Hobs2).
  assert (Hreg : forall t r, (t, r) ∈ observations_ (spi this w) ->
                 (r < length (heap w))%nat /\ target (observation r w) = t).
  { intros t r Hin. apply lookup_lt_is_Some_2 in Hthis as [s Hs].
    rewrite (spi_lookup _ _ _ Hs) in Hin.
    destruct (Forall_lookup_1 _ _ _ _ Hwf Hs) as (_ & Hr & _).
    destruct (Hr t r Hin) as (o & Ho & Ht). split; [now apply lookup_lt_Some in Ho |].
    unfold observation. now rewrite (list_lookup_total_correct _ _ _ Ho). }
  assert (Hcommitted : forall t r,
            (t, r) ∈ observations_ (spi this w) ->
            target (observation r w2) = t
            /\ broadcastWidth (observation r w2) = Rect.width (getContentRect (host w) t)
            /\ broadcastHeight (observation r w2) = Rect.height (getContentRect (host w) t)).
  { intros t r Hin. destruct (Hreg t r Hin) as (Hv & Ht).
    destruct (Hobs1 r) as (Ht1 & Hbw1 & Hbh1).
    destruct (Hobs2 r) as (Ht2 & Hin2 & Hout2).
    pose proof (Hm1 t r Hin Hv) as Hm. rewrite Ht in Hm.
    split; [congruence |].
    destruct (decide (r ∈ activeObservations_ (spi this w1))) as [Hact|Hnact].
    - destruct (Hin2 Hact ltac:(now rewrite Hl1)) as (Hw & Hhgt). now rewrite Hw, Hhgt, Hm.
    - rewrite (Hout2 Hnact), Hbw1, Hbh1.
      destruct (changed w r) eqn:Hch.
      + exfalso. apply Hnact. rewrite Ha1.
        apply (in_filter_snd (fun e => changed w (snd e)) _ t r Hin Hch).
      + unfold changed, isActive in Hch. cbn in Hch. rewrite Ht in Hch.
        apply orb_false_iff in Hch as [Hw Hhgt].
        apply strict_ne_false in Hw, Hhgt. now rewrite Hw, Hhgt. }
  exists w2. split; [exact Hok |]. split; [congruence |]. split; [congruence |].
  split; [exact Hcommitted |].
  assert (Hthis2 : (this < length (spis w2))%nat) by now rewrite Hs2.
  destruct (gatherActive_facts w2 this Hthis2) as (Ha3 & _).
  apply hasActive_false. cbn zeta in Ha3. rewrite Ha3, Ho2, Ho1.
  rewrite filter_none; [reflexivity |].
  intros [t r] Hin. cbn [snd]. destruct (Hcommitted t r Hin) as (Ht & Hw & Hhgt).
  unfold changed, isActive. cbn. rewrite Hh2, Hh1, Ht, Hw, Hhgt.
  apply orb_false_iff. split; now apply strict_ne_false.
Qed.

(** [notified_once] on an observed element that has grown. *)
Lemma notified_once_witness :
  let w := observing quiet (fun _ => createRectInit 0 0 100 50) 7%nat in
  exists w2,
    broadcastActive 0%nat (gatherActive 0%nat w) = Ok tt w2
    /\ broadcastWidth (observation 0%nat w2) = Some 100
    /\ hasActive 0%nat (gatherActive 0%nat w2) = false.
Proof.
  intros w.
  assert (Hthis : (0 < length (spis w))%nat) by (vm_compute; constructor).
  assert (Hwf : world_wf w).
  { unfold world_wf.
    change (spis w) with [mkSPI [] quiet [(7%nat, 0%nat)]].
    change (heap w) with [ResizeObservation_new 7%nat].
    constructor; [| constructor].
    split; [apply NoDup_singleton |]. split.
    - intros t r Hin. apply list_elem_of_singleton in Hin. injection Hin as -> ->.
      exists (ResizeObservation_new 7%nat). split; reflexivity.
    - intros r Hin. now apply elem_of_nil in Hin. }
  assert (Hquiet : forall entries, callback_ (spi 0%nat w) entries 0%nat = [])
    by reflexivity.
  destruct (notified_once w 0%nat Hthis Hwf Hquiet) as (w2 & Hok & _ & _ & Hc & Hn).
  exists w2. split; [exact Hok |]. split; [| exact Hn].
  destruct (Hc 7%nat 0%nat) as (_ & Hw & _); [| exact Hw].
  change (observations_ (spi 0%nat w)) with [(7%nat, 0%nat)].
  apply list_elem_of_singleton. reflexivity.
Defined.

(** ** The list of observers *)

(** X11: [removeObserver] removes the first occurrence of the observer
    from the list and nothing else: either the observer is not listed and the
    list stays as it is, or the list is cut at the first occurrence of the
    observer and the part before it is joined with the part after it.  So the
    other observers keep their order, a list without repetitions does not
    contain the observer afterwards, and removing an observer that
    [addObserver] has just appended gives back the list as it was. *)
Theorem removeObserver_list (w : World) (o : SpiRef) :
  (((o ∉ observers_ (controller w))
    /\ observers_ (controller (removeObserver o w)) = observers_ (controller w))
   \/ exists before after,
        observers_ (controller w) = before ++ o :: after
        /\ (o ∉ before)
        /\ observers_ (controller (removeObserver o w)) = before ++ after)
  /\ observers_ (controller (removeObserver o w)) `sublist_of` observers_ (controller w)
  /\ (o ∉ observers_ (controller w) ->
      observers_ (controller (removeObserver o w)) = observers_ (controller w))
  /\ (o ∉ observers_ (controller w) ->
      observers_ (controller (removeObserver o (addObserver o w))) =
        observers_ (controller w))
  /\ (NoDup (observers_ (controller w)) ->
      o ∉ observers_ (controller (removeObserver o w))).
Proof.
  rewrite !removeObserver_observers, addObserver_observers.
  split; [apply remove_first_split |].
  split; [apply remove_first_sublist |].
  split; [apply remove_first_absent |].
  split; [| apply remove_first_NoDup].
  intros Hn. rewrite bool_decide_eq_false_2 by exact Hn. now apply remove_first_snoc.
Qed.

(** X12: in a host that is not a browser the controller never connects:
    [connect_] and [disconnect_] do nothing, and [addObserver] and
    [removeObserver] only change the list of observers. *)
Theorem non_browser_inert (w : World) (o : SpiRef) :
  isBrowser (host w) = false ->
  connect_ w = w
  /\ disconnect_ w = w
  /\ host (addObserver o w) = host w
  /\ connected_ (controller (addObserver o w)) = connected_ (controller w)
  /\ host (removeObserver o w) = host w
  /\ connected_ (controller (removeObserver o w)) = connected_ (controller w).
Proof.
  intros Hb.
  assert (Hc : forall w', isBrowser (host w') = false -> connect_ w' = w').
  { intros w' H. unfold connect_. now rewrite H. }
  assert (Hd : forall w', isBrowser (host w') = false -> disconnect_ w' = w').
  { intros w' H. unfold disconnect_. now rewrite H. }
  split; [now apply Hc |]. split; [now apply Hd |].
  unfold addObserver, removeObserver.
  set (wa := if negb _ then _ else w). set (wr := if truthy _ then _ else w).
  assert (Ha : host wa = host w /\ connected_ (controller wa) = connected_ (controller w))
    by (unfold wa; destruct (negb _); auto).
  assert (Hr : host wr = host w /\ connected_ (controller wr) = connected_ (controller w))
    by (unfold wr; destruct (truthy _); auto).
  destruct Ha as (Ha1 & Ha2), Hr as (Hr1 & Hr2).
  rewrite (Hc wa), (Hd wr) by congruence.
  destruct (negb (connected_ (controller wa))), (_ && _); auto.
Qed.

(** [non_browser_inert] on a host without window and document. *)
Lemma non_browser_inert_witness :
  isBrowser (host (world_new detached_host)) = false
  /\ host (addObserver 0%nat (world_new detached_host)) = host (world_new detached_host)
  /\ connected_ (controller (addObserver 0%nat (world_new detached_host))) = false.
Proof.
  assert (Hb : isBrowser (host (world_new detached_host)) = false) by reflexivity.
  destruct (non_browser_inert (world_new detached_host) 0%nat Hb) as (_ & _ & H1 & H2 & _).
  split; [exact Hb |]. split; [exact H1 | exact H2].
Defined.

(** ** The patch of attachShadow *)

Lemma connect__patch (w : World) :
  isBrowser (host w) = true ->
  connected_ (controller w) = false ->
  mutationsObserver_ (controller w) = None ->
  patch_inv w ->
  patch_inv (connect_ w)
  /\ attachShadowPatched (host (connect_ w)) =
       mutationObserverSupported (host w) && origAttachShadow (host w).
Proof.
  intros Hb Hc Hmo Hp. unfold patch_inv in *. unfold connect_. rewrite Hb, Hc. cbn [negb orb].
  destruct w as [[] [] ? ? ? ?]. cbn in *. subst.
  destruct mutationObserverSupported0; [destruct origAttachShadow0 |]; cbn;
    rewrite ?fold_mutationObserve; cbn; auto.
Qed.

Lemma disconnect__patch (w : World) :
  isBrowser (host w) = true ->
  connected_ (controller w) = true ->
  patch_inv w ->
  patch_inv (disconnect_ w) /\ attachShadowPatched (host (disconnect_ w)) = false.
Proof.
  intros Hb Hc Hp. unfold patch_inv in *. unfold disconnect_. rewrite Hb, Hc. cbn [negb orb].
  destruct w as [[] [] ? ? ? ?]. cbn -[remove_first] in *. subst.
  destruct mutationsObserver_0; [destruct origAttachShadow0 |];
    destruct mutationEventsAdded_0; cbn -[remove_first]; auto.
Qed.

(** X13: the wrapper around the native attachShadow is in place exactly
    while the controller holds its MutationObserver.  [addObserver] and
    [removeObserver] keep this; connecting a browser host installs the wrapper
    when the host has MutationObserver and a native attachShadow, and removing
    the only observer restores the native function. *)
Theorem attachShadow_patch (w : World) (o : SpiRef) :
  isBrowser (host w) = true ->
  controller_inv w ->
  patch_inv w ->
  patch_inv (addObserver o w)
  /\ patch_inv (removeObserver o w)
  /\ (observers_ (controller w) = [] ->
      attachShadowPatched (host (addObserver o w)) =
        mutationObserverSupported (host w) && origAttachShadow (host w))
  /\ (observers_ (controller w) = [o] ->
      attachShadowPatched (host (removeObserver o w)) = false).
Proof.
  intros Hb (Hnd & Hconn & Hsub) Hp. rewrite Hb in Hconn. cbn [andb] in Hconn.
  assert (Hadd : forall w1,
            host w1 = host w ->
            connected_ (controller w1) = connected_ (controller w) ->
            mutationsObserver_ (controller w1) = mutationsObserver_ (controller w) ->
            patch_inv (if negb (connected_ (controller w1)) then connect_ w1 else w1)
            /\ (connected_ (controller w) = false ->
                attachShadowPatched
                  (host (if negb (connected_ (controller w1)) then connect_ w1 else w1)) =
                mutationObserverSupported (host w) && origAttachShadow (host w))).
  { intros w1 Hh Hc Hm.
    assert (Hp1 : patch_inv w1) by (unfold patch_inv in *; now rewrite Hh, Hm).
    destruct (connected_ (controller w)) eqn:Hcw; rewrite Hc; cbn [negb].
    - split; [exact Hp1 | discriminate].
    - unfold subscriptions_match in Hsub. rewrite Hcw in Hsub. destruct Hsub as (_ & Hmo & _).
      destruct (connect__patch w1) as (H1 & H2); try congruence.
      split; [exact H1 |]. intros _. now rewrite H2, Hh. }
  assert (Hrem : forall w1,
            host w1 = host w ->
            connected_ (controller w1) = connected_ (controller w) ->
            mutationsObserver_ (controller w1) = mutationsObserver_ (controller w) ->
            patch_inv (if negb (0 <? length (observers_ (controller w1)))%nat
                          && connected_ (controller w1)
                       then disconnect_ w1 else w1)
            /\ (observers_ (controller w1) = [] ->
                attachShadowPatched
                  (host (if negb (0 <? length (observers_ (controller w1)))%nat
                            && connected_ (controller w1)
                         then disconnect_ w1 else w1)) = false)).
  { intros w1 Hh Hc Hm.
    assert (Hp1 : patch_inv w1) by (unfold patch_inv in *; now rewrite Hh, Hm).
    destruct (connected_ (controller w1)) eqn:Hc1.
    - destruct (disconnect__patch w1) as (H1 & H2); try congruence.
      destruct (negb (0 <? length (observers_ (controller w1)))%nat) eqn:Hn;
        cbn [andb]; [auto |].
      split; [exact Hp1 |]. intros Hnil. rewrite Hnil in Hn. discriminate.
    - rewrite andb_false_r. split; [exact Hp1 |]. intros _.
      unfold subscriptions_match in Hsub. rewrite <- Hc in Hsub.
      destruct Hsub as (_ & Hmo & _). unfold patch_inv in Hp1.
      rewrite Hm, Hmo in Hp1. exact Hp1. }
  split; [| split; [| split]].
  - unfold addObserver. destruct (negb (truthy _)); apply Hadd; reflexivity.
  - unfold removeObserver. destruct (truthy _); apply Hrem; reflexivity.
  - intros Hnil. rewrite Hnil in Hconn. cbn in Hconn.
    unfold addObserver. destruct (negb (truthy _)); apply Hadd; auto.
  - intros Hone. unfold removeObserver. rewrite Hone. cbn [indexOf indexOf_from].
    rewrite bool_decide_eq_true_2 by reflexivity.
    change (truthy (bitnot 0)) with true. cbn [Z.to_nat].
    apply Hrem; try reflexivity. cbn. now rewrite Hone.
Qed.

(** [attachShadow_patch] on the controller of a browser with one observer. *)
Lemma attachShadow_patch_witness :
  let w := addObserver 0%nat (world_new (example_host (fun _ => createRectInit 0 0 0 0))) in
  attachShadowPatched (host w) = true
  /\ patch_inv w
  /\ attachShadowPatched (host (removeObserver 0%nat w)) = false.
Proof.
  intros w.
  assert (Hb : isBrowser (host w) = true) by (vm_compute; reflexivity).
  assert (Hinv : controller_inv w).
  { split; [vm_compute; apply NoDup_singleton |].
    split; [vm_compute; reflexivity |].
    unfold subscriptions_match. vm_compute.
    split; [reflexivity |]. exists [0%nat]. reflexivity. }
  assert (Hp : patch_inv w) by (vm_compute; reflexivity).
  destruct (attachShadow_patch w 0%nat Hb Hinv Hp) as (_ & _ & _ & Hlast).
  split; [vm_compute; reflexivity |]. split; [exact Hp |].
  apply Hlast. vm_compute. reflexivity.
Defined.

(** ** Who is notified in a pass *)

Lemma broadcast_calls_app (l1 l2 : list Event) :
  broadcast_calls (l1 ++ l2) = broadcast_calls l1 ++ broadcast_calls l2.
Proof.
  induction l1 as [|e l1 IH]; [reflexivity |]. destruct e; cbn; now rewrite IH.
Qed.

Lemma callback_calls_app (l1 l2 : list Event) :
  callback_calls (l1 ++ l2) = callback_calls l1 ++ callback_calls l2.
Proof.
  induction l1 as [|e l1 IH]; [reflexivity |]. destruct e; cbn; now rewrite IH.
Qed.

Lemma refresh_events_calls (events : list Event) :
  Forall (fun e => e = EvThrottledRefresh) events ->
  broadcast_calls events = [] /\ callback_calls events = [].
Proof. induction 1 as [|e l -> _ IH]; [auto | exact IH]. Qed.

Lemma gather_events_calls (observers : list SpiRef) :
  broadcast_calls (gather_events observers) = []
  /\ callback_calls (gather_events observers) = [].
Proof. induction observers as [|o l IH]; [auto | exact IH]. Qed.

Lemma broadcastActive_events (o : SpiRef) (w : World) :
  exists events,
    log (world_of (broadcastActive o w)) = log w ++ events
    /\ broadcast_calls events = [o]
    /\ callback_calls events = (if hasActive o w then [o] else []).
Proof.
  destruct (hasActive o w) eqn:Hact.
  - destruct (broadcastActive_log o w Hact) as (events & Hl & Hf).
    destruct (refresh_events_calls events Hf) as (Hb & Hc).
    eexists. split; [exact Hl |]. cbn. now rewrite Hb, Hc.
  - rewrite broadcastActive_unfold, Hact. exists [EvBroadcastCall o]. auto.
Qed.

Lemma forEach_broadcastActive_events (active : list SpiRef) (w : World) :
  exists events,
    log (world_of (forEach active broadcastActive w)) = log w ++ events
    /\ broadcast_calls events `prefix_of` active
    /\ callback_calls events `sublist_of` broadcast_calls events
    /\ (forall u w', forEach active broadcastActive w = Ok u w' ->
        broadcast_calls events = active).
Proof.
  revert w. induction active as [|o active IH]; intros w.
  - exists []. cbn. rewrite app_nil_r. repeat split; auto using prefix_nil.
  - cbn [forEach]. unfold bind.
    destruct (broadcastActive_events o w) as (e1 & Hl1 & Hb1 & Hc1).
    assert (Hsub1 : callback_calls e1 `sublist_of` broadcast_calls e1).
    { rewrite Hb1, Hc1. destruct (hasActive o w); [reflexivity | apply sublist_nil_l]. }
    destruct (broadcastActive o w) as [u1 w1|x w1]; cbn [world_of] in *.
    + destruct (IH w1) as (e2 & Hl2 & Hp2 & Hs2 & Hok2).
      exists (e1 ++ e2). rewrite Hl2, Hl1, <- app_assoc.
      rewrite broadcast_calls_app, callback_calls_app, Hb1.
      split; [reflexivity |]. split; [now apply (prefix_app [o]) |].
      split; [rewrite <- Hb1; now apply sublist_app |].
      intros u w' Hok. cbn. f_equal. eauto.
    + exists e1. rewrite Hb1. split; [exact Hl1 |].
      split; [now exists active |].
      split; [now rewrite <- Hb1 | discriminate].
Qed.

Lemma gather_filter_sublist (observers : list SpiRef) (w : World) :
  fst (gather_filter observers w) `sublist_of` observers.
Proof.
  revert w. induction observers as [|o observers IH]; intros w;
    cbn [gather_filter fst]; [reflexivity |].
  specialize (IH (gatherActive o w)).
  destruct (gather_filter observers (gatherActive o w)) as [active w']. cbn [fst] in *.
  destruct (hasActive o (gatherActive o w)); [now apply sublist_skip | now apply sublist_cons].
Qed.

Lemma length_filter_existsb {A B} (f : A -> bool) (g : A -> B) (l : list A) :
  (0 <? length (map g (List.filter f l)))%nat = existsb f l.
Proof.
  induction l as [|a l IH]; [reflexivity |]. cbn. destruct (f a); [reflexivity | exact IH].
Qed.

Lemma existsb_ext {A} (f g : A -> bool) (l : list A) :
  (forall a, f a = g a) -> existsb f l = existsb g l.
Proof. intros H. induction l as [|a l IH]; [reflexivity |]. cbn. now rewrite H, IH. Qed.

Lemma gatherActive_spis_length (this : SpiRef) (w : World) :
  length (spis (gatherActive this w)) = length (spis w).
Proof.
  unfold gatherActive.
  change (spis (emit (EvGatherReturn this) ?x)) with (spis x).
  destruct (gather_loop_heap_length this
    (observations_ (spi this (clearActive this (emit (EvGatherCall this) w))))
    (clearActive this (emit (EvGatherCall this) w))) as (_ & ->).
  unfold clearActive, update_spi. cbn. now rewrite length_alter.
Qed.

Lemma spi_out_of_range (this : SpiRef) (w : World) :
  ~ (this < length (spis w))%nat -> spi this w = mkSPI [] (fun _ _ => []) [].
Proof. intros H. apply spi_invalid, lookup_ge_None. unfold SpiRef in *. lia. Qed.

Lemma gatherActive_registry (this o : SpiRef) (w : World) :
  observations_ (spi o (gatherActive this w)) = observations_ (spi o w).
Proof.
  destruct (decide (o = this)) as [-> | Hne]; [| now rewrite gatherActive_other].
  destruct (decide (this < length (spis w))%nat) as [Hv | Hv].
  - now destruct (gatherActive_facts w this Hv) as (_ & -> & _).
  - rewrite !spi_out_of_range; [reflexivity | exact Hv |].
    now rewrite gatherActive_spis_length.
Qed.

Lemma gatherActive_changed (this : SpiRef) (w : World) (r : ObsRef) :
  changed (gatherActive this w) r = changed w r.
Proof.
  apply changed_stable; [apply gatherActive_frame | | |]; unfold gatherActive;
    change (observation r (emit (EvGatherReturn this) ?x)) with (observation r x);
    destruct (gather_loop_observation this
      (observations_ (spi this (clearActive this (emit (EvGatherCall this) w))))
      (clearActive this (emit (EvGatherCall this) w)) r) as (H1 & H2 & H3 & _);
    cbn zeta in *; assumption.
Qed.

(** Whether an observer has active observations after its gather is decided
    by the registry and the sizes at the start. *)
Lemma gatherActive_hasActive (this : SpiRef) (w : World) :
  hasActive this (gatherActive this w) = has_changes w this.
Proof.
  unfold hasActive, has_changes.
  destruct (decide (this < length (spis w))%nat) as [Hv | Hv].
  - destruct (gatherActive_facts w this Hv) as (-> & _). apply length_filter_existsb.
  - rewrite !spi_out_of_range; [reflexivity | exact Hv |].
    now rewrite gatherActive_spis_length.
Qed.

Lemma gatherActive_has_changes (this o : SpiRef) (w : World) :
  has_changes (gatherActive this w) o = has_changes w o.
Proof.
  unfold has_changes. rewrite gatherActive_registry.
  apply existsb_ext. intros e. apply gatherActive_changed.
Qed.

Lemma gather_filter_has_changes (observers : list SpiRef) (w : World) :
  fst (gather_filter observers w) = List.filter (has_changes w) observers.
Proof.
  revert w. induction observers as [|o observers IH]; intros w;
    cbn [gather_filter List.filter fst]; [reflexivity |].
  specialize (IH (gatherActive o w)).
  destruct (gather_filter observers (gatherActive o w)) as [active w']. cbn [fst] in *.
  rewrite gatherActive_hasActive, IH.
  rewrite (List.filter_ext _ (has_changes w)) by (intros a; apply gatherActive_has_changes).
  now destruct (has_changes w o).
Qed.

Lemma prefix_NoDup {A} (l1 l2 : list A) : l1 `prefix_of` l2 -> NoDup l2 -> NoDup l1.
Proof. intros [k ->] Hnd. now apply NoDup_app in Hnd as (H & _). Qed.

(** X14: in one update pass [broadcastActive] is called on the observers
    of the controller's list that have, at the start of the pass, a registered
    observation whose measured width or height differs from the broadcast one,
    in the order of the list and on no other; when the list has no repetitions
    it is called on each at most once.  A callback is invoked at most where
    [broadcastActive] is called.  A pass that returns normally has called it on
    all of them and returns whether there was any; a pass that ends with an
    exception has called it on the first ones only. *)
Theorem updateObservers__broadcasts (w : World) :
  let active := List.filter (has_changes w) (observers_ (controller w)) in
  active `sublist_of` observers_ (controller w)
  /\ exists later,
       log (world_of (updateObservers_ w)) =
         log w ++ gather_events (observers_ (controller w)) ++ later
       /\ broadcast_calls later `prefix_of` active
       /\ callback_calls later `sublist_of` broadcast_calls later
       /\ (NoDup (observers_ (controller w)) -> NoDup (broadcast_calls later))
       /\ (forall b w', updateObservers_ w = Ok b w' ->
           broadcast_calls later = active /\ b = (0 <? length active)%nat).
Proof.
  cbn zeta. rewrite <- gather_filter_has_changes.
  assert (Hsub := gather_filter_sublist (observers_ (controller w)) w).
  split; [exact Hsub |].
  unfold updateObservers_, bind.
  pose proof (gather_filter_log (observers_ (controller w)) w) as Hg.
  destruct (gather_filter (observers_ (controller w)) w) as [active w1]. cbn [fst snd] in *.
  destruct (forEach_broadcastActive_events active w1) as (later & Hl & Hp & Hs & Hok).
  exists later. split; [| split; [exact Hp | split; [exact Hs | split]]].
  - destruct (forEach active broadcastActive w1) as [u w2|e w2]; cbn [world_of ret] in *;
      rewrite Hl, Hg, <- app_assoc; reflexivity.
  - intros Hnd. apply (prefix_NoDup _ active Hp). eapply sublist_NoDup; eassumption.
  - intros b w'. destruct (forEach active broadcastActive w1) as [u w2|e w2];
      [| discriminate].
    intros [= <- <-]. split; [eapply Hok; reflexivity | reflexivity].
Qed.

(** ** Errors and round trips of the public methods *)

Lemma observe_without_interface (this : SpiRef) (t : Element) (w : World) :
  elementInterface (host w) = false -> observe this (Some t) w = Ok tt w.
Proof. intros H. unfold observe, bind, gets, ret. cbn beta. now rewrite H. Qed.

Lemma unobserve_without_interface (this : SpiRef) (t : Element) (w : World) :
  elementInterface (host w) = false -> unobserve this (Some t) w = Ok tt w.
Proof. intros H. unfold unobserve, bind, gets, ret. cbn beta. now rewrite H. Qed.

Lemma observe_not_element (this : SpiRef) (t : Element) (w : World) :
  elementInterface (host w) = true -> instanceofElement (host w) t = false ->
  observe this (Some t) w = Throw (TypeError not_an_Element) w.
Proof.
  intros H1 H2. unfold observe, bind, gets, throw. cbn beta.
  rewrite H1. cbn [negb]. now rewrite H2.
Qed.

Lemma unobserve_not_element (this : SpiRef) (t : Element) (w : World) :
  elementInterface (host w) = true -> instanceofElement (host w) t = false ->
  unobserve this (Some t) w = Throw (TypeError not_an_Element) w.
Proof.
  intros H1 H2. unfold unobserve, bind, gets, throw. cbn beta.
  rewrite H1. cbn [negb]. now rewrite H2.
Qed.

Lemma unobserve_unregistered (this : SpiRef) (t : Element) (w : World) :
  instanceofElement (host w) t = true ->
  map_has (observations_ (spi this w)) t = false ->
  unobserve this (Some t) w = Ok tt w.
Proof.
  intros H2 H3. destruct (elementInterface (host w)) eqn:H1;
    [| now apply unobserve_without_interface].
  unfold unobserve, bind, gets, ret. cbn beta.
  rewrite H1. cbn [negb]. rewrite H2. cbn [negb]. now rewrite H3.
Qed.

Lemma observe_throw_inv (this : SpiRef) (arg : option Element) (w w' : World) (e : Exn) :
  observe this arg w = Throw e w' ->
  w' = w /\ invalid_argument w arg /\ exists message, e = TypeError message.
Proof.
  intros H. destruct arg as [t|].
  - destruct (elementInterface (host w)) eqn:H1;
      [| rewrite observe_without_interface in H by assumption; discriminate].
    destruct (instanceofElement (host w) t) eqn:H2.
    + destruct (map_has (observations_ (spi this w)) t) eqn:H3.
      * rewrite observe_registered in H by assumption. discriminate.
      * rewrite observe_new in H by assumption. discriminate.
    + rewrite observe_not_element in H by assumption. injection H as <- <-.
      split; [reflexivity |]. split; [right; eauto | eauto].
  - injection H as <- <-. split; [reflexivity |]. split; [now left | eauto].
Qed.

Lemma unobserve_throw_inv (this : SpiRef) (arg : option Element) (w w' : World) (e : Exn) :
  unobserve this arg w = Throw e w' ->
  w' = w /\ invalid_argument w arg /\ exists message, e = TypeError message.
Proof.
  intros H. destruct arg as [t|].
  - destruct (elementInterface (host w)) eqn:H1;
      [| rewrite unobserve_without_interface in H by assumption; discriminate].
    destruct (instanceofElement (host w) t) eqn:H2.
    + destruct (map_has (observations_ (spi this w)) t) eqn:H3.
      * rewrite unobserve_registered in H by assumption. discriminate.
      * rewrite unobserve_unregistered in H by assumption. discriminate.
    + rewrite unobserve_not_element in H by assumption. injection H as <- <-.
      split; [reflexivity |]. split; [right; eauto | eauto].
  - injection H as <- <-. split; [reflexivity |]. split; [now left | eauto].
Qed.

(** X15: [observe] and [unobserve] fail exactly when the argument is
    missing or when the host has an Element interface of which the target is
    no instance; they fail with a TypeError and leave the world as it was.
    Without an Element interface both do nothing, and so does [unobserve] of a
    target that is not registered. *)
Theorem observe_unobserve_errors (w : World) (this : SpiRef) (arg : option Element) :
  (invalid_argument w arg <->
   exists message, observe this arg w = Throw (TypeError message) w)
  /\ (invalid_argument w arg <->
      exists message, unobserve this arg w = Throw (TypeError message) w)
  /\ (forall e w', observe this arg w = Throw e w' \/ unobserve this arg w = Throw e w' ->
      w' = w /\ exists message, e = TypeError message)
  /\ (forall t, arg = Some t -> elementInterface (host w) = false ->
      observe this arg w = Ok tt w /\ unobserve this arg w = Ok tt w)
  /\ (forall t, arg = Some t -> instanceofElement (host w) t = true ->
      map_has (observations_ (spi this w)) t = false ->
      unobserve this arg w = Ok tt w).
Proof.
  split; [| split; [| split; [| split]]].
  - split.
    + intros [->|(t & -> & H1 & H2)]; [eexists; reflexivity |].
      eexists. now apply observe_not_element.
    + intros (message & H). now apply observe_throw_inv in H.
  - split.
    + intros [->|(t & -> & H1 & H2)]; [eexists; reflexivity |].
      eexists. now apply unobserve_not_element.
    + intros (message & H). now apply unobserve_throw_inv in H.
  - intros e w' [H|H]; [apply observe_throw_inv in H | apply unobserve_throw_inv in H];
      tauto.
  - intros t -> H. split;
      [now apply observe_without_interface | now apply unobserve_without_interface].
  - intros t -> H2 H3. now apply unobserve_unregistered.
Qed.

Lemma map_delete_snoc {V} (m : MapShim V) (key : Element) (v : V) :
  map_has m key = false -> map_delete (m ++ [(key, v)]) key = m.
Proof.
  induction m as [|[k0 v0] m IH]; intros Hh.
  - cbn [app]. rewrite map_delete_cons. now rewrite bool_decide_eq_true_2.
  - rewrite map_has_cons in Hh. apply orb_false_iff in Hh as [Hk Hh].
    cbn [app]. rewrite map_delete_cons, Hk. f_equal. now apply IH.
Qed.

Lemma refresh_frame (w : World) :
  spis (refresh w) = spis w /\ heap (refresh w) = heap w
  /\ host (refresh w) = host w /\ controller (refresh w) = controller w.
Proof. unfold refresh, throttle_call. destruct (refreshScheduled _); auto. Qed.

(** The world after an [observe] that registers a new target. *)
Lemma observe_new_world (this : SpiRef) (t : Element) (w : World) :
  (this < length (spis w))%nat ->
  elementInterface (host w) = true ->
  instanceofElement (host w) t = true ->
  map_has (observations_ (spi this w)) t = false ->
  exists w1,
    observe this (Some t) w = Ok tt w1
    /\ spi this w1 =
         mkSPI (activeObservations_ (spi this w)) (callback_ (spi this w))
           (observations_ (spi this w) ++ [(t, length (heap w))])
    /\ (forall o, o <> this -> spi o w1 = spi o w)
    /\ length (spis w1) = length (spis w)
    /\ heap w1 = heap w ++ [ResizeObservation_new t]
    /\ environment (host w1) = environment (host w)
    /\ observers_ (controller w1) =
         (if bool_decide (this ∈ observers_ (controller w))
          then observers_ (controller w)
          else observers_ (controller w) ++ [this]).
Proof.
  intros Hthis H1 H2 H3. rewrite observe_new by assumption.
  set (w0 := set_observations_ this _ _).
  destruct (addObserver_frame this w0) as (Fs & Fh & _ & _ & Fe).
  destruct (refresh_frame (addObserver this w0)) as (Rs & Rh & Rho & Rc).
  eexists. split; [reflexivity |].
  assert (Hspi : forall o, spi o (refresh (addObserver this w0)) = spi o w0).
  { intros o. unfold spi. now rewrite Rs, Fs. }
  split; [| split; [| split; [| split; [| split]]]].
  - rewrite Hspi. unfold w0, set_observations_. rewrite spi_update_spi by exact Hthis.
    cbn. change (spi this (set_heap _ w)) with (spi this w).
    now rewrite map_set_absent.
  - intros o Ho. rewrite Hspi. unfold w0, set_observations_.
    now rewrite spi_update_spi_ne by congruence.
  - rewrite Rs, Fs. unfold w0, set_observations_, update_spi. cbn. now rewrite length_alter.
  - now rewrite Rh, Fh.
  - now rewrite Rho, Fe.
  - rewrite Rc, addObserver_observers. reflexivity.
Qed.

(** What [addObserver] and [removeObserver] do to the controller and to the
    host depends on the controller and on the host only. *)
Lemma addObserver_ext (o : SpiRef) (w w' : World) :
  controller w' = controller w -> host w' = host w ->
  controller (addObserver o w') = controller (addObserver o w)
  /\ host (addObserver o w') = host (addObserver o w).
Proof.
  destruct w as [h c s hp r l], w' as [h' c' s' hp' r' l']. cbn. intros -> ->.
  unfold addObserver. cbn [controller host observers_].
  destruct (negb (truthy _)); destruct c as [[] ? ? ?]; cbn; auto;
    unfold connect_; cbn; destruct h as [[] [] [] ? ? ? ? ? ? ? ?]; cbn;
    rewrite ?fold_mutationObserve; cbn; auto.
Qed.

Lemma removeObserver_ext (o : SpiRef) (w w' : World) :
  controller w' = controller w -> host w' = host w ->
  controller (removeObserver o w') = controller (removeObserver o w)
  /\ host (removeObserver o w') = host (removeObserver o w).
Proof.
  destruct w as [h c s hp r l], w' as [h' c' s' hp' r' l']. cbn. intros -> ->.
  unfold removeObserver. cbn [controller host observers_].
  destruct (truthy _); cbn -[remove_first];
    destruct (negb _ && _); cbn -[remove_first]; auto;
    unfold disconnect_; cbn -[remove_first];
    destruct (negb _ || negb _); cbn -[remove_first]; auto;
    destruct c as [? [] [] ?]; destruct h as [? ? [] ? ? ? ? ? ? ? ?];
    cbn -[remove_first]; auto.
Qed.

Lemma connect__created (w : World) :
  isBrowser (host w) = true -> connected_ (controller w) = false ->
  mutationObserversCreated (host (connect_ w)) =
    (if mutationObserverSupported (host w)
     then S (mutationObserversCreated (host w))
     else mutationObserversCreated (host w))
  /\ mutationsObserver_ (controller (connect_ w)) =
       (if mutationObserverSupported (host w)
        then Some (mutationObserversCreated (host w))
        else mutationsObserver_ (controller w)).
Proof.
  intros Hb Hc. unfold connect_. rewrite Hb, Hc. cbn [negb orb].
  destruct w as [[] [] ? ? ? ?]. cbn in *.
  destruct mutationObserverSupported0; [destruct origAttachShadow0 |]; cbn;
    rewrite ?fold_mutationObserve; cbn; auto.
Qed.

Lemma disconnect__created (w : World) :
  mutationObserversCreated (host (disconnect_ w)) = mutationObserversCreated (host w).
Proof.
  unfold disconnect_. destruct (negb _ || _); [reflexivity |].
  destruct w as [[] [] ? ? ? ?]; cbn -[remove_first].
  destruct mutationsObserver_0; [destruct origAttachShadow0 |];
    destruct mutationEventsAdded_0; reflexivity.
Qed.

Lemma controller_eq (c c' : ResizeObserverController) :
  connected_ c = connected_ c' -> mutationEventsAdded_ c = mutationEventsAdded_ c' ->
  mutationsObserver_ c = mutationsObserver_ c' -> observers_ c = observers_ c' -> c = c'.
Proof. destruct c, c'. cbn. now intros -> -> -> ->. Qed.

(** Adding an observer that is not listed and removing it again gives back
    the controller and what it has installed in the host; a browser host whose
    controller had no observer has created one MutationObserver in between. *)
Lemma removeObserver_addObserver (o : SpiRef) (w : World) :
  controller_inv w -> patch_inv w -> o ∉ observers_ (controller w) ->
  let w' := removeObserver o (addObserver o w) in
  controller w' = controller w
  /\ subscriptions (host w') = subscriptions (host w)
  /\ attachShadowPatched (host w') = attachShadowPatched (host w)
  /\ mutationObserversCreated (host w') =
       (if isBrowser (host w) && mutationObserverSupported (host w)
           && bool_decide (observers_ (controller w) = [])
        then S (mutationObserversCreated (host w))
        else mutationObserversCreated (host w)).
Proof.
  intros Hinv Hp Hn. cbn zeta.
  destruct (decide (observers_ (controller w) <> [] \/ isBrowser (host w) = false))
    as [Hcase | Hcase].
  - rewrite (addObserver_quiet o w Hinv Hcase), bool_decide_eq_false_2 by exact Hn.
    set (w1 := set_observers_ (fun l => l ++ [o]) w).
    assert (Hq : removeObserver o w1 = set_observers_ (remove_first o) w1).
    { apply removeObserver_quiet. rewrite removeObserver_observers.
      change (observers_ (controller w1)) with (observers_ (controller w) ++ [o]).
      rewrite remove_first_snoc by exact Hn.
      destruct Hcase as [Hne | Hnb]; [left; exact Hne | right].
      change (connected_ (controller w1)) with (connected_ (controller w)).
      destruct Hinv as (_ & -> & _). now rewrite Hnb. }
    rewrite Hq.
    assert (Hb : isBrowser (host w) && mutationObserverSupported (host w)
                 && bool_decide (observers_ (controller w) = []) = false).
    { destruct Hcase as [Hne | Hnb]; [| now rewrite Hnb].
      rewrite bool_decide_eq_false_2 by exact Hne. now rewrite andb_false_r. }
    rewrite Hb. split; [| repeat split].
    apply controller_eq; try reflexivity.
    change (remove_first o (observers_ (controller w) ++ [o]) = observers_ (controller w)).
    now apply remove_first_snoc.
  - assert (Hnil : observers_ (controller w) = []).
    { destruct (observers_ (controller w)); [reflexivity |].
      exfalso. apply Hcase. left. discriminate. }
    assert (Hb : isBrowser (host w) = true).
    { destruct (isBrowser (host w)); [reflexivity |]. exfalso. apply Hcase. now right. }
    destruct Hinv as (_ & Hconn & Hsub). rewrite Hb, Hnil in Hconn. cbn in Hconn.
    unfold subscriptions_match in Hsub. rewrite Hconn in Hsub.
    destruct Hsub as (Hs & Hmo & Hme).
    unfold patch_inv in Hp. rewrite Hmo in Hp.
    set (w1 := set_observers_ (fun l => l ++ [o]) w).
    assert (Hadd : addObserver o w = connect_ w1).
    { unfold addObserver. rewrite Hnil. cbn [indexOf indexOf_from].
      change (truthy (bitnot (-1))) with false. cbn [negb]. fold w1.
      change (connected_ (controller w1)) with (connected_ (controller w)).
      now rewrite Hconn. }
    rewrite Hadd.
    assert (Hb1 : isBrowser (host w1) = true) by exact Hb.
    assert (Hc1 : connected_ (controller w1) = false) by exact Hconn.
    assert (Hmo1 : mutationsObserver_ (controller w1) = None) by exact Hmo.
    assert (Hsub1 : subscriptions_match (controller w1) (subscriptions (host w1))).
    { unfold subscriptions_match. rewrite Hc1. auto. }
    assert (Hp1 : patch_inv w1) by (unfold patch_inv; rewrite Hmo1; exact Hp).
    destruct (connect__installs w1 Hb1 Hc1) as (_ & Hi2 & Hi3).
    pose proof (connect__inv w1 Hb1 Hc1 Hsub1) as Hsub2.
    destruct (connect__patch w1 Hb1 Hc1 Hmo1 Hp1) as (Hp2 & _).
    destruct (connect__created w1 Hb1 Hc1) as (Hcr & _).
    destruct (connect__frame w1) as (_ & _ & _ & _ & Henv).
    apply environment_fields in Henv as (_ & _ & _ & Hbc).
    set (wc := connect_ w1) in *.
    assert (Hobs : observers_ (controller wc) = [o]).
    { rewrite Hi3. unfold w1. cbn. now rewrite Hnil. }
    unfold removeObserver. rewrite Hobs. cbn [indexOf indexOf_from].
    rewrite bool_decide_eq_true_2 by reflexivity.
    change (truthy (bitnot 0)) with true. cbn [Z.to_nat].
    set (w2 := set_observers_ _ wc).
    assert (Ho2 : observers_ (controller w2) = []) by (unfold w2; cbn; now rewrite Hobs).
    assert (Hc2 : connected_ (controller w2) = true) by exact Hi2.
    assert (Hb2 : isBrowser (host w2) = true) by (rewrite <- Hb1; exact Hbc).
    assert (Hsub3 : subscriptions_match (controller w2) (subscriptions (host w2)))
      by exact Hsub2.
    assert (Hp3 : patch_inv w2) by exact Hp2.
    rewrite Ho2, Hc2. cbn [length Nat.ltb Nat.leb negb andb].
    destruct (disconnect__clears w2 Hb2 Hc2 Hsub3) as (H1 & H2 & H3 & H4 & H5).
    destruct (disconnect__patch w2 Hb2 Hc2 Hp3) as (_ & Hpf).
    split; [| split; [| split]].
    + apply controller_eq; [now rewrite H2 | now rewrite H4 | now rewrite H3 |].
      now rewrite H5, Ho2, Hnil.
    + now rewrite H1, Hs.
    + now rewrite Hpf, Hp.
    + rewrite disconnect__created. change (host w2) with (host wc). rewrite Hcr.
      rewrite Hb, Hnil, bool_decide_eq_true_2 by reflexivity. cbn [andb].
      change (host w1) with (host w). now rewrite andb_true_r.
Qed.

(** X16: [unobserve] undoes [observe], up to what [observe] leaves behind.
    When a target that was not registered is observed and then unobserved,
    both calls return normally and every observer is as before.  What
    [observe] leaves behind stays: the allocated ResizeObservation, and the
    call of the throttled [refresh], which is logged and remains scheduled.
    The part of the host that the library only reads is as before.  When the
    controller satisfied its invariants and listed this observer exactly if
    its registry was not empty, the controller, the subscriptions and the
    patch of attachShadow are as before too, and a browser host whose
    controller had no observer has created one MutationObserver in between. *)
Theorem unobserve_after_observe (w : World) (this : SpiRef) (t : Element) :
  (this < length (spis w))%nat ->
  elementInterface (host w) = true ->
  instanceofElement (host w) t = true ->
  map_has (observations_ (spi this w)) t = false ->
  exists w1 w2,
    observe this (Some t) w = Ok tt w1
    /\ unobserve this (Some t) w1 = Ok tt w2
    /\ spi this w2 = spi this w
    /\ (forall o, o <> this -> spi o w2 = spi o w)
    /\ heap w2 = heap w ++ [ResizeObservation_new t]
    /\ log w2 = log w ++ [EvThrottledRefresh]
    /\ refreshScheduled w2 =
         Some (match refreshScheduled w with
               | Some due => due
               | None => (clock (host w) + REFRESH_DELAY)%nat
               end)
    /\ environment (host w2) = environment (host w)
    /\ ((this ∈ observers_ (controller w) <-> observations_ (spi this w) <> []) ->
        observers_ (controller w2) = observers_ (controller w))
    /\ (controller_inv w -> patch_inv w ->
        (this ∈ observers_ (controller w) <-> observations_ (spi this w) <> []) ->
        controller w2 = controller w
        /\ subscriptions (host w2) = subscriptions (host w)
        /\ attachShadowPatched (host w2) = attachShadowPatched (host w)
        /\ mutationObserversCreated (host w2) =
             (if isBrowser (host w) && mutationObserverSupported (host w)
                 && bool_decide (observers_ (controller w) = [])
              then S (mutationObserversCreated (host w))
              else mutationObserversCreated (host w))).
Proof.
  intros Hthis H1 H2 H3.
  destruct (observe_new_world this t w Hthis H1 H2 H3)
    as (w1 & Hobs & Hspi1 & Hother1 & Hlen1 & Hheap1 & Henv1 & Hlist1).
  set (w0 := set_observations_ this (fun m => map_set m t (length (heap w)))
               (snd (alloc_observation t w))).
  assert (Hw1 : w1 = refresh (addObserver this w0)).
  { pose proof (observe_new this t w H1 H2 H3) as Hform. fold w0 in Hform. congruence. }
  destruct (addObserver_frame this w0) as (_ & _ & Al & Ar & Ae).
  destruct (environment_fields _ _ Henv1) as (E1 & E2 & _).
  assert (Hhas1 : map_has (observations_ (spi this w1)) t = true).
  { rewrite Hspi1. cbn. apply map_has_spec. rewrite fmap_app. apply elem_of_app. right.
    cbn. apply list_elem_of_singleton. reflexivity. }
  exists w1. eexists. split; [exact Hobs |].
  split; [apply unobserve_registered; [now rewrite E1 | now rewrite E2 | exact Hhas1] |].
  cbn zeta.
  set (wa := set_observations_ this (fun m => map_delete m t) w1).
  assert (Hspia : spi this wa = spi this w).
  { unfold wa, set_observations_. rewrite spi_update_spi by now rewrite Hlen1.
    rewrite Hspi1. cbn. rewrite map_delete_snoc by exact H3.
    now destruct (spi this w). }
  assert (Hothera : forall o, o <> this -> spi o wa = spi o w).
  { intros o Ho. unfold wa, set_observations_. rewrite spi_update_spi_ne by congruence.
    now apply Hother1. }
  rewrite Hspia.
  set (w2 := if negb _ then removeObserver this wa else wa).
  assert (Hframe : controller_frame wa w2).
  { unfold w2. destruct (negb _); [apply removeObserver_frame | apply controller_frame_refl]. }
  destruct Hframe as (Gs & Gh & Gl & Gr & Ge).
  assert (Hspiw : forall o, spi o w2 = spi o wa) by (intros o; unfold spi; now rewrite Gs).
  split; [rewrite Hspiw; exact Hspia |].
  split; [intros o Ho; rewrite Hspiw; now apply Hothera |].
  split; [rewrite Gh; exact Hheap1 |].
  split.
  { rewrite Gl. change (log wa) with (log w1). rewrite Hw1, refresh_log, Al. reflexivity. }
  split.
  { rewrite Gr. change (refreshScheduled wa) with (refreshScheduled w1).
    rewrite Hw1. unfold refresh, throttle_call.
    change (refreshScheduled (emit EvThrottledRefresh ?x)) with (refreshScheduled x).
    change (host (emit EvThrottledRefresh ?x)) with (host x).
    rewrite Ar. change (refreshScheduled w0) with (refreshScheduled w).
    destruct (refreshScheduled w) as [due|] eqn:Hdue; cbn; [now rewrite Ar |].
    unfold environment in Ae. injection Ae as _ _ _ _ _ _ _ Hclock.
    now rewrite Hclock. }
  split; [rewrite Ge; exact Henv1 |].
  split.
  { intros Hiff. unfold w2, map_size.
    destruct (observations_ (spi this w)) as [|entry m] eqn:Hm;
      cbn [length Nat.ltb Nat.leb negb].
    - assert (Hn : this ∉ observers_ (controller w)).
      { intros Hin. apply Hiff in Hin. congruence. }
      rewrite removeObserver_observers.
      change (observers_ (controller wa)) with (observers_ (controller w1)).
      rewrite Hlist1, bool_decide_eq_false_2 by exact Hn. now apply remove_first_snoc.
    - assert (Hin : this ∈ observers_ (controller w)) by (apply Hiff; discriminate).
      change (observers_ (controller wa)) with (observers_ (controller w1)).
      now rewrite Hlist1, bool_decide_eq_true_2. }
  intros Hinv Hp Hiff.
  assert (Hca : controller wa = controller (addObserver this w0)
                /\ host wa = host (addObserver this w0)).
  { change (controller wa) with (controller w1). change (host wa) with (host w1).
    rewrite Hw1. now destruct (refresh_frame (addObserver this w0)) as (_ & _ & -> & ->). }
  destruct Hca as (Hca & Hha).
  unfold w2, map_size.
  destruct (observations_ (spi this w)) as [|entry m] eqn:Hm;
    cbn [length Nat.ltb Nat.leb negb].
  - assert (Hn : this ∉ observers_ (controller w)).
    { intros Hin. apply Hiff in Hin. congruence. }
    destruct (addObserver_ext this w w0 eq_refl eq_refl) as (Xc & Xh).
    destruct (removeObserver_ext this (addObserver this w) wa) as (-> & ->);
      [now rewrite Hca | now rewrite Hha |].
    now apply removeObserver_addObserver.
  - assert (Hin : this ∈ observers_ (controller w)) by (apply Hiff; discriminate).
    assert (Hne : observers_ (controller w) <> []).
    { intros Hnil. rewrite Hnil in Hin. now apply elem_of_nil in Hin. }
    assert (Hinv0 : controller_inv w0) by now apply (controller_inv_same w).
    rewrite (addObserver_quiet this w0 Hinv0 (or_introl Hne)) in Hca, Hha.
    rewrite bool_decide_eq_true_2 in Hca, Hha by exact Hin.
    rewrite Hca, Hha. change (controller w0) with (controller w).
    change (host w0) with (host w).
    rewrite bool_decide_eq_false_2 by exact Hne. now rewrite andb_false_r.
Qed.

(** [unobserve_after_observe] on a new observer. *)
Lemma unobserve_after_observe_witness :
  let w := one_observer quiet (fun _ => createRectInit 0 0 100 50) in
  exists w1 w2,
    observe 0%nat (Some 7%nat) w = Ok tt w1
    /\ unobserve 0%nat (Some 7%nat) w1 = Ok tt w2
    /\ spi 0%nat w2 = spi 0%nat w
    /\ refreshScheduled w2 = Some 20%nat
    /\ controller w2 = controller w
    /\ subscriptions (host w2) = []
    /\ mutationObserversCreated (host w2) = 1%nat.
Proof.
  intros w.
  assert (Hthis : (0 < length (spis w))%nat) by (vm_compute; constructor).
  assert (H1 : elementInterface (host w) = true) by reflexivity.
  assert (H2 : instanceofElement (host w) 7%nat = true) by reflexivity.
  assert (H3 : map_has (observations_ (spi 0%nat w)) 7%nat = false) by reflexivity.
  assert (Hc : controller_inv w).
  { apply (controller_inv_same
             (world_new (example_host (fun _ => createRectInit 0 0 100 50))));
      [reflexivity | reflexivity | now apply controller_inv_new]. }
  assert (Hp : patch_inv w) by reflexivity.
  assert (Hiff : 0%nat ∈ observers_ (controller w) <-> observations_ (spi 0%nat w) <> []).
  { split.
    - intros Hin. vm_compute in Hin. now apply elem_of_nil in Hin.
    - intros Hne. exfalso. apply Hne. reflexivity. }
  destruct (unobserve_after_observe w 0%nat 7%nat Hthis H1 H2 H3)
    as (w1 & w2 & Ha & Hb & Hs & _ & _ & _ & Hr & _ & _ & Hd).
  destruct (Hd Hc Hp Hiff) as (Hd1 & Hd2 & _ & Hd4).
  exists w1, w2. split; [exact Ha |]. split; [exact Hb |]. split; [exact Hs |].
  split; [exact Hr |]. split; [exact Hd1 |]. split; [exact Hd2 |]. exact Hd4.
Defined.

Lemma disconnect_facts (w : World) (this : SpiRef) :
  (this < length (spis w))%nat ->
  spi this (disconnect this w) = mkSPI [] (callback_ (spi this w)) []
  /\ (forall o, o <> this -> spi o (disconnect this w) = spi o w)
  /\ observers_ (controller (disconnect this w)) =
       remove_first this (observers_ (controller w)).
Proof.
  intros Hthis. unfold disconnect.
  set (wc := clearActive this w). set (wm := set_observations_ this map_clear wc).
  destruct (removeObserver_frame this wm) as (Fs & _).
  assert (Hlen : (this < length (spis wc))%nat).
  { unfold wc, clearActive, update_spi. cbn. now rewrite length_alter. }
  assert (Hspi : forall o, spi o (removeObserver this wm) = spi o wm).
  { intros o. unfold spi. now rewrite Fs. }
  split; [| split].
  - rewrite Hspi. unfold wm, set_observations_. rewrite spi_update_spi by exact Hlen.
    unfold wc, clearActive. now rewrite spi_update_spi by exact Hthis.
  - intros o Ho. rewrite Hspi. unfold wm, set_observations_.
    rewrite spi_update_spi_ne by congruence.
    unfold wc, clearActive. now rewrite spi_update_spi_ne by congruence.
  - now rewrite removeObserver_observers.
Qed.

(** X17: [disconnect] empties the registry and the active observations of
    the observer and keeps its callback; the other observers and all
    ResizeObservation objects are as before; the controller drops the observer
    and keeps the others in their order. *)
Theorem disconnect_spec (w : World) (this : SpiRef) :
  (this < length (spis w))%nat ->
  let w' := disconnect this w in
  spi this w' = mkSPI [] (callback_ (spi this w)) []
  /\ (forall o, o <> this -> spi o w' = spi o w)
  /\ heap w' = heap w
  /\ observers_ (controller w') = remove_first this (observers_ (controller w))
  /\ (NoDup (observers_ (controller w)) -> this ∉ observers_ (controller w')).
Proof.
  intros Hthis. cbn zeta.
  destruct (disconnect_facts w this Hthis) as (Hspi & Hother & Hlist).
  split; [exact Hspi |]. split; [exact Hother |].
  split; [unfold disconnect; now destruct (removeObserver_frame this
            (set_observations_ this map_clear (clearActive this w))) as (_ & -> & _) |].
  split; [exact Hlist |].
  intros Hnd. rewrite Hlist. now apply remove_first_NoDup.
Qed.

(** [disconnect_spec] on an observer with one active observation. *)
Lemma disconnect_spec_witness :
  (0 < length (spis (gathered quiet)))%nat
  /\ activeObservations_ (spi 0%nat (gathered quiet)) = [0%nat]
  /\ spi 0%nat (disconnect 0%nat (gathered quiet)) = mkSPI [] quiet []
  /\ observers_ (controller (disconnect 0%nat (gathered quiet))) = [].
Proof.
  assert (Hthis : (0 < length (spis (gathered quiet)))%nat) by (vm_compute; constructor).
  destruct (disconnect_spec (gathered quiet) 0%nat Hthis) as (H1 & _ & _ & H4 & _).
  split; [exact Hthis |]. split; [vm_compute; reflexivity |].
  split; [exact H1 | exact H4].
Defined.

(** ** Listeners are connected while something is observed *)

Lemma map_has_nonempty {V} (m : MapShim V) (key : Element) :
  map_has m key = true -> m <> [].
Proof. intros H ->. discriminate. Qed.

Lemma controller_inv_observe (this : SpiRef) (arg : option Element) (w : World) :
  controller_inv w -> controller_inv (world_of (observe this arg w)).
Proof.
  intros Hinv. destruct (observe_cases this arg w) as [-> | (t & _ & _ & _ & _ & ->)];
    [exact Hinv |].
  cbn [world_of].
  set (w0 := set_observations_ this _ _).
  destruct (refresh_frame (addObserver this w0)) as (_ & _ & Rho & Rc).
  apply (controller_inv_same (addObserver this w0)); [exact Rc | exact Rho |].
  apply controller_inv_addObserver.
  now apply (controller_inv_same w).
Qed.

Lemma controller_inv_unobserve (this : SpiRef) (arg : option Element) (w : World) :
  controller_inv w -> controller_inv (world_of (unobserve this arg w)).
Proof.
  intros Hinv. destruct (unobserve_cases this arg w) as [-> | (t & _ & _ & _ & _ & ->)];
    [exact Hinv |].
  cbn [world_of]. cbn zeta.
  set (w1 := set_observations_ this _ w).
  assert (H1 : controller_inv w1) by now apply (controller_inv_same w).
  destruct (negb _); [now apply controller_inv_removeObserver | exact H1].
Qed.

Lemma controller_inv_disconnect (this : SpiRef) (w : World) :
  controller_inv w -> controller_inv (disconnect this w).
Proof.
  intros Hinv. unfold disconnect. apply controller_inv_removeObserver.
  now apply (controller_inv_same w).
Qed.

Lemma observers_inv_observe (this : SpiRef) (arg : option Element) (w : World) :
  (this < length (spis w))%nat ->
  observers_inv w -> observers_inv (world_of (observe this arg w)).
Proof.
  intros Hthis Hinv.
  destruct (observe_cases this arg w) as [-> | (t & -> & H1 & H2 & H3 & _)]; [exact Hinv |].
  destruct (observe_new_world this t w Hthis H1 H2 H3)
    as (w1 & -> & Hspi & Hother & _ & _ & _ & Hlist).
  cbn [world_of]. intros o. rewrite Hlist.
  destruct (decide (o = this)) as [-> | Hne].
  - rewrite Hspi. cbn [observations_]. split.
    + intros _ Hnil. now apply app_eq_nil in Hnil as [_ Hnil].
    + intros _. case_bool_decide as Hin; [exact Hin |].
      apply elem_of_app. right. now apply list_elem_of_singleton.
  - rewrite (Hother o Hne), <- (Hinv o).
    case_bool_decide; [reflexivity |].
    rewrite elem_of_app, list_elem_of_singleton. split; [| auto].
    intros [Hin | Heq]; [exact Hin | congruence].
Qed.

Lemma observers_inv_deregister
    (this : SpiRef) (f : MapShim ObsRef -> MapShim ObsRef) (w : World) :
  (this < length (spis w))%nat ->
  NoDup (observers_ (controller w)) ->
  observers_inv w ->
  (f (observations_ (spi this w)) <> [] -> observations_ (spi this w) <> []) ->
  let w1 := set_observations_ this f w in
  observers_inv (if negb (0 <? map_size (observations_ (spi this w1)))%nat
                 then removeObserver this w1 else w1).
Proof.
  intros Hthis Hnd Hinv Hf w1.
  assert (Hspi : observations_ (spi this w1) = f (observations_ (spi this w))).
  { unfold w1, set_observations_. now rewrite spi_update_spi by exact Hthis. }
  assert (Hother : forall o, o <> this -> spi o w1 = spi o w).
  { intros o Ho. unfold w1, set_observations_. now rewrite spi_update_spi_ne by congruence. }
  destruct (removeObserver_frame this w1) as (Fs & _).
  assert (Hrem : forall o, spi o (removeObserver this w1) = spi o w1).
  { intros o. unfold spi. now rewrite Fs. }
  unfold map_size. rewrite Hspi.
  destruct (f (observations_ (spi this w))) as [|entry m] eqn:Hm;
    cbn [length Nat.ltb Nat.leb negb]; intros o.
  - rewrite removeObserver_observers, Hrem.
    change (observers_ (controller w1)) with (observers_ (controller w)).
    destruct (decide (o = this)) as [-> | Hne].
    + rewrite Hspi. split; [| congruence].
      intros Hin. exfalso. revert Hin. now apply remove_first_NoDup.
    + rewrite (remove_first_other _ _ _ Hne), (Hother o Hne). apply Hinv.
  - change (observers_ (controller w1)) with (observers_ (controller w)).
    destruct (decide (o = this)) as [-> | Hne].
    + rewrite Hspi. split; [discriminate |]. intros _. apply Hinv, Hf. discriminate.
    + rewrite (Hother o Hne). apply Hinv.
Qed.

Lemma observers_inv_unobserve (this : SpiRef) (arg : option Element) (w : World) :
  (this < length (spis w))%nat ->
  NoDup (observers_ (controller w)) ->
  observers_inv w -> observers_inv (world_of (unobserve this arg w)).
Proof.
  intros Hthis Hnd Hinv.
  destruct (unobserve_cases this arg w) as [-> | (t & _ & _ & _ & H3 & ->)]; [exact Hinv |].
  cbn [world_of]. apply observers_inv_deregister; try assumption.
  intros _. now apply (map_has_nonempty _ t).
Qed.

Lemma observers_inv_disconnect (this : SpiRef) (w : World) :
  (this < length (spis w))%nat ->
  NoDup (observers_ (controller w)) ->
  observers_inv w -> observers_inv (disconnect this w).
Proof.
  intros Hthis Hnd Hinv o.
  destruct (disconnect_facts w this Hthis) as (Hspi & Hother & Hlist).
  rewrite Hlist. destruct (decide (o = this)) as [-> | Hne].
  - rewrite Hspi. cbn [observations_]. split; [| congruence].
    intros Hin. exfalso. revert Hin. now apply remove_first_NoDup.
  - rewrite (remove_first_other _ _ _ Hne), (Hother o Hne). apply Hinv.
Qed.

Lemma connected_while_observing (w : World) :
  controller_inv w -> observers_inv w -> isBrowser (host w) = true ->
  connected_ (controller w) = true <-> exists o, observations_ (spi o w) <> [].
Proof.
  intros (_ & Hconn & _) Hinv Hb. rewrite Hconn, Hb. cbn [andb].
  destruct (observers_ (controller w)) as [|o l] eqn:Hl; cbn [length Nat.ltb Nat.leb].
  - split; [discriminate |]. intros (o & Ho). apply Hinv in Ho. rewrite Hl in Ho.
    now apply elem_of_nil in Ho.
  - split; [| reflexivity]. intros _. exists o. apply Hinv. rewrite Hl.
    apply elem_of_cons. auto.
Qed.

Lemma spis_length_observe (this : SpiRef) (arg : option Element) (w : World) :
  length (spis (world_of (observe this arg w))) = length (spis w).
Proof.
  apply (preserves_observe (fun w w' => length (spis w') = length (spis w))).
  - reflexivity.
  - intros w1 w2 w3 H1 H2. now rewrite H2.
  - intros w1 w2 (H & _). now rewrite H.
  - intros w1. now destruct (refresh_frame w1) as (-> & _).
  - intros o f w1. unfold set_observations_, update_spi. cbn. now rewrite length_alter.
  - reflexivity.
Qed.

Lemma spis_length_unobserve (this : SpiRef) (arg : option Element) (w : World) :
  length (spis (world_of (unobserve this arg w))) = length (spis w).
Proof.
  apply (preserves_unobserve (fun w w' => length (spis w') = length (spis w))).
  - reflexivity.
  - intros w1 w2 w3 H1 H2. now rewrite H2.
  - intros w1 w2 (H & _). now rewrite H.
  - intros o f w1. unfold set_observations_, update_spi. cbn. now rewrite length_alter.
Qed.

Lemma spis_length_disconnect (this : SpiRef) (w : World) :
  length (spis (disconnect this w)) = length (spis w).
Proof.
  unfold disconnect. destruct (removeObserver_frame this
    (set_observations_ this map_clear (clearActive this w))) as (-> & _).
  unfold set_observations_, clearActive, update_spi. cbn. now rewrite !length_alter.
Qed.

(** X18: the DOM listeners are connected exactly while something is
    observed.  Take a state in which the controller satisfies its invariant and
    lists exactly the observers with a non-empty registry (the state after the
    constructors is one).  Then [observe], [unobserve] and [disconnect] of an
    existing observer lead to such a state again, whatever the argument and
    also when they throw; and in a browser host the controller is connected in
    the resulting state if and only if some observer has a registered
    target. *)
Theorem listeners_while_observing (w w' : World) (this : SpiRef) (arg : option Element) :
  controller_inv w -> observers_inv w -> (this < length (spis w))%nat ->
  w' = world_of (observe this arg w)
  \/ w' = world_of (unobserve this arg w)
  \/ w' = disconnect this w ->
  controller_inv w' /\ observers_inv w'
  /\ length (spis w') = length (spis w)
  /\ (isBrowser (host w') = true ->
      connected_ (controller w') = true <-> exists o, observations_ (spi o w') <> []).
Proof.
  intros Hc Ho Hthis Hw'.
  assert (Hnd : NoDup (observers_ (controller w))) by apply Hc.
  assert (H : controller_inv w' /\ observers_inv w' /\ length (spis w') = length (spis w)).
  { destruct Hw' as [-> | [-> | ->]].
    - split; [now apply controller_inv_observe |].
      split; [now apply observers_inv_observe | apply spis_length_observe].
    - split; [now apply controller_inv_unobserve |].
      split; [now apply observers_inv_unobserve | apply spis_length_unobserve].
    - split; [now apply controller_inv_disconnect |].
      split; [now apply observers_inv_disconnect | apply spis_length_disconnect]. }
  destruct H as (Hc' & Ho' & Hlen).
  split; [exact Hc' |]. split; [exact Ho' |]. split; [exact Hlen |].
  intros Hb. now apply connected_while_observing.
Qed.

Lemma observers_inv_one_observer (callback : ResizeObserverCallback)
    (rects : Element -> DOMRectInit) :
  observers_inv (one_observer callback rects).
Proof.
  intros o. split.
  - intros Hin. now apply elem_of_nil in Hin.
  - intros Hne. exfalso. apply Hne. now destruct o as [|[|o]].
Qed.

(** [listeners_while_observing] on a new observer that observes a target. *)
Lemma listeners_while_observing_witness :
  let w := one_observer quiet (fun _ => createRectInit 0 0 100 50) in
  let w' := world_of (observe 0%nat (Some 7%nat) w) in
  controller_inv w /\ observers_inv w /\ (0 < length (spis w))%nat
  /\ controller_inv w' /\ observers_inv w'
  /\ connected_ (controller w') = true.
Proof.
  intros w w'.
  assert (Hc : controller_inv w).
  { apply (controller_inv_same
             (world_new (example_host (fun _ => createRectInit 0 0 100 50))));
      [reflexivity | reflexivity | now apply controller_inv_new]. }
  assert (Ho : observers_inv w) by apply observers_inv_one_observer.
  assert (Hthis : (0 < length (spis w))%nat) by (vm_compute; constructor).
  destruct (listeners_while_observing w w' 0%nat (Some 7%nat) Hc Ho Hthis (or_introl eq_refl))
    as (Hc' & Ho' & _ & Hconn).
  split; [exact Hc |]. split; [exact Ho |]. split; [exact Hthis |].
  split; [exact Hc' |]. split; [exact Ho' |]. vm_compute. reflexivity.
Defined.
